(** * The Rockridge listing generator: batched generation, validation and insertion

    A shallow embedding of the generation pipeline of the repository

    - [src/utils/openai-client.ts]: [RockridgePropertyGenerator]
      ([generatePropertyBatch], [generatePropertyBatchInternal],
      [createPropertyRequests], [weightedRandom], [enforceRateLimit]);
    - [src/utils/data-inserter.ts]: [PropertyDataInserter]
      ([insertProperties], [insertSingleProperty], [validatePropertyData],
      [getSampleProperties], [validateGeneration]);
    - [scripts/generate-listings.ts]: [DataGenerationOrchestrator]
      ([generateAllData], [saveRawData], [main]).

    Conventions of the embedding.

    - A JavaScript number is an exact rational ([Q]); a decimal literal of the
      source is the rational it denotes.  [NaN] and the infinities are outside
      the model: the records reach the inserter through [JSON.parse] and the
      zod schema, which never produce [NaN].
    - A text whose characters are inspected (the model's reply) is a list of
      UTF-16 code units; a text that is only stored or compared is a [string].
    - A property that may be absent ([undefined] or [null]) is an [option].
    - The outside world (the store, the completion endpoint, the random
      source, the operator at the prompt) is explicit state: what it will
      answer is part of the state a function starts from, what the program
      did to it is part of the state the function returns. *)

From Stdlib Require Import List ZArith NArith QArith Qround Bool Lia Lqa.
From Stdlib Require Import String Ascii DecimalString DecimalNat.
Import ListNotations.

(* ================================================================== *)
(** * Definitions *)
(* ================================================================== *)

(** ** JavaScript strings as code-unit lists *)

Module JsString.

Definition jsstring := list N.

(** The code units of an ASCII literal of the source. *)
Definition lit (s : string) : jsstring :=
  map N_of_ascii (list_ascii_of_string s).

Fixpoint eqb (a b : jsstring) : bool :=
  match a, b with
  | [], [] => true
  | x :: a', y :: b' => N.eqb x y && eqb a' b'
  | _, _ => false
  end.

(** ECMAScript [WhiteSpace] and [LineTerminator]: the code units removed by
    [String.prototype.trim] and matched by the regular expression class
    [\s] (the two sets coincide). *)
Definition whiteSpaceUnits : list N :=
  [ 9; 10; 11; 12; 13; 32; 160; 5760;
    8192; 8193; 8194; 8195; 8196; 8197; 8198; 8199; 8200; 8201; 8202;
    8232; 8233; 8239; 8287; 12288; 65279 ]%N.

Definition isWhiteSpace (c : N) : bool := existsb (N.eqb c) whiteSpaceUnits.

Fixpoint trimStart (s : jsstring) : jsstring :=
  match s with
  | [] => []
  | c :: s' => if isWhiteSpace c then trimStart s' else s
  end.

Fixpoint trimEnd (s : jsstring) : jsstring :=
  match s with
  | [] => []
  | c :: s' =>
      match trimEnd s' with
      | [] => if isWhiteSpace c then [] else [c]
      | r => c :: r
      end
  end.

(** [s.trim()] *)
Definition trim (s : jsstring) : jsstring := trimEnd (trimStart s).

(** A text made of white space only. *)
Definition allWhite (w : jsstring) : Prop := forallb isWhiteSpace w = true.

(** [s.startsWith(p)] *)
Fixpoint startsWith (s p : jsstring) {struct p} : bool :=
  match p, s with
  | [], _ => true
  | y :: p', x :: s' => N.eqb x y && startsWith s' p'
  | _ :: _, [] => false
  end.

End JsString.

(** ** Stripping the markdown fences of a reply
  ([generatePropertyBatchInternal], the lines before [JSON.parse]) *)

Module Fence.
Import JsString.

Definition fence : jsstring := lit "```".
Definition fenceJson : jsstring := lit "```json".

(** [s.replace(/^<opening>\s*/, '')] for a literal [opening]: the pattern is
    anchored at the start, and [\s*] is greedy. *)
Definition replaceOpening (opening s : jsstring) : jsstring :=
  if startsWith s opening
  then trimStart (skipn (List.length opening) s)
  else s.

(** Whether the whole of [s] matches [\s*```]: the part of the pattern
    [/\s*```$/] before the end anchor.  A back-tick is no white space, so
    the greedy [\s*] never has to give anything back. *)
Definition matchesClosing (s : jsstring) : bool := eqb (trimStart s) fence.

(** [s.replace(/\s*```$/, '')]: without the [g] flag the leftmost match is
    replaced; [$] (no [m] flag) holds at the end of the input only, so the
    match is the leftmost suffix of the form [\s*```], and what is left is
    the text before it.  Without a match the text is returned as it is. *)
Fixpoint replaceClosing (s : jsstring) : jsstring :=
  if matchesClosing s then []
  else match s with
       | [] => []
       | c :: s' => c :: replaceClosing s'
       end.

(** The text handed to [JSON.parse]. *)
Definition stripFences (content : jsstring) : jsstring :=
  let jsonContent := trim content in
  if startsWith jsonContent fenceJson then
    replaceClosing (replaceOpening fenceJson jsonContent)
  else if startsWith jsonContent fence then
    replaceClosing (replaceOpening fence jsonContent)
  else jsonContent.

(** The three shapes of reply the property speaks of: the text in a
    [```json] block, in a plain block, and bare. *)
Definition wrapJson (t : jsstring) : jsstring :=
  lit "```json" ++ [10%N] ++ t ++ [10%N] ++ lit "```".
Definition wrapPlain (t : jsstring) : jsstring :=
  lit "```" ++ [10%N] ++ t ++ [10%N] ++ lit "```".

End Fence.

(** ** JavaScript numbers and the operators the source applies to them *)

Module JsNumber.

(** [x < y] and [x <= y] *)
Definition ltb (x y : Q) : bool := negb (Qle_bool y x).
Definition leb (x y : Q) : bool := Qle_bool x y.

(** [Number.isInteger(x)] *)
Definition isInteger (x : Q) : bool := Qeq_bool x (inject_Z (Qfloor x)).

(** [Math.round(x)]: the integer nearest to [x], a half rounded up. *)
Definition round (x : Q) : Q := inject_Z (Qfloor (x + 0.5)).

(** [x || d] on an optional number: [undefined], [null] and [0] give [d]. *)
Definition orNumber (x : option Q) (d : Q) : Q :=
  match x with
  | Some q => if Qeq_bool q 0 then d else q
  | None => d
  end.

(** [s || d] on an optional string: [undefined], [null] and [''] give [d]. *)
Definition orString (x : option string) (d : string) : string :=
  match x with
  | Some ""%string => d
  | Some s => s
  | None => d
  end.

(** [b || d] on an optional boolean. *)
Definition orBool (x : option bool) (d : bool) : bool :=
  match x with
  | Some true => true
  | _ => d
  end.

(** [x ?? d]: only [undefined] and [null] give [d]. *)
Definition nullish {A : Type} (x : option A) (d : A) : A :=
  match x with
  | Some a => a
  | None => d
  end.

(** [x == null] *)
Definition isNull {A : Type} (x : option A) : bool :=
  match x with
  | Some _ => false
  | None => true
  end.

(** [l.slice(start, end)] on an array, with the clamping of the language:
    a negative index counts from the end, an index past the end is the
    length. *)
Definition slice {A : Type} (l : list A) (start stop : Z) : list A :=
  let len := Z.of_nat (List.length l) in
  let k := if (start <? 0)%Z then Z.max (len + start) 0 else Z.min start len in
  let final := if (stop <? 0)%Z then Z.max (len + stop) 0 else Z.min stop len in
  firstn (Z.to_nat (final - k)) (skipn (Z.to_nat k) l).

(** [Math.ceil(n / d)] for integers [n] and [d > 0]. *)
Definition ceilDiv (n d : Z) : Z := ((n + d - 1) / d)%Z.

(** The decimal text of an array index, as a template literal prints it. *)
Definition indexText (n : nat) : string :=
  NilZero.string_of_uint (Nat.to_uint n).

End JsNumber.

(** ** The records of [types/property.ts] *)

Inductive PropertyType := single_family | condo | townhouse.

Record PropertyGenerationRequest := {
  req_propertyType : PropertyType;
  priceRange : Q * Q;
  req_bedrooms : Q;
  req_bathrooms : Q;
  sqftRange : Q * Q;
  yearBuiltRange : Q * Q
}.

(** The [listing] object of a generated record. *)
Record Listing := {
  listDate : string;
  daysOnMarket : option Q;
  description : option string;
  keyFeatures : option (list string);
  agentName : option string;
  agentPhone : option string;
  agentEmail : option string;
  brokerage : option string;
  openHouseDates : option (list string);
  tourAvailable : option bool;
  virtualTourUrl : option string;
  originalPrice : option Q;
  priceChanges : option (list string)
}.

(** The [features] object of a generated record. *)
Record Features := {
  flooringTypes : option (list string);
  kitchenFeatures : option (list string);
  bathroomFeatures : option (list string);
  fireplace : option bool;
  fireplaceCount : option Q;
  laundryFeatures : option string;
  cooling : option string;
  heating : option string;
  yardFeatures : option (list string);
  pool : option bool;
  spa : option bool;
  garageType : option string;
  securityFeatures : option (list string);
  accessibilityFeatures : option (list string);
  greenFeatures : option (list string);
  schoolDistrict : option string;
  walkabilityScore : option Q;
  transitScore : option Q;
  bikeScore : option Q
}.

(** An element of the [photos] array of a generated record. *)
Record Photo := {
  caption : option string;
  roomType : option string;
  isPrimary : option bool;
  sortOrder : option Q
}.

(** [GeneratedProperty].  The inserter looks for the required properties at
    run time ([== null]), so each of them may be absent here. *)
Record GeneratedProperty := {
  zpid : option string;
  address : option string;
  zipCode : option string;
  latitude : option Q;
  longitude : option Q;
  bedrooms : option Q;
  bathrooms : option Q;
  sqft : option Q;
  lotSizeSqft : option Q;
  yearBuilt : option Q;
  propertyType : option string;
  stories : option Q;
  garageSpaces : option Q;
  parkingSpaces : option Q;
  price : option Q;
  pricePerSqft : option Q;
  hoaFee : option Q;
  propertyTax : option Q;
  status : option string;
  listingType : option string;
  listing : option Listing;
  features : option Features;
  photos : option (list Photo)
}.

(** [GenerationProgress], without the two time stamps. *)
Record GenerationProgress := {
  totalRequested : Z;
  totalGenerated : Z;
  totalInserted : Z;
  currentChunk : Z;
  totalChunks : Z;
  failedBatches : list Z
}.

(** ** The rows of [prisma/schema.prisma] *)

Definition ListingObject := Listing.
Definition FeaturesObject := Features.

Module Prisma.

(** A row of [properties]. *)
Record Property := {
  id : Z;
  zpid : string;
  address : string;
  city : string;
  state : string;
  zipCode : string;
  latitude : Q;
  longitude : Q;
  bedrooms : Q;
  bathrooms : Q;
  sqft : Q;
  lotSizeSqft : option Q;
  yearBuilt : Q;
  propertyType : string;
  stories : option Q;
  garageSpaces : option Q;
  parkingSpaces : option Q;
  price : Q;
  pricePerSqft : option Q;
  hoaFee : option Q;
  propertyTax : option Q;
  status : string;
  listingType : string
}.

(** A row of [listings]: the owning property and the columns, which carry
    the names of the [listing] object they are filled from.  A column the
    code fills with [JSON.stringify] of a list holds that list. *)
Record Listing := {
  listing_propertyId : Z;
  listing_columns : ListingObject
}.

(** A row of [property_features], in the same way. *)
Record PropertyFeatures := {
  features_propertyId : Z;
  features_columns : FeaturesObject
}.

(** A row of [property_photos]. *)
Record PropertyPhoto := {
  propertyId : Z;
  photoUrl : option string;
  caption : option string;
  roomType : option string;
  isPrimary : bool;
  sortOrder : option Q
}.

End Prisma.

(** ** The world outside the program *)

(** What the completion endpoint does with one call: the call is rejected
    (network failure, error status), or it returns a completion whose
    [choices[0]?.message?.content] is the given text, if any. *)
Inductive ApiReply :=
| ApiError
| ApiMessage (content : option JsString.jsstring).

(** What the program does that can be observed from outside, in order. *)
Inductive Event :=
| RateLimit
| ApiCall (batch : list PropertyGenerationRequest)
| Pause (ms : Z)
| SaveRaw (chunkIdx : Z) (data : list GeneratedProperty)
| AbortedByUser
| Summary (progress : GenerationProgress).

(** The four tables, and the next value of the auto-incremented key of
    [properties]. *)
Record Db := {
  properties : list Prisma.Property;
  listings : list Prisma.Listing;
  propertyFeatures : list Prisma.PropertyFeatures;
  propertyPhotos : list Prisma.PropertyPhoto;
  nextId : Z
}.

(** What the outside will answer: the value of [OPENAI_API_KEY] in the
    process environment, whether the n-th call of the store fails,
    what the n-th call of the endpoint returns, the n-th value of
    [Math.random()], and what the operator types at the prompt. *)
Record Environment := {
  apiKey : option string;
  dbFault : nat -> bool;
  apiReply : nat -> ApiReply;
  random : nat -> Q;
  promptAnswer : option string
}.

Record World := {
  env : Environment;
  db : Db;
  dbCalls : nat;
  apiCalls : nat;
  randomCalls : nat;
  progress : GenerationProgress;
  trace : list Event
}.

Definition set_db (d : Db) (w : World) : World :=
  {| env := env w; db := d; dbCalls := dbCalls w; apiCalls := apiCalls w;
     randomCalls := randomCalls w; progress := progress w; trace := trace w |}.

Definition set_dbCalls (n : nat) (w : World) : World :=
  {| env := env w; db := db w; dbCalls := n; apiCalls := apiCalls w;
     randomCalls := randomCalls w; progress := progress w; trace := trace w |}.

Definition set_apiCalls (n : nat) (w : World) : World :=
  {| env := env w; db := db w; dbCalls := dbCalls w; apiCalls := n;
     randomCalls := randomCalls w; progress := progress w; trace := trace w |}.

Definition set_randomCalls (n : nat) (w : World) : World :=
  {| env := env w; db := db w; dbCalls := dbCalls w; apiCalls := apiCalls w;
     randomCalls := n; progress := progress w; trace := trace w |}.

Definition set_progress (g : GenerationProgress) (w : World) : World :=
  {| env := env w; db := db w; dbCalls := dbCalls w; apiCalls := apiCalls w;
     randomCalls := randomCalls w; progress := g; trace := trace w |}.

Definition set_trace (t : list Event) (w : World) : World :=
  {| env := env w; db := db w; dbCalls := dbCalls w; apiCalls := apiCalls w;
     randomCalls := randomCalls w; progress := progress w; trace := t |}.

(** ** Computations: state, exceptions, and loops that may not end *)

Inductive Result (A : Type) :=
| Returned (a : A)
| Thrown
| OutOfFuel.

Arguments Returned {A} a.
Arguments Thrown {A}.
Arguments OutOfFuel {A}.

Definition M (A : Type) : Type := World -> Result A * World.

Definition ret {A : Type} (a : A) : M A := fun w => (Returned a, w).

Definition throw {A : Type} : M A := fun w => (Thrown, w).

Definition outOfFuel {A : Type} : M A := fun w => (OutOfFuel, w).

Definition bind {A B : Type} (m : M A) (k : A -> M B) : M B :=
  fun w =>
    match m w with
    | (Returned a, w') => k a w'
    | (Thrown, w') => (Thrown, w')
    | (OutOfFuel, w') => (OutOfFuel, w')
    end.

(** [try { m } catch { h }] *)
Definition tryCatch {A : Type} (m h : M A) : M A :=
  fun w =>
    match m w with
    | (Thrown, w') => h w'
    | r => r
    end.

Declare Scope comp_scope.
Delimit Scope comp_scope with comp.
Notation "x <- m ;; k" := (bind m (fun x => k))
  (at level 61, m at next level, right associativity) : comp_scope.
Notation "m ;;; k" := (bind m (fun _ => k))
  (at level 61, right associativity) : comp_scope.
Open Scope comp_scope.

Definition emit (e : Event) : M unit :=
  fun w => (Returned tt, set_trace (trace w ++ [e]) w).

(** [await new Promise(resolve => setTimeout(resolve, ms))] *)
Definition sleep (ms : Z) : M unit := emit (Pause ms).

(** [Math.random()] *)
Definition mathRandom : M Q :=
  fun w => (Returned (random (env w) (randomCalls w)),
            set_randomCalls (S (randomCalls w)) w).

(** A call of the store: it fails when the environment says so, and
    otherwise does what [op] does with the tables. *)
Definition storeCall {A : Type} (op : Db -> option (A * Db)) : M A :=
  fun w =>
    let w' := set_dbCalls (S (dbCalls w)) w in
    if dbFault (env w) (dbCalls w) then (Thrown, w')
    else match op (db w) with
         | Some (a, d) => (Returned a, set_db d w')
         | None => (Thrown, w')
         end.

(** ** The inserter ([PropertyDataInserter]) *)

Module Inserter.
Import JsNumber.

Notation "'let?' x := e 'in' k" :=
  (match e with Some x => k | None => None end)
  (at level 10, x name, e at level 100, k at level 200).

(** The loop over [requiredFields]: whether one of them is [== null]. *)
Definition requiredFieldMissing (propData : GeneratedProperty) : bool :=
  existsb (fun missing : bool => missing)
    [ isNull (zpid propData); isNull (address propData);
      isNull (zipCode propData); isNull (latitude propData);
      isNull (longitude propData); isNull (bedrooms propData);
      isNull (bathrooms propData); isNull (sqft propData);
      isNull (yearBuilt propData); isNull (propertyType propData);
      isNull (price propData) ].

(** The range checks on the values that are there.  (Comparing numbers
    raises nothing, so the [try] around the checks has nothing to catch.) *)
Definition rangesValid (bd ba sq pr yb lat lon : Q) : bool :=
  if leb bd 0 || negb (isInteger bd) then false
  else if leb ba 0 then false
  else if leb sq 0 || negb (isInteger sq) then false
  else if leb pr 0 || negb (isInteger pr) then false
  else if ltb yb 1800 || ltb 2024 yb then false
  else if ltb lat 37.8 || ltb 37.9 lat then false
  else if ltb lon (-122.3) || ltb (-122.2) lon then false
  else true.

Definition validatePropertyData (propData : GeneratedProperty) : bool :=
  if requiredFieldMissing propData then false
  else
    match bedrooms propData, bathrooms propData, sqft propData,
          price propData, yearBuilt propData,
          latitude propData, longitude propData with
    | Some bd, Some ba, Some sq, Some pr, Some yb, Some lat, Some lon =>
        rangesValid bd ba sq pr yb lat lon
    | _, _, _, _, _, _, _ => false
    end.

(** [prisma.property.findUnique({ where: { zpid } })] *)
Definition lookupZpid (z : string) (d : Db) : option Prisma.Property :=
  find (fun r => String.eqb (Prisma.zpid r) z) (properties d).

Definition findUnique (z : option string) : M (option Prisma.Property) :=
  match z with
  | Some z => storeCall (fun d => Some (lookupZpid z d, d))
  | None => throw
  end.

(** [prisma.property.count()] *)
Definition getPropertyCount : M Z :=
  storeCall (fun d => Some (Z.of_nat (List.length (properties d)), d)).

(** [tx.property.create]: the store refuses a row without a required
    column and a second row with the same [zpid] ([@unique]); the columns
    left out take the defaults of the schema. *)
Definition createProperty (propData : GeneratedProperty) (d : Db)
  : option (Prisma.Property * Db) :=
  let? z := zpid propData in
  let? a := address propData in
  let? zc := zipCode propData in
  let? lat := latitude propData in
  let? lon := longitude propData in
  let? bd := bedrooms propData in
  let? ba := bathrooms propData in
  let? sq := sqft propData in
  let? yb := yearBuilt propData in
  let? pt := propertyType propData in
  let? pr := price propData in
  match lookupZpid z d with
  | Some _ => None
  | None =>
      let property :=
        {| Prisma.id := nextId d;
           Prisma.zpid := z;
           Prisma.address := a;
           Prisma.city := "Oakland";
           Prisma.state := "CA";
           Prisma.zipCode := zc;
           Prisma.latitude := lat;
           Prisma.longitude := lon;
           Prisma.bedrooms := bd;
           Prisma.bathrooms := ba;
           Prisma.sqft := sq;
           Prisma.lotSizeSqft := lotSizeSqft propData;
           Prisma.yearBuilt := yb;
           Prisma.propertyType := pt;
           Prisma.stories := Some (nullish (stories propData) 1);
           Prisma.garageSpaces := Some (nullish (garageSpaces propData) 0);
           Prisma.parkingSpaces := Some (nullish (parkingSpaces propData) 0);
           Prisma.price := pr;
           Prisma.pricePerSqft := pricePerSqft propData;
           Prisma.hoaFee := Some (nullish (hoaFee propData) 0);
           Prisma.propertyTax := Some (nullish (propertyTax propData) 0);
           Prisma.status := orString (status propData) "For Sale";
           Prisma.listingType := orString (listingType propData) "Resale" |} in
      Some (property,
            {| properties := properties d ++ [property];
               listings := listings d;
               propertyFeatures := propertyFeatures d;
               propertyPhotos := propertyPhotos d;
               nextId := nextId d + 1 |})
  end.

(** [tx.listing.create] *)
Definition createListing (propertyId : Z) (price : option Q) (l : Listing)
    (d : Db) : Db :=
  let row :=
    {| Prisma.listing_propertyId := propertyId;
       Prisma.listing_columns :=
         {| listDate := listDate l;
            daysOnMarket := Some (orNumber (daysOnMarket l) 0);
            description := description l;
            keyFeatures := Some (nullish (keyFeatures l) []);
            agentName := agentName l;
            agentPhone := agentPhone l;
            agentEmail := agentEmail l;
            brokerage := brokerage l;
            openHouseDates := Some (nullish (openHouseDates l) []);
            tourAvailable := Some (nullish (tourAvailable l) true);
            virtualTourUrl := virtualTourUrl l;
            originalPrice :=
              match originalPrice l with
              | Some q => if Qeq_bool q 0 then price else Some q
              | None => price
              end;
            priceChanges := Some (nullish (priceChanges l) []) |} |} in
  {| properties := properties d;
     listings := listings d ++ [row];
     propertyFeatures := propertyFeatures d;
     propertyPhotos := propertyPhotos d;
     nextId := nextId d |}.

(** [tx.propertyFeatures.create] *)
Definition createFeatures (propertyId : Z) (f : Features) (d : Db) : Db :=
  let row :=
    {| Prisma.features_propertyId := propertyId;
       Prisma.features_columns :=
         {| flooringTypes := Some (nullish (flooringTypes f) []);
            kitchenFeatures := Some (nullish (kitchenFeatures f) []);
            bathroomFeatures := Some (nullish (bathroomFeatures f) []);
            fireplace := Some (orBool (fireplace f) false);
            fireplaceCount := Some (orNumber (fireplaceCount f) 0);
            laundryFeatures := laundryFeatures f;
            cooling := cooling f;
            heating := heating f;
            yardFeatures := Some (nullish (yardFeatures f) []);
            pool := Some (orBool (pool f) false);
            spa := Some (orBool (spa f) false);
            garageType := garageType f;
            securityFeatures := Some (nullish (securityFeatures f) []);
            accessibilityFeatures :=
              Some (nullish (accessibilityFeatures f) []);
            greenFeatures := Some (nullish (greenFeatures f) []);
            schoolDistrict :=
              Some (orString (schoolDistrict f)
                      "Oakland Unified School District");
            walkabilityScore := Some (orNumber (walkabilityScore f) 80);
            transitScore := Some (orNumber (transitScore f) 85);
            bikeScore := Some (orNumber (bikeScore f) 70) |} |} in
  {| properties := properties d;
     listings := listings d;
     propertyFeatures := propertyFeatures d ++ [row];
     propertyPhotos := propertyPhotos d;
     nextId := nextId d |}.

(** The [data] of [tx.propertyPhoto.create] for the photo at index [i]. *)
Definition photoRow (propertyId : Z) (z : string) (i : nat) (photo : Photo)
  : Prisma.PropertyPhoto :=
  {| Prisma.propertyId := propertyId;
     Prisma.photoUrl :=
       Some ("https://placeholder.com/property_" ++ z ++ "_photo_"
             ++ indexText (i + 1) ++ ".jpg")%string;
     Prisma.caption := caption photo;
     Prisma.roomType := roomType photo;
     Prisma.isPrimary := nullish (isPrimary photo) (Nat.eqb i 0);
     Prisma.sortOrder :=
       Some (nullish (sortOrder photo) (inject_Z (Z.of_nat i))) |}.

(** The loop [for (let i = 0; i < propData.photos.length; i++)], from
    index [i] on. *)
Fixpoint createPhotos (propertyId : Z) (z : string) (i : nat)
    (photos : list Photo) (d : Db) : Db :=
  match photos with
  | [] => d
  | photo :: rest =>
      createPhotos propertyId z (S i) rest
        {| properties := properties d;
           listings := listings d;
           propertyFeatures := propertyFeatures d;
           propertyPhotos := propertyPhotos d ++ [photoRow propertyId z i photo];
           nextId := nextId d |}
  end.

(** The body of the transaction of [insertSingleProperty]. *)
Definition createAll (propData : GeneratedProperty) (d : Db) : option Db :=
  match createProperty propData d with
  | None => None
  | Some (property, d1) =>
      let d2 :=
        match listing propData with
        | Some l => createListing (Prisma.id property) (price propData) l d1
        | None => d1
        end in
      let d3 :=
        match features propData with
        | Some f => createFeatures (Prisma.id property) f d2
        | None => d2
        end in
      Some
        match photos propData with
        | Some (photo :: rest) =>
            createPhotos (Prisma.id property) (Prisma.zpid property) 0
              (photo :: rest) d3
        | _ => d3
        end
  end.

(** [prisma.$transaction(body)]: all of the writes of [body], or none. *)
Definition transaction (body : Db -> option Db) : M unit :=
  storeCall (fun d => let? d' := body d in Some (tt, d')).

Definition insertSingleProperty (propData : GeneratedProperty) : M bool :=
  tryCatch
    (if negb (validatePropertyData propData) then ret false
     else
       existing <- findUnique (zpid propData) ;;
       match existing with
       | Some _ => ret false
       | None => transaction (createAll propData) ;;; ret true
       end)
    (ret false).

(** The loop of [insertProperties], with [insertedCount] so far. *)
Fixpoint insertLoop (propertiesData : list GeneratedProperty)
    (insertedCount : Z) : M Z :=
  match propertiesData with
  | [] => ret insertedCount
  | propData :: rest =>
      inserted <- tryCatch (insertSingleProperty propData) (ret false) ;;
      insertLoop rest (if inserted then insertedCount + 1 else insertedCount)%Z
  end.

Definition insertProperties (propertiesData : list GeneratedProperty) : M Z :=
  insertLoop propertiesData 0%Z.

End Inserter.

(** ** The generator ([RockridgePropertyGenerator]) *)

Module Generator.
Import JsNumber JsString.

Record PropertyTypeDistribution := {
  type : PropertyType;
  type_weight : Q
}.

Record BedroomDistribution := {
  dist_bedrooms : Q;
  bedrooms_weight : Q
}.

(** The loop of [weightedRandom]: the first item at which the running
    [random] is used up. *)
Fixpoint pick {T : Type} (weight : T -> Q) (items : list T) (random : Q)
  : option T :=
  match items with
  | [] => None
  | item :: rest =>
      let random := random - weight item in
      if leb random 0 then Some item else pick weight rest random
  end.

(** [weightedRandom(items)]; the result is [undefined] ([None]) only for an
    empty array. *)
Definition weightedRandom {T : Type} (weight : T -> Q) (items : list T)
  : M (option T) :=
  let totalWeight := fold_left (fun sum item => sum + weight item) items 0 in
  r <- mathRandom ;;
  let random := r * totalWeight in
  match pick weight items random with
  | Some item => ret (Some item)
  | None => ret (last (map Some items) None)
  end.

Definition propertyTypes : list PropertyTypeDistribution :=
  [ {| type := single_family; type_weight := 0.7 |};
    {| type := condo; type_weight := 0.2 |};
    {| type := townhouse; type_weight := 0.1 |} ].

Definition bedroomDist : list BedroomDistribution :=
  [ {| dist_bedrooms := 2; bedrooms_weight := 0.2 |};
    {| dist_bedrooms := 3; bedrooms_weight := 0.4 |};
    {| dist_bedrooms := 4; bedrooms_weight := 0.3 |};
    {| dist_bedrooms := 5; bedrooms_weight := 0.1 |} ].

(** [Math.round((bedrooms * (0.75 + Math.random() * 0.5)) * 2) / 2], for
    the value [r] of [Math.random()]. *)
Definition deriveBathrooms (bedrooms r : Q) : Q :=
  round ((bedrooms * (0.75 + r * 0.5)) * 2) / 2.

(** The body of the loop of [createPropertyRequests]; reading a property of
    [undefined] throws.  (The [default] branch of the [switch] is left out:
    the type drawn is one of the three.) *)
Definition createPropertyRequest : M PropertyGenerationRequest :=
  chosenType <- weightedRandom type_weight propertyTypes ;;
  match chosenType with
  | None => throw
  | Some chosenType =>
      let propType := type chosenType in
      chosenBedrooms <- weightedRandom bedrooms_weight bedroomDist ;;
      match chosenBedrooms with
      | None => throw
      | Some chosenBedrooms =>
          let bedrooms := dist_bedrooms chosenBedrooms in
          r <- mathRandom ;;
          let bathrooms := deriveBathrooms bedrooms r in
          let ranges :=
            match propType with
            | single_family => ((1400000, 2500000), (1800, 3500))
            | condo => ((800000, 1200000), (900, 1800))
            | townhouse => ((1200000, 1800000), (1400, 2400))
            end in
          ret {| req_propertyType := propType;
                 priceRange := fst ranges;
                 req_bedrooms := bedrooms;
                 req_bathrooms := bathrooms;
                 sqftRange := snd ranges;
                 yearBuiltRange := (1920, 2020) |}
      end
  end.

(** The loop [for (let i = 0; i < totalProperties; i++)] with [count]
    rounds to go. *)
Fixpoint createRequestsLoop (count : nat)
    (requests : list PropertyGenerationRequest)
  : M (list PropertyGenerationRequest) :=
  match count with
  | O => ret requests
  | S count' =>
      request <- createPropertyRequest ;;
      createRequestsLoop count' (requests ++ [request])
  end.

Definition createPropertyRequests (totalProperties : Z)
  : M (list PropertyGenerationRequest) :=
  createRequestsLoop (Z.to_nat totalProperties) [].

(** [enforceRateLimit()] only waits: it calls nothing and raises nothing.
    How long it waits depends on the clock and is left open. *)
Definition enforceRateLimit : M unit := emit RateLimit.

(** [this.client.chat.completions.create(...)] for the prompt built from
    [requests]. *)
Definition createCompletion (requests : list PropertyGenerationRequest)
  : M (option jsstring) :=
  emit (ApiCall requests) ;;;
  fun w =>
    let w' := set_apiCalls (S (apiCalls w)) w in
    match apiReply (env w) (apiCalls w) with
    | ApiError => (Thrown, w')
    | ApiMessage content => (Returned content, w')
    end.

Section Decoding.

(** [JSON.parse] followed by [OpenAIPropertyResponseSchema.parse] and the
    projection [.properties]; [None] when one of the two throws. *)
Variable decode : jsstring -> option (list GeneratedProperty).

Definition generatePropertyBatchInternal
    (requests : list PropertyGenerationRequest)
  : M (list GeneratedProperty) :=
  content <- createCompletion requests ;;
  tryCatch
    match content with
    | None => throw
    | Some [] => throw
    | Some content =>
        match decode (Fence.stripFences content) with
        | Some properties => ret properties
        | None => throw
        end
    end
    (ret []).

(** The loop of [generatePropertyBatch] from index [i] with [results] so
    far.  [fuel] bounds the number of rounds; the loop answers [OutOfFuel]
    when it has not come to its end within them. *)
Fixpoint batchLoop (fuel : nat) (requests : list PropertyGenerationRequest)
    (batchSize : Z) (i : Z) (results : list GeneratedProperty)
  : M (list GeneratedProperty) :=
  match fuel with
  | O => outOfFuel
  | S fuel' =>
      if (i <? Z.of_nat (List.length requests))%Z then
        let batch := slice requests i (i + batchSize) in
        batchResult <-
          tryCatch
            (enforceRateLimit ;;;
             batchResult <- generatePropertyBatchInternal batch ;;
             ret (Some batchResult))
            (ret None) ;;
        match batchResult with
        | Some batchResult =>
            sleep 1000 ;;;
            batchLoop fuel' requests batchSize (i + batchSize)
              (results ++ batchResult)
        | None =>
            batchLoop fuel' requests batchSize (i + batchSize) results
        end
      else ret results
  end.

Definition generatePropertyBatch (fuel : nat)
    (requests : list PropertyGenerationRequest) (batchSize : Z)
  : M (list GeneratedProperty) :=
  batchLoop fuel requests batchSize 0 [].

End Decoding.

End Generator.

(** ** The orchestrator ([DataGenerationOrchestrator]) *)

Module Orchestrator.
Import JsNumber.

Record Orchestrator := {
  totalProperties : Z;
  batchSize : Z
}.

Definition update (f : GenerationProgress -> GenerationProgress) : M unit :=
  fun w => (Returned tt, set_progress (f (progress w)) w).

Definition set_totalGenerated (n : Z) (g : GenerationProgress) :=
  {| totalRequested := totalRequested g; totalGenerated := n;
     totalInserted := totalInserted g; currentChunk := currentChunk g;
     totalChunks := totalChunks g; failedBatches := failedBatches g |}.

Definition set_totalInserted (n : Z) (g : GenerationProgress) :=
  {| totalRequested := totalRequested g; totalGenerated := totalGenerated g;
     totalInserted := n; currentChunk := currentChunk g;
     totalChunks := totalChunks g; failedBatches := failedBatches g |}.

Definition set_currentChunk (n : Z) (g : GenerationProgress) :=
  {| totalRequested := totalRequested g; totalGenerated := totalGenerated g;
     totalInserted := totalInserted g; currentChunk := n;
     totalChunks := totalChunks g; failedBatches := failedBatches g |}.

Definition set_totalChunks (n : Z) (g : GenerationProgress) :=
  {| totalRequested := totalRequested g; totalGenerated := totalGenerated g;
     totalInserted := totalInserted g; currentChunk := currentChunk g;
     totalChunks := n; failedBatches := failedBatches g |}.

Definition set_failedBatches (l : list Z) (g : GenerationProgress) :=
  {| totalRequested := totalRequested g; totalGenerated := totalGenerated g;
     totalInserted := totalInserted g; currentChunk := currentChunk g;
     totalChunks := totalChunks g; failedBatches := l |}.

(** The constructor: without [OPENAI_API_KEY] (unset or empty) it throws. *)
Definition construct (totalProperties batchSize : Z) : M Orchestrator :=
  fun w =>
    match apiKey (env w) with
    | None | Some ""%string => (Thrown, w)
    | Some _ =>
        (Returned {| totalProperties := totalProperties;
                     batchSize := batchSize |},
         set_progress
           {| totalRequested := totalProperties; totalGenerated := 0;
              totalInserted := 0; currentChunk := 0; totalChunks := 0;
              failedBatches := [] |} w)
    end.

(** [response?.toLowerCase() !== 'y'] is false for the answers [y] and [Y]
    only. *)
Definition confirmed (response : option string) : bool :=
  match response with
  | Some r => String.eqb r "y" || String.eqb r "Y"
  | None => false
  end.

(** [saveRawData]: the file is written if it can be; nothing of it comes
    back to the program. *)
Definition saveRawData (propertiesData : list GeneratedProperty)
    (chunkIdx : Z) : M unit :=
  emit (SaveRaw chunkIdx propertiesData).

Section Decoding.

Variable decode : JsString.jsstring -> option (list GeneratedProperty).

Definition chunkSize : Z := 50.

(** One round of the loop over the chunks. *)
Definition processChunk (fuel : nat) (this : Orchestrator)
    (requests : list PropertyGenerationRequest) (chunkIdx : Z) : M unit :=
  let startIdx := (chunkIdx * chunkSize)%Z in
  let endIdx :=
    Z.min (startIdx + chunkSize) (Z.of_nat (List.length requests)) in
  let chunkRequests := slice requests startIdx endIdx in
  update (set_currentChunk (chunkIdx + 1)) ;;;
  tryCatch
    (propertiesData <-
       Generator.generatePropertyBatch decode fuel chunkRequests
         (batchSize this) ;;
     match propertiesData with
     | [] => ret tt
     | _ :: _ =>
         update (fun g =>
           set_totalGenerated
             (totalGenerated g + Z.of_nat (List.length propertiesData)) g) ;;;
         saveRawData propertiesData chunkIdx ;;;
         insertedCount <- Inserter.insertProperties propertiesData ;;
         update (fun g =>
           set_totalInserted (totalInserted g + insertedCount) g) ;;;
         sleep 2000
     end)
    (update (fun g =>
       set_failedBatches (failedBatches g ++ [currentChunk g]) g)).

(** The loop over the chunks with [count] rounds to go, from [chunkIdx]. *)
Fixpoint chunkLoop (fuel : nat) (this : Orchestrator)
    (requests : list PropertyGenerationRequest) (count : nat) (chunkIdx : Z)
  : M unit :=
  match count with
  | O => ret tt
  | S count' =>
      processChunk fuel this requests chunkIdx ;;;
      chunkLoop fuel this requests count' (chunkIdx + 1)
  end.

(** [generateAllData], up to the final summary. *)
Definition generateAllData (fuel : nat) (this : Orchestrator) : M unit :=
  currentCount <- Inserter.getPropertyCount ;;
  proceed <-
    (if (0 <? currentCount)%Z then
       fun w =>
         if confirmed (promptAnswer (env w)) then ret true w
         else (emit AbortedByUser ;;; ret false) w
     else ret true) ;;
  if negb proceed then ret tt
  else
    requests <- Generator.createPropertyRequests (totalProperties this) ;;
    update (set_totalChunks
              (ceilDiv (Z.of_nat (List.length requests)) chunkSize)) ;;;
    chunks <- (fun w => ret (Z.to_nat (totalChunks (progress w))) w) ;;
    chunkLoop fuel this requests chunks 0 ;;;
    fun w => emit (Summary (progress w)) w.

(** [main] without [--validate-only], up to the final summary. *)
Definition main (fuel : nat) (properties batchSize : Z) : M unit :=
  orchestrator <- construct properties batchSize ;;
  generateAllData fuel orchestrator.

End Decoding.

End Orchestrator.

(** ** The limiter of the generator in detail ([enforceRateLimit]) *)

Module RateLimiter.
Import JsNumber.

(** [RateLimitConfig] *)
Record RateLimitConfig := {
  maxRequestsPerMinute : Q;
  retryAttempts : Q;
  retryDelay : Q
}.

(** The configuration the constructor sets when it is given none. *)
Definition defaultConfig : RateLimitConfig :=
  {| maxRequestsPerMinute := 50; retryAttempts := 3; retryDelay := 1000 |}.

(** The three fields of the generator that the limiter keeps. *)
Record Limiter := {
  lastRequestTime : Q;
  requestCount : Z;
  resetTime : Q
}.

(** The fields of a new generator, made at the time [now]. *)
Definition initial (now : Q) : Limiter :=
  {| lastRequestTime := 0; requestCount := 0; resetTime := now + 60000 |}.

(** What [Date.now()] answers at the three places of [enforceRateLimit]:
    at its start, after the wait for the next minute (read only when that
    wait was made), and at its end. *)
Record Readings := {
  atStart : Q;
  afterWait : Q;
  atEnd : Q
}.

(** What one call has done: the fields afterwards, and the two waits it has
    asked [setTimeout] for, if any. *)
Record Outcome := {
  fields : Limiter;
  waitForReset : option Q;
  waitForSpacing : option Q
}.

Definition enforceRateLimit (config : RateLimitConfig) (this : Limiter)
    (clock : Readings) : Outcome :=
  let now := atStart clock in
  (* Reset counter every minute *)
  let this1 :=
    if leb (resetTime this) now
    then {| lastRequestTime := lastRequestTime this; requestCount := 0;
            resetTime := now + 60000 |}
    else this in
  (* Check if we've hit the rate limit *)
  let limited :=
    leb (maxRequestsPerMinute config) (inject_Z (requestCount this1)) in
  let waitTime := resetTime this1 - now in
  let this2 :=
    if limited
    then {| lastRequestTime := lastRequestTime this1; requestCount := 0;
            resetTime := afterWait clock + 60000 |}
    else this1 in
  (* Ensure minimum delay between requests *)
  let timeSinceLastRequest := now - lastRequestTime this2 in
  let minDelay := 60000 / maxRequestsPerMinute config in
  let early := ltb timeSinceLastRequest minDelay in
  {| fields :=
       {| lastRequestTime := atEnd clock;
          requestCount := requestCount this2 + 1;
          resetTime := resetTime this2 |};
     waitForReset := if limited then Some waitTime else None;
     waitForSpacing :=
       if early then Some (minDelay - timeSinceLastRequest) else None |}.

End RateLimiter.

(** ** The file of the raw data ([saveRawData]) *)

(** [s.padStart(targetLength, fill)] for a fill of one character. *)
Fixpoint fillString (fill : ascii) (n : nat) : string :=
  match n with
  | O => EmptyString
  | S n' => String fill (fillString fill n')
  end.

Definition padStart (s : string) (targetLength : nat) (fill : ascii)
  : string :=
  (fillString fill (targetLength - String.length s) ++ s)%string.

(** The file that [saveRawData] writes for the chunk [chunkIdx]. *)
Definition rawDataPath (chunkIdx : Z) : string :=
  ("data/raw_generated/chunk_"
   ++ padStart (JsNumber.indexText (Z.to_nat chunkIdx)) 3 "0"
   ++ ".json")%string.

(** ** The report on the store ([validateGeneration]) *)

Module Validation.
Import JsNumber.

(** The columns that [getSampleProperties] selects. *)
Record SampleProperty := {
  zpid : string;
  address : string;
  price : Q;
  bedrooms : Q;
  bathrooms : Q;
  sqft : Q;
  propertyType : string
}.

Definition select (row : Prisma.Property) : SampleProperty :=
  {| zpid := Prisma.zpid row; address := Prisma.address row;
     price := Prisma.price row; bedrooms := Prisma.bedrooms row;
     bathrooms := Prisma.bathrooms row; sqft := Prisma.sqft row;
     propertyType := Prisma.propertyType row |}.

(** [prisma.property.findMany({ take: limit, select: ... })]: without an
    order the store answers with its first rows, in the order of their
    keys. *)
Definition getSampleProperties (limit : nat) : M (list SampleProperty) :=
  storeCall (fun d => Some (map select (firstn limit (properties d)), d)).

(** [Math.min(...xs)] and [Math.max(...xs)]; [None] stands for the
    infinity that is the answer for no numbers at all. *)
Fixpoint mathMin (xs : list Q) : option Q :=
  match xs with
  | [] => None
  | x :: rest =>
      match mathMin rest with
      | None => Some x
      | Some m => Some (if ltb m x then m else x)
      end
  end.

Fixpoint mathMax (xs : list Q) : option Q :=
  match xs with
  | [] => None
  | x :: rest =>
      match mathMax rest with
      | None => Some x
      | Some m => Some (if ltb x m then m else x)
      end
  end.

(** [[...new Set(xs)]]: the texts of [xs] without repetitions, each at the
    place where it comes first; [seen] are those before. *)
Fixpoint unique (seen xs : list string) : list string :=
  match xs with
  | [] => []
  | x :: rest =>
      if existsb (String.eqb x) seen then unique seen rest
      else x :: unique (seen ++ [x]) rest
  end.

(** [ValidationResults] *)
Record ValidationResults := {
  totalProperties : Z;
  sampleSize : Z;
  priceRange : option Q * option Q;
  propertyTypes : list string;
  bedroomRange : option Q * option Q;
  isValid : bool;
  errors : list string
}.

Definition validateGeneration : M ValidationResults :=
  totalProperties <- Inserter.getPropertyCount ;;
  if (totalProperties =? 0)%Z then
    ret {| totalProperties := 0; sampleSize := 0;
           priceRange := (Some 0, Some 0); propertyTypes := [];
           bedroomRange := (Some 0, Some 0); isValid := false;
           errors := ["No properties found in database"%string] |}
  else
    sampleProperties <- getSampleProperties 20 ;;
    let prices := map price sampleProperties in
    let bedrooms := map bedrooms sampleProperties in
    let propertyTypes := unique [] (map propertyType sampleProperties) in
    ret {| totalProperties := totalProperties;
           sampleSize := Z.of_nat (List.length sampleProperties);
           priceRange := (mathMin prices, mathMax prices);
           propertyTypes := propertyTypes;
           bedroomRange := (mathMin bedrooms, mathMax bedrooms);
           isValid := true;
           errors := [] |}.

End Validation.

(** ** The vocabulary of the properties *)

(** The number of stored records with the identifier [z]. *)
Definition zpidCount (z : string) (d : Db) : nat :=
  List.length (filter (fun r => String.eqb (Prisma.zpid r) z) (properties d)).

(** [x] is a whole number. *)
Definition integral (x : Q) : Prop := exists z : Z, x == inject_Z z.

(** [x] lies outside the closed interval from [lo] to [hi]. *)
Definition outside (lo hi x : Q) : Prop := x < lo \/ hi < x.

(** The records that validation has to turn away, for the year
    [currentYear]: a required property is missing, or a value is out of its
    range. *)
Definition mustBeRejected (currentYear : Q) (p : GeneratedProperty) : Prop :=
  (zpid p = None \/ address p = None \/ zipCode p = None \/
   latitude p = None \/ longitude p = None \/ bedrooms p = None \/
   bathrooms p = None \/ sqft p = None \/ yearBuilt p = None \/
   propertyType p = None \/ price p = None)
  \/ (exists v, bedrooms p = Some v /\ (v <= 0 \/ ~ integral v))
  \/ (exists v, sqft p = Some v /\ (v <= 0 \/ ~ integral v))
  \/ (exists v, price p = Some v /\ (v <= 0 \/ ~ integral v))
  \/ (exists v, bathrooms p = Some v /\ v <= 0)
  \/ (exists v, yearBuilt p = Some v /\ outside 1800 currentYear v)
  \/ (exists v, latitude p = Some v /\ outside 37.8 37.9 v)
  \/ (exists v, longitude p = Some v /\ outside (-122.3) (-122.2) v).

(** [w'] differs from [w] in the store, and in the number of calls made to
    it, at most. *)
Definition storeOnly (w w' : World) : Prop :=
  env w' = env w /\ apiCalls w' = apiCalls w /\
  randomCalls w' = randomCalls w /\ progress w' = progress w /\
  trace w' = trace w.

(** The photo rows written for the photos [photos] of a record, the first of
    which has the index [i] in the array. *)
Fixpoint photoRowsFrom (propertyId : Z) (z : string) (i : nat)
    (photos : list Photo) : list Prisma.PropertyPhoto :=
  match photos with
  | [] => []
  | photo :: rest =>
      Inserter.photoRow propertyId z i photo
      :: photoRowsFrom propertyId z (S i) rest
  end.

(** A multiple of a half. *)
Definition halves (x : Q) : Prop := exists k : Z, x == inject_Z k * 0.5.

(** A planned request: its bedroom count is one of 2, 3, 4 and 5, and its
    bathroom count is derived from it with one of the random values. *)
Definition planned (e : Environment) (req : PropertyGenerationRequest)
  : Prop :=
  (req_bedrooms req = 2 \/ req_bedrooms req = 3 \/
   req_bedrooms req = 4 \/ req_bedrooms req = 5) /\
  exists k : nat,
    req_bathrooms req
    = Generator.deriveBathrooms (req_bedrooms req) (random e k).

(** The batches handed to the completion endpoint, in order. *)
Fixpoint batchesSent (t : list Event)
  : list (list PropertyGenerationRequest) :=
  match t with
  | [] => []
  | ApiCall batch :: rest => batch :: batchesSent rest
  | _ :: rest => batchesSent rest
  end.

(** The batch of the round [j] of [generatePropertyBatch], counted
    from 0. *)
Definition batchOf (requests : list PropertyGenerationRequest)
    (batchSize : Z) (j : nat) : list PropertyGenerationRequest :=
  JsNumber.slice requests (Z.of_nat j * batchSize)
    (Z.of_nat j * batchSize + batchSize).

(** The number of rounds of the loop of [generatePropertyBatch] that are
    left at the index [i], for [n] requests. *)
Definition rounds (n batchSize i : Z) : nat :=
  Z.to_nat (JsNumber.ceilDiv (n - i) batchSize).

(** What one round of [generatePropertyBatch] does with the batch [batch]
    when the endpoint answers [reply]: the wait of the limiter, the call,
    and the pause of one second unless the call was rejected. *)
Definition roundEvents (batch : list PropertyGenerationRequest)
    (reply : ApiReply) : list Event :=
  [RateLimit; ApiCall batch]
  ++ match reply with
     | ApiError => []
     | ApiMessage _ => [Pause 1000]
     end.

(** The records one round adds to the results. *)
Definition roundRecords
    (decode : JsString.jsstring -> option (list GeneratedProperty))
    (reply : ApiReply) : list GeneratedProperty :=
  match reply with
  | ApiMessage (Some (c :: content)) =>
      match decode (Fence.stripFences (c :: content)) with
      | Some properties => properties
      | None => []
      end
  | _ => []
  end.

(** The world after [calls] more calls of the endpoint and the events
    [events]. *)
Definition afterCalls (w : World) (calls : nat) (events : list Event)
  : World :=
  {| env := env w; db := db w; dbCalls := dbCalls w;
     apiCalls := apiCalls w + calls; randomCalls := randomCalls w;
     progress := progress w; trace := trace w ++ events |}.

(** The counters of a run are in order: no more records inserted than
    generated. *)
Definition countersInOrder (g : GenerationProgress) : Prop :=
  (totalInserted g <= totalGenerated g)%Z.

(** The run may go on after the look at the store: the store is empty, or
    the operator answers [y]. *)
Definition mayProceed (w : World) : Prop :=
  properties (db w) = [] \/
  Orchestrator.confirmed (promptAnswer (env w)) = true.

(** What becomes of each record of a list when the records are handed to
    [insertSingleProperty] one after the other, each in the world the one
    before has left: [true] for a record that was inserted. *)
Fixpoint attempts (propertiesData : list GeneratedProperty) (w : World)
  : list bool * World :=
  match propertiesData with
  | [] => ([], w)
  | propData :: rest =>
      let (r, w1) := Inserter.insertSingleProperty propData w in
      let (l, w2) := attempts rest w1 in
      (match r with Returned true => true | _ => false end :: l, w2)
  end.

(** *** The store *)

(** The tables fit together: no identifier and no key twice, the keys below
    the next one, at most one listing and one feature set for a property,
    and no row of a dependent table without its property. *)
Definition storeConsistent (d : Db) : Prop :=
  NoDup (map Prisma.zpid (properties d)) /\
  NoDup (map Prisma.id (properties d)) /\
  (forall r, In r (properties d) -> (Prisma.id r < nextId d)%Z) /\
  NoDup (map Prisma.listing_propertyId (listings d)) /\
  NoDup (map Prisma.features_propertyId (propertyFeatures d)) /\
  (forall l, In l (listings d) ->
     In (Prisma.listing_propertyId l) (map Prisma.id (properties d))) /\
  (forall f, In f (propertyFeatures d) ->
     In (Prisma.features_propertyId f) (map Prisma.id (properties d))) /\
  (forall ph, In ph (propertyPhotos d) ->
     In (Prisma.propertyId ph) (map Prisma.id (properties d))).

(** The store is never at fault in the world [w]. *)
Definition storeReliable (w : World) : Prop :=
  forall k : nat, dbFault (env w) k = false.

(** The stored number [s] stands for the optional number [given] of the
    record, with [d] in the place of a number that is missing or 0. *)
Definition orDefault (given : option Q) (d s : Q) : Prop :=
  (forall g, given = Some g -> ~ g == 0 -> s = g) /\
  (given = None \/ (exists g, given = Some g /\ g == 0) -> s = d).

(** *** The plan *)

(** The [totalWeight] of [weightedRandom]. *)
Definition sumWeights {T : Type} (weight : T -> Q) (items : list T) : Q :=
  fold_left (fun sum item => sum + weight item) items 0.

(** The ranges of price and of living area that go with a type. *)
Definition rangesOf (t : PropertyType) : (Q * Q) * (Q * Q) :=
  match t with
  | single_family => ((1400000, 2500000), (1800, 3500))
  | condo => ((800000, 1200000), (900, 1800))
  | townhouse => ((1200000, 1800000), (1400, 2400))
  end.

(** The type, the bedroom count and the bathroom count that the three
    random numbers [r0], [r1] and [r2] give a request. *)
Definition typeDrawn (r0 : Q) : PropertyType :=
  if JsNumber.leb r0 0.7 then single_family
  else if JsNumber.leb r0 0.9 then condo
  else townhouse.

Definition bedroomsDrawn (r1 : Q) : Q :=
  if JsNumber.leb r1 0.2 then 2
  else if JsNumber.leb r1 0.6 then 3
  else if JsNumber.leb r1 0.9 then 4
  else 5.

(** The request with the number [i] of a plan that starts at the random
    number [n]. *)
Definition requestDrawn (e : Environment) (n i : nat)
  : PropertyGenerationRequest :=
  {| req_propertyType := typeDrawn (random e (n + 3 * i));
     priceRange := fst (rangesOf (typeDrawn (random e (n + 3 * i))));
     req_bedrooms := bedroomsDrawn (random e (n + 3 * i + 1));
     req_bathrooms :=
       Generator.deriveBathrooms (bedroomsDrawn (random e (n + 3 * i + 1)))
         (random e (n + 3 * i + 2));
     sqftRange := snd (rangesOf (typeDrawn (random e (n + 3 * i))));
     yearBuiltRange := (1920, 2020) |}.

(** *** The run *)

(** A batch of a run with the batch size [b]: it is not empty, and it has
    at most [b] requests and at most the 50 of a chunk. *)
Definition batchInBounds (b : Z) (batch : list PropertyGenerationRequest)
  : Prop :=
  (0 < List.length batch <= Nat.min (Z.to_nat b) 50)%nat.

(** The run has its credential. *)
Definition hasCredential (w : World) : Prop :=
  exists key, apiKey (env w) = Some key /\ key <> ""%string.

(** The requests of the chunk [chunkIdx] of a run. *)
Definition chunkOf (requests : list PropertyGenerationRequest) (chunkIdx : Z)
  : list PropertyGenerationRequest :=
  JsNumber.slice requests (chunkIdx * Orchestrator.chunkSize)
    (Z.min (chunkIdx * Orchestrator.chunkSize + Orchestrator.chunkSize)
       (Z.of_nat (List.length requests))).

(** The chunks whose raw data was written, in order. *)
Fixpoint savedChunks (t : list Event) : list Z :=
  match t with
  | [] => []
  | SaveRaw chunkIdx _ :: rest => chunkIdx :: savedChunks rest
  | _ :: rest => savedChunks rest
  end.

(** *** The clock *)

(** The clock does not go back, and a timer does not fire before its time:
    each reading is at least the reading before, plus the wait that was made
    in between. *)
Definition timersOnTime (clock : RateLimiter.Readings)
    (o : RateLimiter.Outcome) : Prop :=
  let afterFirst :=
    match RateLimiter.waitForReset o with
    | Some ms => RateLimiter.afterWait clock
    | None => RateLimiter.atStart clock
    end in
  match RateLimiter.waitForReset o with
  | Some ms => RateLimiter.atStart clock + ms <= RateLimiter.afterWait clock
  | None => True
  end /\
  match RateLimiter.waitForSpacing o with
  | Some ms => afterFirst + ms <= RateLimiter.atEnd clock
  | None => afterFirst <= RateLimiter.atEnd clock
  end.

(** *** The report *)

(** The numbers [lo] and [hi] are the least and the greatest of [xs]. *)
Definition spans (lo hi : Q) (xs : list Q) : Prop :=
  (forall x, In x xs -> lo <= x <= hi) /\ In lo xs /\ In hi xs.

(** ** Sample data *)

Definition samplePhotos : list Photo :=
  [ {| caption := Some "Craftsman front porch"; roomType := Some "Exterior";
       isPrimary := None; sortOrder := None |};
    {| caption := Some "Remodelled kitchen"; roomType := Some "Kitchen";
       isPrimary := None; sortOrder := Some 7 |};
    {| caption := Some "Garden"; roomType := Some "Yard";
       isPrimary := Some true; sortOrder := None |} ]%string.

Definition sampleProperty : GeneratedProperty :=
  {| zpid := Some "10000001"; address := Some "5421 College Ave";
     zipCode := Some "94618"; latitude := Some 37.845;
     longitude := Some (-122.252); bedrooms := Some 3;
     bathrooms := Some 2.5; sqft := Some 1850; lotSizeSqft := Some 4200;
     yearBuilt := Some 1924; propertyType := Some "single_family";
     stories := Some 2; garageSpaces := None; parkingSpaces := None;
     price := Some 1650000; pricePerSqft := None; hoaFee := None;
     propertyTax := None; status := Some "For Sale"; listingType := None;
     listing := None; features := None; photos := Some samplePhotos |}%string.

(** The sample record with another year of construction. *)
Definition builtIn (year : Q) : GeneratedProperty :=
  {| zpid := Some "10000002"; address := Some "5421 College Ave";
     zipCode := Some "94618"; latitude := Some 37.845;
     longitude := Some (-122.252); bedrooms := Some 3;
     bathrooms := Some 2.5; sqft := Some 1850; lotSizeSqft := Some 4200;
     yearBuilt := Some year; propertyType := Some "single_family";
     stories := Some 2; garageSpaces := None; parkingSpaces := None;
     price := Some 1650000; pricePerSqft := None; hoaFee := None;
     propertyTax := None; status := Some "For Sale"; listingType := None;
     listing := None; features := None; photos := None |}%string.

Definition sampleRequest (bedrooms : Q) : PropertyGenerationRequest :=
  {| req_propertyType := condo; priceRange := (800000, 1200000);
     req_bedrooms := bedrooms; req_bathrooms := bedrooms;
     sqftRange := (900, 1800); yearBuiltRange := (1920, 2020) |}.

Definition threeRequests : list PropertyGenerationRequest :=
  [sampleRequest 2; sampleRequest 3; sampleRequest 4].

Definition fiveRequests : list PropertyGenerationRequest :=
  [sampleRequest 1; sampleRequest 2; sampleRequest 3; sampleRequest 4;
   sampleRequest 5].

Definition emptyDb : Db :=
  {| properties := []; listings := []; propertyFeatures := [];
     propertyPhotos := []; nextId := 1 |}.

Definition noProgress : GenerationProgress :=
  {| totalRequested := 0; totalGenerated := 0; totalInserted := 0;
     currentChunk := 0; totalChunks := 0; failedBatches := [] |}.

(** The world at the start of a run against an empty store. *)
Definition initialWorld (e : Environment) : World :=
  {| env := e; db := emptyDb; dbCalls := 0; apiCalls := 0; randomCalls := 0;
     progress := noProgress; trace := [] |}.

(** An outside in which the store never fails, the endpoint is down and the
    random source is stuck at 0. *)
Definition quiet : Environment :=
  {| apiKey := Some "sk-sample"%string; dbFault := fun _ => false;
     apiReply := fun _ => ApiError; random := fun _ => 0;
     promptAnswer := None |}.

(** An operator who answers [n] at the prompt. *)
Definition declining : Environment :=
  {| apiKey := Some "sk-sample"%string; dbFault := fun _ => false;
     apiReply := fun _ => ApiError; random := fun _ => 0;
     promptAnswer := Some "n"%string |}.

(** A store that holds the sample record already. *)
Definition stockedWorld (e : Environment) : World :=
  {| env := e;
     db := db (snd (Inserter.insertSingleProperty sampleProperty
                      (initialWorld quiet)));
     dbCalls := 0; apiCalls := 0; randomCalls := 0;
     progress := noProgress; trace := [] |}.

(** An endpoint that answers every call with the same text, which is read
    as two records, however many were asked for. *)
Definition generous : Environment :=
  {| apiKey := Some "sk-sample"%string; dbFault := fun _ => false;
     apiReply := fun _ => ApiMessage (Some (JsString.lit "{}"));
     random := fun _ => 0; promptAnswer := None |}.

Definition twoRecords (text : JsString.jsstring)
  : option (list GeneratedProperty) :=
  Some [sampleProperty; builtIn 1990].

(** A record with a listing and a feature set in which the original price
    and the walkability score are 0. *)
Definition zeroScores : GeneratedProperty :=
  {| zpid := Some "10000003"; address := Some "6012 Chabot Rd";
     zipCode := Some "94618"; latitude := Some 37.85;
     longitude := Some (-122.24); bedrooms := Some 2;
     bathrooms := Some 1.5; sqft := Some 1100; lotSizeSqft := None;
     yearBuilt := Some 1962; propertyType := Some "condo";
     stories := None; garageSpaces := None; parkingSpaces := None;
     price := Some 950000; pricePerSqft := None; hoaFee := None;
     propertyTax := None; status := None; listingType := None;
     listing :=
       Some {| listDate := "2024-05-01"; daysOnMarket := None;
               description := None; keyFeatures := None; agentName := None;
               agentPhone := None; agentEmail := None; brokerage := None;
               openHouseDates := None; tourAvailable := None;
               virtualTourUrl := None; originalPrice := Some 0;
               priceChanges := None |};
     features :=
       Some {| flooringTypes := None; kitchenFeatures := None;
               bathroomFeatures := None; fireplace := None;
               fireplaceCount := None; laundryFeatures := None;
               cooling := None; heating := None; yardFeatures := None;
               pool := None; spa := None; garageType := None;
               securityFeatures := None; accessibilityFeatures := None;
               greenFeatures := None; schoolDistrict := None;
               walkabilityScore := Some 0; transitScore := Some 92;
               bikeScore := None |};
     photos := None |}%string.

(** A call 100 ms after the generator was made, which returns 1100 ms
    later. *)
Definition earlyCall : RateLimiter.Readings :=
  {| RateLimiter.atStart := 100; RateLimiter.afterWait := 100;
     RateLimiter.atEnd := 1200 |}.

(* ================================================================== *)
(** * Properties *)
(* ================================================================== *)

(** ** Fence stripping *)

Section FenceFacts.
Import JsString Fence.

Lemma jsstring_eqb_eq (a b : jsstring) : eqb a b = true <-> a = b.
Proof.
  revert b; induction a as [|x a IH]; intros [|y b]; simpl;
    try (split; [discriminate | congruence]); try tauto.
  rewrite andb_true_iff, N.eqb_eq, IH. split.
  - intros [-> ->]; reflexivity.
  - intros E; injection E; auto.
Qed.

Lemma trimStart_white (w s : jsstring) :
  allWhite w -> trimStart (w ++ s) = trimStart s.
Proof.
  unfold allWhite. induction w as [|c w IH]; simpl; [reflexivity|].
  rewrite andb_true_iff. intros [Hc Hw]. rewrite Hc. auto.
Qed.

Lemma trimStart_idem (s : jsstring) : trimStart (trimStart s) = trimStart s.
Proof.
  induction s as [|c s IH]; simpl; [reflexivity|].
  destruct (isWhiteSpace c) eqn:E; [assumption|]. simpl. now rewrite E.
Qed.

(** The text splits into the white space dropped in front and the rest. *)
Lemma trimStart_split (s : jsstring) :
  exists w, allWhite w /\ s = w ++ trimStart s.
Proof.
  induction s as [|c s [w [Hw E]]]; simpl.
  - exists []. split; reflexivity.
  - destruct (isWhiteSpace c) eqn:Hc.
    + exists (c :: w). split.
      * unfold allWhite in *. simpl. now rewrite Hc.
      * simpl. now rewrite <- E.
    + exists []. split; reflexivity.
Qed.

Lemma trimEnd_split (s : jsstring) :
  exists w, allWhite w /\ s = trimEnd s ++ w.
Proof.
  induction s as [|c s [w [Hw E]]]; simpl.
  - exists []. split; reflexivity.
  - destruct (trimEnd s) as [|d r] eqn:Hr.
    + simpl in E. destruct (isWhiteSpace c) eqn:Hc.
      * exists (c :: w). split; [|now rewrite <- E].
        unfold allWhite in *. simpl. now rewrite Hc.
      * exists w. split; [assumption|]. simpl. now rewrite <- E.
    + exists w. split; [assumption|]. simpl. now rewrite E at 1.
Qed.

Lemma trimEnd_idem (s : jsstring) : trimEnd (trimEnd s) = trimEnd s.
Proof.
  induction s as [|c s IH]; simpl; [reflexivity|].
  destruct (trimEnd s) as [|d r] eqn:Hr.
  - destruct (isWhiteSpace c) eqn:Hc; simpl; [reflexivity|]. now rewrite Hc.
  - simpl in *. rewrite IH. reflexivity.
Qed.

(** Trimming the end keeps the first code unit of a text that starts with
    something else than white space. *)
Lemma trimStart_trimEnd (s : jsstring) :
  trimStart s = s -> trimStart (trimEnd s) = trimEnd s.
Proof.
  destruct s as [|c s]; simpl; [reflexivity|].
  destruct (isWhiteSpace c) eqn:Hc.
  - intros E. exfalso.
    destruct (trimStart_split s) as [w [_ Hs]].
    apply (f_equal (@List.length N)) in E. rewrite Hs in E at 2.
    simpl in E. rewrite length_app in E. lia.
  - intros _. destruct (trimEnd s); simpl; now rewrite Hc.
Qed.

Lemma trim_trimStart (s : jsstring) : trimStart (trim s) = trim s.
Proof. apply trimStart_trimEnd, trimStart_idem. Qed.

Lemma trim_trimEnd (s : jsstring) : trimEnd (trim s) = trim s.
Proof. apply trimEnd_idem. Qed.

Lemma trim_idem (s : jsstring) : trim (trim s) = trim s.
Proof.
  unfold trim at 1. rewrite trim_trimStart. apply trim_trimEnd.
Qed.

(** A text with a code unit that is no white space keeps it, and all that
    follows, when its start is trimmed. *)
Lemma trimStart_app_longer (u x : jsstring) :
  trimEnd u = u -> u <> [] ->
  (List.length x < List.length (trimStart (u ++ x)))%nat.
Proof.
  induction u as [|c u IH]; [congruence|]. intros E _. simpl in *.
  destruct (isWhiteSpace c) eqn:Hc.
  - destruct (trimEnd u) as [|d r] eqn:Hr; [discriminate|].
    injection E as E. apply IH; [assumption|]. rewrite <- E. discriminate.
  - simpl. rewrite length_app. lia.
Qed.

Lemma matchesClosing_fence (w : jsstring) :
  allWhite w -> matchesClosing (w ++ fence) = true.
Proof.
  intros Hw. unfold matchesClosing. rewrite trimStart_white by assumption.
  reflexivity.
Qed.

Lemma replaceClosing_eq (s : jsstring) :
  replaceClosing s =
  if matchesClosing s then []
  else match s with
       | [] => []
       | c :: s' => c :: replaceClosing s'
       end.
Proof. destruct s; reflexivity. Qed.

(** The closing pattern takes the white space before the last fence and the
    fence, and nothing of a text that does not end in white space. *)
Lemma replaceClosing_app (u w : jsstring) :
  trimEnd u = u -> allWhite w -> replaceClosing (u ++ w ++ fence) = u.
Proof.
  intros E Hw. induction u as [|c u IH].
  - simpl app. rewrite replaceClosing_eq, (matchesClosing_fence w Hw).
    reflexivity.
  - assert (Hm : matchesClosing ((c :: u) ++ w ++ fence) = false).
    { unfold matchesClosing. apply not_true_is_false. intros H.
      apply jsstring_eqb_eq in H.
      assert (L := @trimStart_app_longer (c :: u) (w ++ fence) E).
      rewrite H in L. rewrite length_app in L. simpl in L.
      specialize (L ltac:(discriminate)). lia. }
    rewrite replaceClosing_eq, Hm. simpl app. cbv iota. f_equal. apply IH.
    simpl in E. destruct (trimEnd u) as [|d r] eqn:Hr.
    + destruct (isWhiteSpace c); [discriminate|]. now injection E as <-.
    + now injection E.
Qed.

Lemma trimEnd_app_fence (s : jsstring) : trimEnd (s ++ fence) = s ++ fence.
Proof.
  induction s as [|c s IH]; [reflexivity|].
  simpl. rewrite IH. destruct (s ++ fence) eqn:E; [|reflexivity].
  destruct s; discriminate.
Qed.

Lemma startsWith_app (p s : jsstring) : startsWith (p ++ s) p = true.
Proof.
  induction p as [|c p IH]; simpl; [reflexivity|].
  now rewrite N.eqb_refl.
Qed.

Lemma startsWith_prefix (s p q : jsstring) :
  startsWith s (p ++ q) = true -> startsWith s p = true.
Proof.
  revert s; induction p as [|c p IH]; intros s; simpl; [reflexivity|].
  destruct s as [|x s]; [discriminate|].
  rewrite !andb_true_iff. intros [H1 H2]. split; [assumption|]. now apply IH.
Qed.

(** What is left of [t], a line feed and the closing fence once the opening
    fence and the white space after it are gone: the trimmed text is back
    after the closing pattern is applied. *)
Lemma replaceClosing_body (t : jsstring) :
  replaceClosing (trimStart ([10%N] ++ t ++ [10%N] ++ fence)) = trim t.
Proof.
  change (trimStart ([10%N] ++ t ++ [10%N] ++ fence))
    with (trimStart (t ++ [10%N] ++ fence)).
  destruct (trimStart_split t) as [w1 [Hw1 E1]].
  destruct (trimEnd_split (trimStart t)) as [w2 [Hw2 E2]].
  fold (trim t) in E2.
  assert (Hs := trim_trimStart t). assert (He := trim_trimEnd t).
  assert (Hw : allWhite (w2 ++ [10%N])).
  { unfold allWhite in *. rewrite forallb_app, Hw2. reflexivity. }
  assert (E : trimStart (t ++ [10%N] ++ fence)
              = trimStart (trim t ++ (w2 ++ [10%N]) ++ fence)).
  { rewrite E1 at 1. rewrite <- app_assoc, (trimStart_white w1 _ Hw1).
    rewrite E2 at 1. now rewrite <- !app_assoc. }
  rewrite E. clear E E1 E2. destruct (trim t) as [|c r].
  - simpl app. rewrite (trimStart_white _ _ Hw). reflexivity.
  - replace (trimStart ((c :: r) ++ (w2 ++ [10%N]) ++ fence))
      with ((c :: r) ++ (w2 ++ [10%N]) ++ fence).
    + apply replaceClosing_app; assumption.
    + simpl in *. destruct (isWhiteSpace c) eqn:Hc; [|reflexivity].
      exfalso. destruct (trimStart_split r) as [w [_ Hr]].
      apply (f_equal (@List.length N)) in Hs. rewrite Hr in Hs at 2.
      simpl in Hs. rewrite length_app in Hs. lia.
Qed.

Lemma stripFences_wrapJson (t : jsstring) : stripFences (wrapJson t) = trim t.
Proof.
  unfold stripFences, wrapJson.
  assert (Ht : trim (lit "```json" ++ [10%N] ++ t ++ [10%N] ++ lit "```")
               = lit "```json" ++ [10%N] ++ t ++ [10%N] ++ lit "```").
  { unfold trim. change (trimStart (lit "```json" ++ ?x)) with (lit "```json" ++ x).
    rewrite !app_assoc. apply trimEnd_app_fence. }
  rewrite Ht. cbv zeta.
  change (startsWith (lit "```json" ++ ?x) fenceJson) with true. cbv iota.
  unfold replaceOpening.
  change (startsWith (lit "```json" ++ ?x) fenceJson) with true. cbv iota.
  change (skipn (List.length fenceJson) (lit "```json" ++ ?x)) with x.
  apply replaceClosing_body.
Qed.

Lemma stripFences_wrapPlain (t : jsstring) : stripFences (wrapPlain t) = trim t.
Proof.
  unfold stripFences, wrapPlain.
  assert (Ht : trim (lit "```" ++ [10%N] ++ t ++ [10%N] ++ lit "```")
               = lit "```" ++ [10%N] ++ t ++ [10%N] ++ lit "```").
  { unfold trim. change (trimStart (lit "```" ++ ?x)) with (lit "```" ++ x).
    rewrite !app_assoc. apply trimEnd_app_fence. }
  rewrite Ht. cbv zeta.
  change (startsWith (lit "```" ++ [10%N] ++ ?x) fenceJson) with false. cbv iota.
  change (startsWith (lit "```" ++ ?x) fence) with true. cbv iota.
  unfold replaceOpening.
  change (startsWith (lit "```" ++ ?x) fence) with true. cbv iota.
  change (skipn (List.length fence) (lit "```" ++ ?x)) with x.
  apply replaceClosing_body.
Qed.

Lemma stripFences_bare (t : jsstring) :
  startsWith (trim t) fence = false -> stripFences t = trim t.
Proof.
  intros H. unfold stripFences. cbv zeta. rewrite H.
  destruct (startsWith (trim t) fenceJson) eqn:E; [|reflexivity].
  change fenceJson with (fence ++ lit "json") in E.
  apply startsWith_prefix in E. congruence.
Qed.

(** C3, as the code has it.  For a text [t] that does not begin with a
    fence once trimmed (no JSON text does: a JSON value begins with a brace,
    a bracket, a quote, a digit, a minus sign or a letter), the text handed
    to the parser is the same for [t] in a [```json] block, for [t] in a
    plain block and for [t] alone: it is [t] without the white space around
    it.  Hence whatever reads that text gives the same value in the three
    cases; and a bare text that has no white space around it reaches the
    parser as it is. *)
Theorem fences_stripped_to_same_text (t : jsstring) :
  startsWith (trim t) fence = false ->
  stripFences (wrapJson t) = trim t /\
  stripFences (wrapPlain t) = trim t /\
  stripFences t = trim t /\
  (forall (J : Type) (parse : jsstring -> J),
     parse (stripFences (wrapJson t)) = parse (stripFences t) /\
     parse (stripFences (wrapPlain t)) = parse (stripFences t)) /\
  (trim t = t -> stripFences t = t).
Proof.
  intros H.
  pose proof (stripFences_wrapJson t) as E1.
  pose proof (stripFences_wrapPlain t) as E2.
  pose proof (stripFences_bare t H) as E3.
  repeat split; try assumption.
  - now rewrite E1, E3.
  - now rewrite E2, E3.
  - intros Ht. now rewrite E3.
Qed.

Lemma fences_stripped_to_same_text_witness :
  stripFences (wrapJson (lit "  {} ")) = lit "{}" /\
  stripFences (wrapPlain (lit "  {} ")) = lit "{}" /\
  stripFences (lit "  {} ") = lit "{}".
Proof.
  destruct (fences_stripped_to_same_text (lit "  {} ") eq_refl)
    as (E1 & E2 & E3 & _).
  rewrite E1, E2, E3. repeat split.
Defined.

(** A bare JSON text that ends in a line feed does not reach the parser
    unchanged: the line feed is trimmed away. *)
Lemma bare_text_is_trimmed :
  startsWith (trim (lit "{}" ++ [10%N])) fence = false /\
  stripFences (lit "{}" ++ [10%N]) = lit "{}" /\
  stripFences (lit "{}" ++ [10%N]) <> lit "{}" ++ [10%N].
Proof.
  split; [reflexivity|]. split; [reflexivity|]. discriminate.
Qed.

End FenceFacts.

(** ** Validation and insertion *)

Section InserterFacts.
Import JsNumber Inserter.

Lemma leb_iff (x y : Q) : leb x y = true <-> x <= y.
Proof. apply Qle_bool_iff. Qed.

Lemma ltb_iff (x y : Q) : ltb x y = true <-> x < y.
Proof.
  unfold ltb. rewrite negb_true_iff, <- not_true_iff_false, Qle_bool_iff.
  split; [apply Qnot_le_lt | apply Qlt_not_le].
Qed.

Lemma leb_false_iff (x y : Q) : leb x y = false <-> y < x.
Proof.
  unfold leb. rewrite <- not_true_iff_false, Qle_bool_iff.
  split; [apply Qnot_le_lt | apply Qlt_not_le].
Qed.

Lemma ltb_false_iff (x y : Q) : ltb x y = false <-> y <= x.
Proof.
  unfold ltb. rewrite negb_false_iff. apply Qle_bool_iff.
Qed.

Lemma isInteger_iff (x : Q) : isInteger x = true <-> integral x.
Proof.
  unfold isInteger, integral. rewrite Qeq_bool_iff. split.
  - intros H. exists (Qfloor x). exact H.
  - intros [z H]. rewrite (Qfloor_comp _ _ H), Qfloor_Z. exact H.
Qed.

(** The range checks pass exactly for the values in range. *)
Lemma rangesValid_iff (bd ba sq pr yb lat lon : Q) :
  rangesValid bd ba sq pr yb lat lon = true <->
  (0 < bd /\ integral bd) /\ 0 < ba /\ (0 < sq /\ integral sq) /\
  (0 < pr /\ integral pr) /\ (1800 <= yb /\ yb <= 2024) /\
  (37.8 <= lat /\ lat <= 37.9) /\ (-122.3 <= lon /\ lon <= -122.2).
Proof.
  unfold rangesValid.
  rewrite <- !isInteger_iff, <- !leb_false_iff, <- !ltb_false_iff.
  repeat
    match goal with
    | |- context [if ?c || _ then _ else _] =>
        destruct c; cbn [orb negb];
        [split; [discriminate | intuition congruence] | ]
    | |- context [if ?c then _ else _] =>
        destruct c; cbn [orb negb];
        [split; [discriminate | intuition congruence] | ]
    | |- context [if negb ?c then _ else _] =>
        destruct c; cbn [orb negb];
        [ | split; [discriminate | intuition congruence] ]
    end.
  intuition congruence.
Qed.

Lemma requiredFieldMissing_false (p : GeneratedProperty) :
  requiredFieldMissing p = false <->
  zpid p <> None /\ address p <> None /\ zipCode p <> None /\
  latitude p <> None /\ longitude p <> None /\ bedrooms p <> None /\
  bathrooms p <> None /\ sqft p <> None /\ yearBuilt p <> None /\
  propertyType p <> None /\ price p <> None.
Proof.
  unfold requiredFieldMissing, isNull, existsb.
  repeat
    match goal with
    | |- context [match ?o with Some _ => false | None => true end] =>
        destruct o; cbn [orb];
        [ | split; [discriminate | intuition congruence] ]
    end.
  intuition congruence.
Qed.

(** What a record that passes validation looks like. *)
Lemma validatePropertyData_true (p : GeneratedProperty) :
  validatePropertyData p = true ->
  requiredFieldMissing p = false /\
  exists bd ba sq pr yb lat lon,
    bedrooms p = Some bd /\ bathrooms p = Some ba /\ sqft p = Some sq /\
    price p = Some pr /\ yearBuilt p = Some yb /\ latitude p = Some lat /\
    longitude p = Some lon /\ rangesValid bd ba sq pr yb lat lon = true.
Proof.
  unfold validatePropertyData.
  destruct (requiredFieldMissing p); [discriminate|].
  destruct (bedrooms p) as [bd|]; [|discriminate].
  destruct (bathrooms p) as [ba|]; [|discriminate].
  destruct (sqft p) as [sq|]; [|discriminate].
  destruct (price p) as [pr|]; [|discriminate].
  destruct (yearBuilt p) as [yb|]; [|discriminate].
  destruct (latitude p) as [lat|]; [|discriminate].
  destruct (longitude p) as [lon|]; [|discriminate].
  intros H. split; [reflexivity|]. exists bd, ba, sq, pr, yb, lat, lon.
  repeat split; assumption.
Qed.

(** A record that fails validation is answered with [false], and nothing
    at all is asked of the store. *)
Lemma insertSingleProperty_invalid (p : GeneratedProperty) (w : World) :
  validatePropertyData p = false ->
  insertSingleProperty p w = (Returned false, w).
Proof.
  intros H. unfold insertSingleProperty, tryCatch. rewrite H. reflexivity.
Qed.

(** C1. A record with a required property missing, with a bedroom count,
    a square footage or a price that is not a positive whole number, with a
    bathroom count that is not positive, with a year of construction outside
    1800 .. current year, with a latitude outside 37.8 .. 37.9 or a longitude
    outside -122.3 .. -122.2 fails [validatePropertyData], and
    [insertSingleProperty] returns [false] for it without a call of the
    store: the world it leaves is the one it found.  The upper bound of the
    year in the code is the literal 2024; the current year of a run is 2024
    or later. *)
Theorem invalid_record_never_stored
    (currentYear : Q) (p : GeneratedProperty) :
  2024 <= currentYear ->
  mustBeRejected currentYear p ->
  validatePropertyData p = false /\
  forall w : World, insertSingleProperty p w = (Returned false, w).
Proof.
  intros Hyear Hbad.
  assert (Hv : validatePropertyData p = false).
  { destruct (validatePropertyData p) eqn:E; [exfalso|reflexivity].
    apply validatePropertyData_true in E.
    destruct E as [Hreq (bd & ba & sq & pr & yb & lat & lon & E)].
    destruct E as (Ebd & Eba & Esq & Epr & Eyb & Elat & Elon & R).
    apply requiredFieldMissing_false in Hreq.
    apply rangesValid_iff in R.
    destruct R as ([? ?] & ? & [? ?] & [? ?] & [? ?] & [? ?] & [? ?]).
    unfold mustBeRejected, outside in Hbad.
    destruct Hbad as [M | [B | [B | [B | [B | [B | [B | B]]]]]]].
    - intuition congruence.
    - destruct B as (v & Ev & Hv). rewrite Ebd in Ev. injection Ev as <-.
      destruct Hv; [lra | contradiction].
    - destruct B as (v & Ev & Hv). rewrite Esq in Ev. injection Ev as <-.
      destruct Hv; [lra | contradiction].
    - destruct B as (v & Ev & Hv). rewrite Epr in Ev. injection Ev as <-.
      destruct Hv; [lra | contradiction].
    - destruct B as (v & Ev & Hv). rewrite Eba in Ev. injection Ev as <-. lra.
    - destruct B as (v & Ev & Hv). rewrite Eyb in Ev. injection Ev as <-.
      destruct Hv; lra.
    - destruct B as (v & Ev & Hv). rewrite Elat in Ev. injection Ev as <-.
      destruct Hv; lra.
    - destruct B as (v & Ev & Hv). rewrite Elon in Ev. injection Ev as <-.
      destruct Hv; lra. }
  split; [assumption|]. intros w. now apply insertSingleProperty_invalid.
Qed.

Lemma storeOnly_refl (w : World) : storeOnly w w.
Proof. repeat split. Qed.

Lemma storeOnly_trans (w1 w2 w3 : World) :
  storeOnly w1 w2 -> storeOnly w2 w3 -> storeOnly w1 w3.
Proof. unfold storeOnly. intuition congruence. Qed.

(** [insertSingleProperty] always returns.  It touches nothing but the
    store; with [false] the tables are as before; with [true] the record is
    valid, its identifier was not stored, and the tables are those the
    transaction has written. *)
Lemma insertSingleProperty_returns (p : GeneratedProperty) (w : World) :
  exists (b : bool) (w' : World),
    insertSingleProperty p w = (Returned b, w') /\ storeOnly w w' /\
    (b = false -> db w' = db w) /\
    (b = true ->
       validatePropertyData p = true /\
       exists z, zpid p = Some z /\ lookupZpid z (db w) = None /\
                 createAll p (db w) = Some (db w')).
Proof.
  unfold insertSingleProperty, tryCatch, bind.
  destruct (validatePropertyData p) eqn:Hv; simpl.
  2: { exists false, w. repeat split; congruence. }
  destruct (zpid p) as [z|] eqn:Hz; simpl.
  2: { exists false, w. repeat split; congruence. }
  unfold transaction, storeCall, ret.
  destruct (dbFault (env w) (dbCalls w)); simpl.
  { eexists false, _. repeat split; congruence. }
  destruct (lookupZpid z (db w)) eqn:Hl; simpl.
  { eexists false, _. repeat split; congruence. }
  destruct (dbFault (env w) (S (dbCalls w))); simpl.
  { eexists false, _. repeat split; congruence. }
  destruct (createAll p (db w)) as [d'|] eqn:Hc; simpl.
  - eexists true, _. split; [reflexivity|]. repeat split; try congruence.
    exists z. repeat split; simpl; assumption || reflexivity.
  - eexists false, _. repeat split; congruence.
Qed.

Lemma invalid_record_never_stored_witness :
  validatePropertyData (builtIn 2027) = false /\
  forall w : World,
    insertSingleProperty (builtIn 2027) w = (Returned false, w).
Proof.
  apply (invalid_record_never_stored 2026 (builtIn 2027)).
  - unfold Qle. simpl. lia.
  - unfold mustBeRejected. do 5 right. left.
    exists 2027. split; [reflexivity|]. right. reflexivity.
Defined.

(** The bound of the year is the constant of the code, whatever the
    calendar says: built in 2025, a house is turned away. *)
Lemma built_after_2024_rejected :
  validatePropertyData (builtIn 2025) = false /\
  validatePropertyData (builtIn 2024) = true.
Proof. split; reflexivity. Qed.

(** *** What the transaction writes *)

Lemma createProperty_some (p : GeneratedProperty) (d d1 : Db)
    (row : Prisma.Property) :
  createProperty p d = Some (row, d1) ->
  zpid p = Some (Prisma.zpid row) /\ Prisma.id row = nextId d /\
  properties d1 = properties d ++ [row] /\
  propertyPhotos d1 = propertyPhotos d.
Proof.
  unfold createProperty.
  destruct (zpid p); [|discriminate].
  destruct (address p); [|discriminate].
  destruct (zipCode p); [|discriminate].
  destruct (latitude p); [|discriminate].
  destruct (longitude p); [|discriminate].
  destruct (bedrooms p); [|discriminate].
  destruct (bathrooms p); [|discriminate].
  destruct (sqft p); [|discriminate].
  destruct (yearBuilt p); [|discriminate].
  destruct (propertyType p); [|discriminate].
  destruct (price p); [|discriminate].
  destruct (lookupZpid _ d); [discriminate|].
  intros H. injection H as <- <-. repeat split.
Qed.

Lemma createPhotos_tables (pid : Z) (z : string) (ps : list Photo) :
  forall (i : nat) (d : Db),
    properties (createPhotos pid z i ps d) = properties d /\
    propertyPhotos (createPhotos pid z i ps d)
    = propertyPhotos d ++ photoRowsFrom pid z i ps.
Proof.
  induction ps as [|photo rest IH]; intros i d; simpl.
  - now rewrite app_nil_r.
  - destruct (IH (S i)
               {| properties := properties d;
                  listings := listings d;
                  propertyFeatures := propertyFeatures d;
                  propertyPhotos :=
                    propertyPhotos d ++ [photoRow pid z i photo];
                  nextId := nextId d |}) as [E1 E2].
    rewrite E1, E2. simpl. now rewrite <- app_assoc.
Qed.

(** A transaction that commits adds one row of [properties], with the
    identifier of the record, and one row of [property_photos] for each
    photo, in the order of the array. *)
Lemma createAll_some (p : GeneratedProperty) (d d' : Db) :
  createAll p d = Some d' ->
  exists row : Prisma.Property,
    zpid p = Some (Prisma.zpid row) /\
    properties d' = properties d ++ [row] /\
    propertyPhotos d'
    = propertyPhotos d
      ++ photoRowsFrom (Prisma.id row) (Prisma.zpid row) 0
           (match photos p with Some ps => ps | None => [] end).
Proof.
  unfold createAll.
  destruct (createProperty p d) as [[row d1]|] eqn:E; [|discriminate].
  apply createProperty_some in E. destruct E as (Ez & _ & Ep & Eph).
  intros H. injection H as <-. exists row. split; [assumption|].
  assert (H2 : forall d2,
             d2 = match listing p with
                  | Some l => createListing (Prisma.id row) (price p) l d1
                  | None => d1
                  end ->
             properties d2 = properties d1 /\
             propertyPhotos d2 = propertyPhotos d1).
  { intros d2 ->. destruct (listing p); split; reflexivity. }
  specialize (H2 _ eq_refl).
  set (d2 := match listing p with
             | Some l => createListing (Prisma.id row) (price p) l d1
             | None => d1
             end) in *.
  assert (H3 : forall d3,
             d3 = match features p with
                  | Some f => createFeatures (Prisma.id row) f d2
                  | None => d2
                  end ->
             properties d3 = properties d2 /\
             propertyPhotos d3 = propertyPhotos d2).
  { intros d3 ->. destruct (features p); split; reflexivity. }
  specialize (H3 _ eq_refl).
  set (d3 := match features p with
             | Some f => createFeatures (Prisma.id row) f d2
             | None => d2
             end) in *.
  destruct H2 as [A2 B2], H3 as [A3 B3].
  destruct (photos p) as [[|photo rest]|].
  - simpl. rewrite app_nil_r. split; congruence.
  - destruct (createPhotos_tables (Prisma.id row) (Prisma.zpid row) (photo :: rest)
                0 d3) as [E1 E2].
    cbn [createPhotos] in E1, E2. rewrite E1, E2. split; congruence.
  - simpl. rewrite app_nil_r. split; congruence.
Qed.

(** *** Identifiers in the store *)

Lemma zpidCount_zero (z : string) (d : Db) :
  lookupZpid z d = None -> zpidCount z d = 0%nat.
Proof.
  unfold lookupZpid, zpidCount. intros H.
  induction (properties d) as [|r l IH]; simpl in *; [reflexivity|].
  destruct (String.eqb (Prisma.zpid r) z); [discriminate|]. auto.
Qed.

Lemma lookupZpid_stored (z : string) (d : Db) :
  zpidCount z d <> 0%nat -> lookupZpid z d <> None.
Proof. intros H E. apply zpidCount_zero in E. contradiction. Qed.

Lemma zpidCount_added (z : string) (d d' : Db) (row : Prisma.Property) :
  properties d' = properties d ++ [row] -> Prisma.zpid row = z ->
  zpidCount z d' = S (zpidCount z d).
Proof.
  unfold zpidCount. intros -> <-. rewrite filter_app, length_app. simpl.
  rewrite String.eqb_refl. simpl. lia.
Qed.

(** A record whose identifier is stored is answered with [false], and the
    tables stay as they are. *)
Lemma insertSingleProperty_stored
    (p : GeneratedProperty) (z : string) (w : World) :
  zpid p = Some z -> lookupZpid z (db w) <> None ->
  exists w', insertSingleProperty p w = (Returned false, w') /\
             storeOnly w w' /\ db w' = db w.
Proof.
  intros Hz Hl.
  destruct (insertSingleProperty_returns p w) as (b & w' & E & F & Hf & Ht).
  destruct b.
  - destruct (Ht eq_refl) as (_ & z' & Hz' & Hn & _).
    rewrite Hz in Hz'. injection Hz' as <-. contradiction.
  - exists w'. auto.
Qed.

(** C2. [insertSingleProperty] answers a record whose identifier is
    already stored with [false] and leaves the tables as they are.  Hence,
    when a record has been inserted, a second record with the same
    identifier is skipped: the identifier is stored exactly once, and
    [insertProperties] on the two records returns the count 1. *)
Theorem duplicate_identifier_skipped
    (p p' : GeneratedProperty) (z : string) (w : World) :
  zpid p = Some z -> zpid p' = Some z ->
  (lookupZpid z (db w) <> None ->
   exists w', insertSingleProperty p w = (Returned false, w') /\
              db w' = db w) /\
  (forall w1, insertSingleProperty p w = (Returned true, w1) ->
     zpidCount z (db w1) = 1%nat /\
     exists w2, insertSingleProperty p' w1 = (Returned false, w2) /\
                db w2 = db w1 /\
                insertProperties [p; p'] w = (Returned 1%Z, w2)).
Proof.
  intros Hz Hz'. split.
  - intros Hl.
    destruct (insertSingleProperty_stored p z w Hz Hl) as (w' & E & _ & D).
    exists w'. auto.
  - intros w1 E1.
    destruct (insertSingleProperty_returns p w) as (b & w1' & E & _ & _ & Ht).
    rewrite E1 in E. injection E as <- <-.
    destruct (Ht eq_refl) as (_ & z0 & Hz0 & Hn & Hc).
    rewrite Hz in Hz0. injection Hz0 as <-.
    destruct (createAll_some _ _ _ Hc) as (row & Hr & Hp & _).
    rewrite Hz in Hr. injection Hr as Hr.
    assert (Hcount : zpidCount z (db w1) = 1%nat).
    { rewrite (zpidCount_added z (db w) (db w1) row Hp (eq_sym Hr)).
      now rewrite (zpidCount_zero _ _ Hn). }
    split; [assumption|].
    assert (Hl : lookupZpid z (db w1) <> None).
    { apply lookupZpid_stored. rewrite Hcount. discriminate. }
    destruct (insertSingleProperty_stored p' z w1 Hz' Hl) as (w2 & E2 & _ & D).
    exists w2. repeat split; try assumption.
    unfold insertProperties, insertLoop, bind, tryCatch.
    rewrite E1, E2. reflexivity.
Qed.

Lemma duplicate_identifier_skipped_witness :
  exists w2,
    insertProperties [sampleProperty; sampleProperty] (initialWorld quiet)
    = (Returned 1%Z, w2) /\
    zpidCount "10000001" (db w2) = 1%nat.
Proof.
  destruct (@duplicate_identifier_skipped sampleProperty sampleProperty
              "10000001" (initialWorld quiet) eq_refl eq_refl) as [_ H].
  destruct (H (snd (insertSingleProperty sampleProperty (initialWorld quiet))))
    as (Hc & w2 & _ & D & E).
  - vm_compute. reflexivity.
  - exists w2. split; [exact E|]. rewrite D. exact Hc.
Defined.

(** *** The loop over the records *)

Lemma attempts_storeOnly (ps : list GeneratedProperty) :
  forall w, storeOnly w (snd (attempts ps w)).
Proof.
  induction ps as [|p ps IH]; intros w; simpl.
  - apply storeOnly_refl.
  - destruct (insertSingleProperty_returns p w) as (b & w1 & E & F & _).
    rewrite E. specialize (IH w1).
    destruct (attempts ps w1) as [l w2]. simpl in *.
    eapply storeOnly_trans; eassumption.
Qed.

Lemma attempts_length (ps : list GeneratedProperty) :
  forall w, List.length (fst (attempts ps w)) = List.length ps.
Proof.
  induction ps as [|p ps IH]; intros w; simpl; [reflexivity|].
  destruct (insertSingleProperty p w) as [r w1]. specialize (IH w1).
  destruct (attempts ps w1) as [l w2]. simpl in *. now rewrite IH.
Qed.

Lemma insertLoop_attempts (ps : list GeneratedProperty) :
  forall (n : Z) (w : World),
    insertLoop ps n w
    = (Returned (n + Z.of_nat (count_occ bool_dec (fst (attempts ps w)) true))%Z,
       snd (attempts ps w)).
Proof.
  induction ps as [|p ps IH]; intros n w; simpl.
  - unfold ret. now rewrite Z.add_0_r.
  - unfold bind, tryCatch.
    destruct (insertSingleProperty_returns p w) as (b & w1 & E & _).
    rewrite E, IH. destruct (attempts ps w1) as [l w2]. simpl.
    destruct b; simpl; f_equal; f_equal; lia.
Qed.

(** C4. [insertProperties] hands every record of its list, in order, to
    [insertSingleProperty], whatever became of the records before it (not
    valid, already stored, store failure): it always returns, never throws,
    and the count it returns is the number of records for which
    [insertSingleProperty] returned [true]. *)
Theorem insertProperties_counts_inserted
    (ps : list GeneratedProperty) (w : World) :
  insertProperties ps w
  = (Returned (Z.of_nat (count_occ bool_dec (fst (attempts ps w)) true)),
     snd (attempts ps w)) /\
  List.length (fst (attempts ps w)) = List.length ps /\
  (forall (p : GeneratedProperty) (rest : list GeneratedProperty),
     ps = p :: rest ->
     exists b w1,
       insertSingleProperty p w = (Returned b, w1) /\
       attempts ps w = (b :: fst (attempts rest w1), snd (attempts rest w1))).
Proof.
  split; [|split].
  - unfold insertProperties. now rewrite insertLoop_attempts.
  - apply attempts_length.
  - intros p rest ->.
    destruct (insertSingleProperty_returns p w) as (b & w1 & E & _).
    exists b, w1. split; [assumption|]. simpl. rewrite E.
    destruct (attempts rest w1). now destruct b.
Qed.

(** *** The photo rows *)

Lemma photoRowsFrom_length (pid : Z) (z : string) (ps : list Photo) :
  forall i, List.length (photoRowsFrom pid z i ps) = List.length ps.
Proof. induction ps; intros i; simpl; auto. Qed.






End InserterFacts.

(** ** Planning the requests *)

Section PlannerFacts.
Import JsNumber Generator.

Lemma pick_In {T : Type} (weight : T -> Q) (items : list T) :
  forall (r : Q) (x : T), pick weight items r = Some x -> In x items.
Proof.
  induction items as [|item rest IH]; intros r x; simpl; [discriminate|].
  destruct (leb (r - weight item) 0).
  - intros H. injection H as <-. now left.
  - intros H. right. eapply IH. eassumption.
Qed.

Lemma last_Some_In {T : Type} (items : list T) (x : T) :
  last (map Some items) None = Some x -> In x items.
Proof.
  induction items as [|item rest IH]; simpl; [discriminate|].
  destruct rest as [|item' rest'].
  - simpl. intros H. injection H as <-. now left.
  - intros H. right. apply IH. exact H.
Qed.

Lemma last_Some_nonempty {T : Type} (items : list T) :
  items <> [] -> exists x, last (map Some items) None = Some x.
Proof.
  induction items as [|item rest IH]; [congruence|]. intros _.
  destruct rest as [|item' rest'].
  - now exists item.
  - apply IH. discriminate.
Qed.

(** A draw from a list that is not empty returns one of its items, after
    one use of the random source. *)
Lemma weightedRandom_returns {T : Type} (weight : T -> Q) (items : list T)
    (w : World) :
  items <> [] ->
  exists x : T,
    In x items /\
    weightedRandom weight items w
    = (Returned (Some x), set_randomCalls (S (randomCalls w)) w).
Proof.
  intros Hne. unfold weightedRandom, bind, mathRandom, ret.
  destruct (pick weight items _) as [x|] eqn:E.
  - exists x. split; [eapply pick_In; eassumption | reflexivity].
  - destruct (last_Some_nonempty items Hne) as [x Hx].
    exists x. rewrite Hx. split; [now apply last_Some_In | reflexivity].
Qed.

(** Rounding to halves: the result is a multiple of a half, and it is
    positive for a bedroom count of one or more. *)
Lemma deriveBathrooms_halves (bd r : Q) : halves (deriveBathrooms bd r).
Proof.
  unfold halves, deriveBathrooms, round.
  exists (Qfloor (bd * (0.75 + r * 0.5) * 2 + 0.5)).
  unfold Qdiv. apply Qmult_comp; reflexivity.
Qed.

Lemma deriveBathrooms_positive (bd r : Q) :
  1 <= bd -> 0 <= r -> 0 < deriveBathrooms bd r.
Proof.
  intros Hbd Hr. unfold deriveBathrooms, round.
  set (x := bd * (0.75 + r * 0.5) * 2 + 0.5).
  assert (Hx : 2 <= x) by (unfold x; nra).
  assert (Hf : (2 <= Qfloor x)%Z).
  { change 2%Z with (Qfloor 2). now apply Qfloor_resp_le. }
  assert (Hq : 2 <= inject_Z (Qfloor x)).
  { change 2 with (inject_Z 2). now rewrite <- Zle_Qle. }
  unfold Qdiv. assert (Hh : / 2 == 0.5) by reflexivity. rewrite Hh. lra.
Qed.

Lemma bedroomDist_bedrooms (x : BedroomDistribution) :
  In x bedroomDist ->
  dist_bedrooms x = 2 \/ dist_bedrooms x = 3 \/
  dist_bedrooms x = 4 \/ dist_bedrooms x = 5.
Proof.
  simpl. intros [<- | [<- | [<- | [<- | []]]]]; simpl; auto.
Qed.

Lemma createPropertyRequest_returns (w : World) :
  exists req : PropertyGenerationRequest,
    createPropertyRequest w
    = (Returned req, set_randomCalls (3 + randomCalls w) w) /\
    planned (env w) req.
Proof.
  unfold createPropertyRequest, bind.
  destruct (weightedRandom_returns type_weight propertyTypes w) as
    (t & _ & ->); [discriminate|].
  set (w1 := set_randomCalls (S (randomCalls w)) w).
  destruct (weightedRandom_returns bedrooms_weight bedroomDist w1) as
    (bd & Hbd & ->); [discriminate|].
  unfold mathRandom, ret. simpl.
  eexists. split; [reflexivity|]. split; simpl.
  - now apply bedroomDist_bedrooms.
  - eexists. reflexivity.
Qed.

Lemma createRequestsLoop_returns (count : nat) :
  forall (requests : list PropertyGenerationRequest) (w : World),
    Forall (planned (env w)) requests ->
    exists requests' w',
      createRequestsLoop count requests w = (Returned requests', w') /\
      List.length requests' = (List.length requests + count)%nat /\
      Forall (planned (env w)) requests' /\
      env w' = env w /\ db w' = db w /\ dbCalls w' = dbCalls w /\
      apiCalls w' = apiCalls w /\ progress w' = progress w /\
      trace w' = trace w.
Proof.
  induction count as [|count IH]; intros requests w HF; simpl.
  - exists requests, w. unfold ret. rewrite Nat.add_0_r. repeat split; auto.
  - unfold bind.
    destruct (createPropertyRequest_returns w) as (req & -> & Hreq).
    set (w1 := set_randomCalls (3 + randomCalls w) w).
    destruct (IH (requests ++ [req]) w1) as (rs & w' & E & L & F & Fr).
    { apply Forall_app. split; [exact HF|]. constructor; [exact Hreq|constructor]. }
    exists rs, w'. split; [exact E|]. split.
    + rewrite L, length_app. simpl. lia.
    + split; [exact F|]. exact Fr.
Qed.

(** C9. Every request that [createPropertyRequests] produces has a
    positive bedroom count, and its bathroom count, the bedroom count times
    a factor between 0.75 and 1.25 rounded to halves, is a multiple of 0.5
    and positive.  The values of [Math.random()] lie between 0 and 1. *)
Theorem planned_bathrooms_positive_halves (totalProperties : Z) (w : World) :
  (forall k : nat, 0 <= random (env w) k /\ random (env w) k < 1) ->
  exists requests w',
    createPropertyRequests totalProperties w = (Returned requests, w') /\
    List.length requests = Z.to_nat totalProperties /\
    forall req : PropertyGenerationRequest,
      In req requests ->
      0 < req_bedrooms req /\
      halves (req_bathrooms req) /\ 0 < req_bathrooms req.
Proof.
  intros Hrandom. unfold createPropertyRequests.
  destruct (createRequestsLoop_returns (Z.to_nat totalProperties) [] w)
    as (requests & w' & E & L & F & _); [constructor|].
  exists requests, w'. split; [exact E|]. split; [exact L|].
  intros req Hin. rewrite Forall_forall in F.
  destruct (F req Hin) as [Hbd [k Hba]].
  assert (H1 : 1 <= req_bedrooms req).
  { destruct Hbd as [-> | [-> | [-> | ->]]]; unfold Qle; simpl; lia. }
  split; [lra|]. rewrite Hba. split.
  - apply deriveBathrooms_halves.
  - apply deriveBathrooms_positive; [exact H1 | apply Hrandom].
Qed.

Lemma planned_bathrooms_positive_halves_witness :
  exists requests w',
    createPropertyRequests 3 (initialWorld quiet) = (Returned requests, w') /\
    List.length requests = 3%nat /\
    forall req : PropertyGenerationRequest,
      In req requests ->
      0 < req_bedrooms req /\
      halves (req_bathrooms req) /\ 0 < req_bathrooms req.
Proof.
  apply (planned_bathrooms_positive_halves 3 (initialWorld quiet)).
  intros k. simpl. split; [unfold Qle; simpl; lia | reflexivity].
Defined.

End PlannerFacts.

(** ** Generating in batches *)

Section GeneratorFacts.
Import JsNumber Generator.

Variable decode : JsString.jsstring -> option (list GeneratedProperty).

Lemma afterCalls_afterCalls (w : World) (m n : nat) (e1 e2 : list Event) :
  afterCalls (afterCalls w m e1) n e2 = afterCalls w (m + n) (e1 ++ e2).
Proof.
  unfold afterCalls. simpl. f_equal; [lia | now rewrite app_assoc].
Qed.

Lemma afterCalls_nothing (w : World) : afterCalls w 0 [] = w.
Proof.
  unfold afterCalls. destruct w. simpl. f_equal; [lia | apply app_nil_r].
Qed.

(** One round: the limiter, the call, and what comes back. *)
Lemma batch_round (batch : list PropertyGenerationRequest) (w : World) :
  tryCatch
    (enforceRateLimit ;;;
     batchResult <- generatePropertyBatchInternal decode batch ;;
     ret (Some batchResult))
    (ret None) w
  = (match apiReply (env w) (apiCalls w) with
     | ApiError => Returned None
     | ApiMessage content =>
         Returned (Some (roundRecords decode (ApiMessage content)))
     end,
     afterCalls w 1 [RateLimit; ApiCall batch]).
Proof.
  assert (Hw : forall t,
             t = (trace w ++ [RateLimit]) ++ [ApiCall batch] ->
             {| env := env w; db := db w; dbCalls := dbCalls w;
                apiCalls := S (apiCalls w); randomCalls := randomCalls w;
                progress := progress w; trace := t |}
             = afterCalls w 1 [RateLimit; ApiCall batch]).
  { intros t ->. unfold afterCalls. f_equal; [lia | now rewrite <- app_assoc]. }
  unfold tryCatch, bind, enforceRateLimit, generatePropertyBatchInternal,
    createCompletion, emit, bind, tryCatch, ret, throw.
  unfold set_apiCalls, set_trace. simpl.
  destruct (apiReply (env w) (apiCalls w)) as [|[[|c content]|]]; simpl;
    try (now rewrite Hw).
  destruct (decode (Fence.stripFences (c :: content))); simpl;
    now rewrite Hw.
Qed.

Lemma batchLoop_done (fuel : nat) (requests : list PropertyGenerationRequest)
    (b i : Z) (results : list GeneratedProperty) (w : World) :
  (Z.of_nat (List.length requests) <= i)%Z ->
  batchLoop decode (S fuel) requests b i results w = (Returned results, w).
Proof.
  intros H. simpl. apply Z.ltb_ge in H. now rewrite H.
Qed.

Lemma batchLoop_step (fuel : nat) (requests : list PropertyGenerationRequest)
    (b i : Z) (results : list GeneratedProperty) (w : World) :
  (i < Z.of_nat (List.length requests))%Z ->
  batchLoop decode (S fuel) requests b i results w
  = batchLoop decode fuel requests b (i + b)
      (results ++ roundRecords decode (apiReply (env w) (apiCalls w)))
      (afterCalls w 1
         (roundEvents (slice requests i (i + b))
            (apiReply (env w) (apiCalls w)))).
Proof.
  intros H. cbn [batchLoop]. apply Z.ltb_lt in H. rewrite H.
  unfold bind at 1. rewrite batch_round.
  destruct (apiReply (env w) (apiCalls w)) as [|content].
  - simpl roundRecords. rewrite app_nil_r. reflexivity.
  - unfold bind, sleep, emit. simpl.
    f_equal. unfold afterCalls, roundEvents. simpl. f_equal.
    now rewrite <- app_assoc.
Qed.

(** *** Counting the rounds *)

Lemma rounds_zero (n b i : Z) : (0 < b)%Z -> rounds n b i = 0%nat -> (n <= i)%Z.
Proof.
  unfold rounds, ceilDiv. intros Hb H.
  assert (Hq : ((n - i + b - 1) / b <= 0)%Z) by lia.
  destruct (Z.le_gt_cases n i) as [|Hlt]; [assumption|exfalso].
  assert (1 <= (n - i + b - 1) / b)%Z; [|lia].
  apply Z.div_le_lower_bound; lia.
Qed.

Lemma rounds_succ (n b i : Z) :
  (0 < b)%Z -> (i < n)%Z -> rounds n b i = S (rounds n b (i + b)).
Proof.
  unfold rounds, ceilDiv. intros Hb Hi.
  replace (n - (i + b) + b - 1)%Z with ((n - i + b - 1) + (-1) * b)%Z by lia.
  rewrite Z.div_add by lia.
  assert (1 <= (n - i + b - 1) / b)%Z by (apply Z.div_le_lower_bound; lia).
  lia.
Qed.

Lemma rounds_le (n b : Z) :
  (0 < b)%Z -> (0 <= n)%Z -> (rounds n b 0 <= Z.to_nat n)%nat.
Proof.
  unfold rounds, ceilDiv. intros Hb Hn. rewrite Z.sub_0_r.
  apply Z2Nat.inj_le.
  - apply Z.div_pos; lia.
  - assumption.
  - destruct (Z.eq_dec n 0) as [->|Hne].
    + rewrite Z.div_small; lia.
    + apply Z.div_le_upper_bound; nia.
Qed.

Lemma flat_map_seq_S {A : Type} (f : nat -> list A) (m : nat) :
  flat_map f (seq 0 (S m)) = f 0%nat ++ flat_map (fun j => f (S j)) (seq 0 m).
Proof.
  simpl. f_equal. rewrite <- seq_shift.
  induction (seq 0 m) as [|x l IH]; simpl; [reflexivity|]. now rewrite IH.
Qed.

(** The whole loop, from the index [i]: with fuel for its rounds it comes to
    its end, having made one call for each round. *)
Lemma batchLoop_run (requests : list PropertyGenerationRequest) (b : Z) :
  (0 < b)%Z ->
  forall (m fuel : nat) (i : Z) (results : list GeneratedProperty)
         (w : World),
    m = rounds (Z.of_nat (List.length requests)) b i ->
    (m < fuel)%nat ->
    batchLoop decode fuel requests b i results w
    = (Returned
         (results
          ++ flat_map
               (fun j => roundRecords decode
                           (apiReply (env w) (apiCalls w + j)))
               (seq 0 m)),
       afterCalls w m
         (flat_map
            (fun j =>
               roundEvents
                 (slice requests (i + Z.of_nat j * b)
                    (i + Z.of_nat j * b + b))
                 (apiReply (env w) (apiCalls w + j)))
            (seq 0 m))).
Proof.
  intros Hb. induction m as [|m IH]; intros fuel i results w Hm Hfuel.
  - destruct fuel as [|fuel]; [lia|].
    rewrite batchLoop_done by (apply (rounds_zero _ b); auto).
    simpl. now rewrite app_nil_r, afterCalls_nothing.
  - destruct fuel as [|fuel]; [lia|].
    assert (Hi : (i < Z.of_nat (List.length requests))%Z).
    { destruct (Z.lt_ge_cases i (Z.of_nat (List.length requests)));
        [assumption|exfalso].
      unfold rounds, ceilDiv in Hm.
      assert ((Z.of_nat (List.length requests) - i + b - 1) / b < 1)%Z;
        [|lia].
      apply Z.div_lt_upper_bound; lia. }
    rewrite batchLoop_step by assumption.
    rewrite (rounds_succ _ b i Hb Hi) in Hm. injection Hm as Hm.
    rewrite (IH fuel (i + b)%Z _ _ Hm) by lia.
    rewrite afterCalls_afterCalls, !flat_map_seq_S, <- app_assoc.
    cbn [afterCalls env apiCalls].
    rewrite Nat.add_0_r, Z.mul_0_l, Z.add_0_r.
    f_equal; [do 3 f_equal | change (1 + m)%nat with (S m); do 2 f_equal].
    + apply flat_map_ext. intros j. do 2 f_equal. lia.
    + apply flat_map_ext. intros j.
      replace (apiCalls w + S j)%nat with (apiCalls w + 1 + j)%nat by lia.
      replace (i + Z.of_nat (S j) * b)%Z with (i + b + Z.of_nat j * b)%Z
        by lia.
      reflexivity.
Qed.

(** [generatePropertyBatch] with fuel for its rounds. *)
Lemma generatePropertyBatch_run
    (requests : list PropertyGenerationRequest) (b : Z) (fuel : nat)
    (w : World) :
  (0 < b)%Z ->
  (rounds (Z.of_nat (List.length requests)) b 0 < fuel)%nat ->
  generatePropertyBatch decode fuel requests b w
  = (Returned
       (flat_map
          (fun j => roundRecords decode (apiReply (env w) (apiCalls w + j)))
          (seq 0 (rounds (Z.of_nat (List.length requests)) b 0))),
     afterCalls w (rounds (Z.of_nat (List.length requests)) b 0)
       (flat_map
          (fun j =>
             roundEvents (batchOf requests b j)
               (apiReply (env w) (apiCalls w + j)))
          (seq 0 (rounds (Z.of_nat (List.length requests)) b 0)))).
Proof.
  intros Hb Hfuel. unfold generatePropertyBatch.
  rewrite (batchLoop_run requests b Hb _ fuel 0%Z [] w eq_refl Hfuel).
  reflexivity.
Qed.

(** *** The batches *)

Lemma batchesSent_app (t1 t2 : list Event) :
  batchesSent (t1 ++ t2) = batchesSent t1 ++ batchesSent t2.
Proof.
  induction t1 as [|e t1 IH]; simpl; [reflexivity|].
  destruct e; simpl; now rewrite IH.
Qed.

Lemma batchesSent_rounds (batch : nat -> list PropertyGenerationRequest)
    (reply : nat -> ApiReply) (l : list nat) :
  batchesSent (flat_map (fun j => roundEvents (batch j) (reply j)) l)
  = map batch l.
Proof.
  induction l as [|j l IH]; simpl; [reflexivity|].
  rewrite batchesSent_app, IH. now destruct (reply j).
Qed.

Lemma firstn_min_length {A : Type} (k : nat) (l : list A) :
  firstn (Nat.min k (List.length l)) l = firstn k l.
Proof.
  destruct (Nat.le_ge_cases k (List.length l)).
  - now rewrite Nat.min_l.
  - rewrite Nat.min_r by assumption. now rewrite !firstn_all2 by lia.
Qed.

(** The batch of the round [j] is made of the next [b] requests after the
    [j * b] requests of the rounds before, or of those that are left. *)
Lemma batchOf_firstn_skipn (requests : list PropertyGenerationRequest)
    (b : Z) (j : nat) :
  (0 < b)%Z ->
  batchOf requests b j
  = firstn (Z.to_nat b) (skipn (j * Z.to_nat b) requests).
Proof.
  intros Hb. unfold batchOf, slice.
  set (len := Z.of_nat (List.length requests)).
  assert (H1 : (Z.of_nat j * b <? 0)%Z = false) by (apply Z.ltb_ge; nia).
  assert (H2 : (Z.of_nat j * b + b <? 0)%Z = false) by (apply Z.ltb_ge; nia).
  rewrite H1, H2.
  assert (Hj : (j * Z.to_nat b)%nat = Z.to_nat (Z.of_nat j * b)).
  { rewrite Z2Nat.inj_mul, Nat2Z.id; lia. }
  destruct (Z.le_gt_cases (Z.of_nat j * b) len) as [Hle|Hgt].
  - rewrite (Z.min_l _ _ Hle), Hj.
    rewrite <- (firstn_min_length (Z.to_nat b)). f_equal.
    rewrite length_skipn. unfold len. lia.
  - rewrite !Z.min_r by lia. rewrite Z.sub_diag. simpl firstn.
    rewrite (skipn_all2 requests) by (unfold len in Hgt; lia).
    now rewrite firstn_nil.
Qed.

Lemma firstn_add_skipn {A : Type} (a b : nat) (l : list A) :
  firstn (a + b) l = firstn a l ++ firstn b (skipn a l).
Proof.
  revert l. induction a as [|a IH]; intros l; simpl; [reflexivity|].
  destruct l; simpl; [now rewrite firstn_nil | now rewrite IH].
Qed.

(** The batches of the first [m] rounds, one after the other, are the first
    [m * b] requests. *)
Lemma batches_concat (requests : list PropertyGenerationRequest) (b : Z)
    (m : nat) :
  (0 < b)%Z ->
  List.concat (map (batchOf requests b) (seq 0 m))
  = firstn (m * Z.to_nat b) requests.
Proof.
  intros Hb. induction m as [|m IH]; [reflexivity|].
  rewrite seq_S, map_app, concat_app, IH. simpl.
  rewrite app_nil_r, batchOf_firstn_skipn by assumption.
  rewrite <- firstn_add_skipn. f_equal. lia.
Qed.

(** The rounds are as many as it takes, and no more: all but the last of
    them find [b] requests, and the last finds at least one. *)
Lemma rounds_bounds (n b : Z) :
  (0 < b)%Z -> (0 <= n)%Z ->
  (n <= Z.of_nat (rounds n b 0) * b < n + b)%Z.
Proof.
  unfold rounds, ceilDiv. intros Hb Hn. rewrite Z.sub_0_r.
  rewrite Z2Nat.id by (apply Z.div_pos; lia).
  pose proof (Z.div_mod (n + b - 1) b ltac:(lia)) as E.
  pose proof (Z.mod_pos_bound (n + b - 1) b Hb) as M.
  nia.
Qed.

Lemma batchOf_length (requests : list PropertyGenerationRequest) (b : Z)
    (j : nat) :
  (0 < b)%Z ->
  List.length (batchOf requests b j)
  = Nat.min (Z.to_nat b) (List.length requests - j * Z.to_nat b).
Proof.
  intros Hb. rewrite batchOf_firstn_skipn by assumption.
  now rewrite length_firstn, length_skipn.
Qed.

Lemma rounds_bounds_nat (requests : list PropertyGenerationRequest) (b : Z) :
  (0 < b)%Z ->
  let c := rounds (Z.of_nat (List.length requests)) b 0 in
  (List.length requests <= c * Z.to_nat b < List.length requests + Z.to_nat b)%nat.
Proof.
  intros Hb c.
  pose proof (rounds_bounds (Z.of_nat (List.length requests)) b Hb
                ltac:(lia)) as H.
  fold c in H. nia.
Qed.

Lemma rounds_ceilDiv (n b : Z) : rounds n b 0 = Z.to_nat (ceilDiv n b).
Proof. unfold rounds. now rewrite Z.sub_0_r. Qed.

(** C6. For a batch size [b > 0], [generatePropertyBatch] on [n] requests
    makes ceil(n / b) calls of the endpoint; the call of the round [j] gets
    the [b] requests after the first [j * b], all rounds but the last get
    [b] requests and the last one at least one and at most [b], and the
    batches one after the other are the list of the requests. *)
Theorem batches_cover_requests
    (requests : list PropertyGenerationRequest) (b : Z) (fuel : nat)
    (w : World) :
  (0 < b)%Z -> (List.length requests < fuel)%nat ->
  let c := Z.to_nat (ceilDiv (Z.of_nat (List.length requests)) b) in
  exists records w',
    generatePropertyBatch decode fuel requests b w = (Returned records, w') /\
    apiCalls w' = (apiCalls w + c)%nat /\
    batchesSent (trace w')
    = batchesSent (trace w) ++ map (batchOf requests b) (seq 0 c) /\
    (forall j : nat,
       batchOf requests b j
       = firstn (Z.to_nat b) (skipn (j * Z.to_nat b) requests)) /\
    (forall j : nat,
       (S j < c)%nat -> List.length (batchOf requests b j) = Z.to_nat b) /\
    (forall j : nat,
       S j = c ->
       (0 < List.length (batchOf requests b j) <= Z.to_nat b)%nat) /\
    List.concat (map (batchOf requests b) (seq 0 c)) = requests.
Proof.
  intros Hb Hfuel c.
  assert (Hc : c = rounds (Z.of_nat (List.length requests)) b 0)
    by (symmetry; apply rounds_ceilDiv).
  pose proof (rounds_le (Z.of_nat (List.length requests)) b Hb ltac:(lia))
    as Hle.
  rewrite Nat2Z.id, <- Hc in Hle.
  pose proof (rounds_bounds_nat requests b Hb) as Hbounds.
  cbv zeta in Hbounds. rewrite <- Hc in Hbounds.
  eexists _, _. split.
  { apply generatePropertyBatch_run; [assumption | rewrite <- Hc; lia]. }
  rewrite <- Hc. cbn [afterCalls apiCalls trace].
  split; [reflexivity|]. split.
  { now rewrite batchesSent_app, batchesSent_rounds. }
  split; [intros j; now apply batchOf_firstn_skipn|].
  split; [|split].
  - intros j Hj. rewrite batchOf_length by assumption. nia.
  - intros j Hj. rewrite batchOf_length by assumption. nia.
  - rewrite batches_concat by assumption. apply firstn_all2. lia.
Qed.


End GeneratorFacts.

Lemma batches_cover_requests_witness :
  (exists w',
     batchesSent (trace w') = [threeRequests] /\
     exists records,
       Generator.generatePropertyBatch (fun _ => None) 4 threeRequests 3
         (initialWorld quiet) = (Returned records, w')) /\
  (exists w',
     map (@List.length _) (batchesSent (trace w')) = [2; 2; 1]%nat /\
     List.concat (batchesSent (trace w')) = fiveRequests /\
     exists records,
       Generator.generatePropertyBatch (fun _ => None) 6 fiveRequests 2
         (initialWorld quiet) = (Returned records, w')).
Proof.
  split.
  - destruct (batches_cover_requests (fun _ => None) threeRequests 3 4
                (initialWorld quiet) ltac:(lia) ltac:(simpl; lia))
      as (records & w' & E & _ & B & _).
    exists w'. split; [rewrite B; reflexivity | now exists records].
  - destruct (batches_cover_requests (fun _ => None) fiveRequests 2 6
                (initialWorld quiet) ltac:(lia) ltac:(simpl; lia))
      as (records & w' & E & _ & B & _).
    exists w'. rewrite B. repeat split; [now exists records].
Defined.



(** ** The run *)

Section OrchestratorFacts.
Import JsNumber Generator Inserter Orchestrator.

Variable decode : JsString.jsstring -> option (list GeneratedProperty).

(** [insertProperties] returns a count between 0 and the number of records
    it was given, and touches nothing but the store. *)
Lemma insertProperties_returns (ps : list GeneratedProperty) (w : World) :
  exists (n : Z) (w' : World),
    insertProperties ps w = (Returned n, w') /\
    (0 <= n <= Z.of_nat (List.length ps))%Z /\ storeOnly w w'.
Proof.
  unfold insertProperties. rewrite insertLoop_attempts.
  eexists _, _. split; [reflexivity|]. split; [|apply attempts_storeOnly].
  pose proof (count_occ_bound bool_dec true (fst (attempts ps w))) as B.
  rewrite attempts_length in B. lia.
Qed.

(** The loop of [generatePropertyBatch] leaves the counters alone, however
    it ends. *)
Lemma batchLoop_progress (requests : list PropertyGenerationRequest) (b : Z)
    (fuel : nat) :
  forall (i : Z) (results : list GeneratedProperty) (w : World),
    progress (snd (batchLoop decode fuel requests b i results w))
    = progress w.
Proof.
  induction fuel as [|fuel IH]; intros i results w; [reflexivity|].
  destruct (Z.lt_ge_cases i (Z.of_nat (List.length requests))) as [Hi|Hi].
  - rewrite batchLoop_step by assumption. now rewrite IH.
  - now rewrite batchLoop_done by assumption.
Qed.

(** One chunk keeps the counters in order, however it ends. *)
Lemma processChunk_counters (fuel : nat) (this : Orchestrator)
    (requests : list PropertyGenerationRequest) (chunkIdx : Z) (w : World) :
  countersInOrder (progress w) ->
  countersInOrder (progress (snd (processChunk decode fuel this requests
                                    chunkIdx w))).
Proof.
  intros Hinv. unfold processChunk, bind at 1, update at 1.
  set (w0 := set_progress (set_currentChunk (chunkIdx + 1) (progress w)) w).
  set (chunk := slice requests _ _).
  assert (H0 : countersInOrder (progress w0)) by exact Hinv.
  clearbody w0. clear Hinv w.
  unfold tryCatch, bind at 1, generatePropertyBatch.
  pose proof (batchLoop_progress chunk (batchSize this) fuel 0 [] w0) as Hp.
  destruct (batchLoop decode fuel chunk (batchSize this) 0 [] w0)
    as [[[|p ps]| |] w1]; simpl in Hp.
  - simpl. now rewrite Hp.
  - unfold bind, update, saveRawData, emit, sleep, emit.
    cbn [fst snd].
    match goal with
    | |- context [insertProperties ?l ?w2] =>
        destruct (insertProperties_returns l w2)
          as (n & w3 & E & Hn & (_ & _ & _ & Hg & _)); rewrite E
    end.
    cbn [snd progress set_trace set_progress]. rewrite Hg.
    cbn [progress set_trace set_progress].
    unfold countersInOrder in *. simpl. rewrite Hp. simpl in Hn. lia.
  - simpl. unfold countersInOrder in *. simpl. now rewrite Hp.
  - simpl. now rewrite Hp.
Qed.

Lemma chunkLoop_counters (fuel : nat) (this : Orchestrator)
    (requests : list PropertyGenerationRequest) (count : nat) :
  forall (chunkIdx : Z) (w : World),
    countersInOrder (progress w) ->
    countersInOrder (progress (snd (chunkLoop decode fuel this requests
                                      count chunkIdx w))).
Proof.
  induction count as [|count IH]; intros chunkIdx w Hinv; [exact Hinv|].
  cbn [chunkLoop]. unfold bind.
  pose proof (processChunk_counters fuel this requests chunkIdx w Hinv) as H.
  destruct (processChunk decode fuel this requests chunkIdx w)
    as [[[]| |] w1]; simpl in H |- *; auto.
Qed.

(** The loop over the chunks goes through them from the front: the first
    [k1] rounds of a longer loop are the loop of [k1] rounds. *)
Lemma chunkLoop_split (fuel : nat) (this : Orchestrator)
    (requests : list PropertyGenerationRequest) (k1 k2 : nat) :
  forall (chunkIdx : Z) (w : World),
    chunkLoop decode fuel this requests (k1 + k2) chunkIdx w
    = (chunkLoop decode fuel this requests k1 chunkIdx ;;;
       chunkLoop decode fuel this requests k2 (chunkIdx + Z.of_nat k1)) w.
Proof.
  induction k1 as [|k1 IH]; intros chunkIdx w.
  - simpl. unfold bind, ret. now rewrite Z.add_0_r.
  - cbn [chunkLoop Nat.add]. unfold bind.
    destruct (processChunk decode fuel this requests chunkIdx w)
      as [[[]| |] w1]; try reflexivity.
    rewrite IH. unfold bind.
    replace (chunkIdx + 1 + Z.of_nat k1)%Z with (chunkIdx + Z.of_nat (S k1))%Z
      by lia.
    reflexivity.
Qed.

(** The constructor starts the counters at 0. *)
Lemma construct_counters (total batch : Z) (w : World) (this : Orchestrator)
    (w' : World) :
  construct total batch w = (Returned this, w') ->
  countersInOrder (progress w').
Proof.
  unfold construct. destruct (apiKey (env w)) as [[|c key]|]; try discriminate.
  intros H. injection H as _ <-. unfold countersInOrder. simpl. lia.
Qed.

(** C10, as the code has it.  [insertProperties] returns a count between 0
    and the length of its list.  Hence, after each chunk of the run, however
    many chunks have been processed and however each of them ended, the
    counter of the inserted records is at most the counter of the generated
    ones.  (The counter of the generated records counts what the endpoint
    returned; the number of requests does not bound it.) *)
Theorem counters_in_order
    (ps : list GeneratedProperty) (fuel : nat) (this : Orchestrator)
    (requests : list PropertyGenerationRequest) (chunks : nat) (w : World) :
  countersInOrder (progress w) ->
  (exists (n : Z) (w' : World),
     insertProperties ps w = (Returned n, w') /\
     (0 <= n <= Z.of_nat (List.length ps))%Z) /\
  countersInOrder
    (progress (snd (chunkLoop decode fuel this requests chunks 0 w))).
Proof.
  intros Hinv. split.
  - destruct (insertProperties_returns ps w) as (n & w' & E & Hn & _).
    exists n, w'. auto.
  - now apply chunkLoop_counters.
Qed.

(** *** Reaching the summary *)

Lemma bind_returned {A B : Type} (m : M A) (k : A -> M B) (w w' : World)
    (a : A) :
  m w = (Returned a, w') -> bind m k w = k a w'.
Proof. intros H. unfold bind. now rewrite H. Qed.

Lemma chunk_length (requests : list PropertyGenerationRequest)
    (chunkIdx : Z) :
  (0 <= chunkIdx)%Z ->
  (List.length
     (slice requests (chunkIdx * chunkSize)
        (Z.min (chunkIdx * chunkSize + chunkSize)
           (Z.of_nat (List.length requests)))) <= 50)%nat.
Proof.
  intros H. unfold slice, chunkSize.
  assert (H1 : (chunkIdx * 50 <? 0)%Z = false) by (apply Z.ltb_ge; lia).
  assert (H2 : (Z.min (chunkIdx * 50 + 50)
                  (Z.of_nat (List.length requests)) <? 0)%Z = false)
    by (apply Z.ltb_ge; lia).
  rewrite H1, H2, length_firstn. lia.
Qed.

(** With a positive batch size and fuel for the rounds of a chunk, a chunk
    always comes to its end: whatever the endpoint and the store do is
    caught inside. *)
Lemma processChunk_returns (fuel : nat) (this : Orchestrator)
    (requests : list PropertyGenerationRequest) (chunkIdx : Z) (w : World) :
  (0 < batchSize this)%Z -> (50 < fuel)%nat -> (0 <= chunkIdx)%Z ->
  exists w', processChunk decode fuel this requests chunkIdx w
             = (Returned tt, w').
Proof.
  intros Hb Hfuel Hidx. unfold processChunk, bind at 1, update at 1.
  set (w0 := set_progress (set_currentChunk (chunkIdx + 1) (progress w)) w).
  clearbody w0.
  pose proof (chunk_length requests chunkIdx Hidx) as Hlen.
  set (chunk := slice requests _ _) in *.
  pose proof (rounds_le (Z.of_nat (List.length chunk)) (batchSize this) Hb
                ltac:(lia)) as Hr.
  rewrite Nat2Z.id in Hr.
  unfold tryCatch, bind at 1.
  rewrite (generatePropertyBatch_run decode chunk (batchSize this) fuel w0 Hb)
    by lia.
  destruct (flat_map _ _) as [|p ps].
  - eexists. reflexivity.
  - unfold bind, update, saveRawData, emit, sleep, emit.
    match goal with
    | |- context [insertProperties ?l ?w2] =>
        destruct (insertProperties_returns l w2) as (n & w3 & E & _);
        rewrite E
    end.
    eexists. reflexivity.
Qed.

Lemma chunkLoop_returns (fuel : nat) (this : Orchestrator)
    (requests : list PropertyGenerationRequest) (count : nat) :
  (0 < batchSize this)%Z -> (50 < fuel)%nat ->
  forall (chunkIdx : Z) (w : World),
    (0 <= chunkIdx)%Z ->
    exists w', chunkLoop decode fuel this requests count chunkIdx w
               = (Returned tt, w').
Proof.
  intros Hb Hfuel. induction count as [|count IH]; intros chunkIdx w Hidx.
  - eexists. reflexivity.
  - cbn [chunkLoop]. unfold bind.
    destruct (processChunk_returns fuel this requests chunkIdx w Hb Hfuel
                Hidx) as [w1 ->].
    apply IH. lia.
Qed.

(** C8, as the code has it.  A run that has its credential, whose count of
    the stored properties succeeds, that finds the store empty or is told
    [y] at the prompt, and whose batch size is positive always reaches the
    final summary, whatever the endpoint answers and whatever the store does
    afterwards.  (It stops before planning, without a summary, when the
    operator answers anything else at the prompt of a store that is not
    empty.) *)
Theorem run_reaches_summary
    (fuel : nat) (total batch : Z) (w : World) :
  (exists key, apiKey (env w) = Some key /\ key <> ""%string) ->
  dbFault (env w) (dbCalls w) = false ->
  mayProceed w ->
  (0 < batch)%Z -> (50 < fuel)%nat ->
  exists w',
    main decode fuel total batch w = (Returned tt, w') /\
    exists before, trace w' = before ++ [Summary (progress w')].
Proof.
  intros (key & Hkey & Hne) Hfault Hgo Hb Hfuel.
  unfold main, bind at 1, construct. rewrite Hkey.
  destruct key as [|c key]; [congruence|].
  set (this := {| totalProperties := total; batchSize := batch |}).
  set (w0 := set_progress _ w).
  unfold generateAllData, bind at 1, getPropertyCount, storeCall.
  change (dbFault (env w0) (dbCalls w0)) with (dbFault (env w) (dbCalls w)).
  rewrite Hfault.
  set (w1 := set_db _ _).
  assert (Hproceed :
            (if (0 <? Z.of_nat (List.length (properties (db w0))))%Z
             then fun w2 =>
                    if confirmed (promptAnswer (env w2)) then ret true w2
                    else (emit AbortedByUser ;;; ret false) w2
             else ret true) w1 = (Returned true, w1)).
  { destruct Hgo as [Hempty | Hyes].
    - change (db w0) with (db w). rewrite Hempty. reflexivity.
    - destruct (0 <? _)%Z; [|reflexivity].
      change (promptAnswer (env w1)) with (promptAnswer (env w)).
      now rewrite Hyes. }
  rewrite (bind_returned _ _ _ _ _ Hproceed). cbn [negb].
  unfold createPropertyRequests.
  destruct (createRequestsLoop_returns (Z.to_nat (totalProperties this)) [] w1)
    as (requests & w2 & E2 & _); [constructor|].
  rewrite (bind_returned _ _ _ _ _ E2).
  unfold bind at 1, update at 1. unfold bind at 1. unfold ret at 1.
  match goal with
  | |- context [bind (chunkLoop decode fuel this requests ?k 0) _ ?w3] =>
      destruct (chunkLoop_returns fuel this requests k Hb Hfuel 0%Z w3
                  ltac:(lia)) as [w4 E]
  end.
  rewrite (bind_returned _ _ _ _ _ E). unfold emit.
  eexists. split; [reflexivity|]. eexists. reflexivity.
Qed.

(** *** A batch size that is not positive *)

(** With a batch size of 0 or less the loop of [generatePropertyBatch] does
    not advance: whatever the fuel, it is used up. *)
Lemma batchLoop_stuck (requests : list PropertyGenerationRequest) (b : Z)
    (fuel : nat) :
  (b <= 0)%Z ->
  forall (i : Z) (results : list GeneratedProperty) (w : World),
    (i < Z.of_nat (List.length requests))%Z ->
    fst (batchLoop decode fuel requests b i results w) = OutOfFuel.
Proof.
  intros Hb. induction fuel as [|fuel IH]; intros i results w Hi.
  - reflexivity.
  - rewrite batchLoop_step by assumption. apply IH. lia.
Qed.

End OrchestratorFacts.

Lemma run_reaches_summary_witness :
  exists w',
    Orchestrator.main twoRecords 51 1 1 (initialWorld generous)
    = (Returned tt, w') /\
    exists before, trace w' = before ++ [Summary (progress w')].
Proof.
  apply (run_reaches_summary twoRecords 51 1 1 (initialWorld generous)).
  - exists "sk-sample"%string. split; [reflexivity | discriminate].
  - reflexivity.
  - left. reflexivity.
  - lia.
  - lia.
Defined.

(** The store holds a record and the operator answers [n]: the credential
    is there and the constructor succeeds, and the run returns without a
    summary. *)
Lemma operator_stops_the_run :
  let run :=
    Orchestrator.main (fun _ => None) 51 10 5 (stockedWorld declining) in
  fst (Orchestrator.construct 10 5 (stockedWorld declining))
  = Returned {| Orchestrator.totalProperties := 10;
                Orchestrator.batchSize := 5 |} /\
  fst run = Returned tt /\
  trace (snd run) = [AbortedByUser] /\
  forall g, ~ In (Summary g) (trace (snd run)).
Proof.
  split; [reflexivity|]. split; [reflexivity|]. split; [reflexivity|].
  intros g H. vm_compute in H. destruct H as [H | []]. discriminate.
Qed.

(** With [--batch-size 0] the run never comes to its summary either. *)
Lemma batch_size_zero_never_ends (fuel : nat) :
  fst (Orchestrator.main (fun _ => None) fuel 1 0 (initialWorld quiet))
  = OutOfFuel.
Proof.
  cbv -[Generator.batchLoop].
  match goal with
  | |- context [Generator.batchLoop ?d fuel ?r ?b ?i ?res ?w] =>
      pose proof (batchLoop_stuck d r b fuel ltac:(lia) i res w
                    ltac:(simpl; lia)) as H;
      destruct (Generator.batchLoop d fuel r b i res w) as [[l| |] w']
  end; simpl in H; try discriminate. reflexivity.
Qed.

Lemma counters_in_order_witness :
  (exists (n : Z) (w' : World),
     Inserter.insertProperties [sampleProperty; sampleProperty]
       (initialWorld generous) = (Returned n, w') /\
     (0 <= n <= 2)%Z) /\
  countersInOrder
    (progress
       (snd (Orchestrator.chunkLoop twoRecords 51
               {| Orchestrator.totalProperties := 3;
                  Orchestrator.batchSize := 2 |}
               threeRequests 1 0 (initialWorld generous)))).
Proof.
  apply (counters_in_order twoRecords [sampleProperty; sampleProperty] 51
           {| Orchestrator.totalProperties := 3;
              Orchestrator.batchSize := 2 |}
           threeRequests 1 (initialWorld generous)).
  unfold countersInOrder. simpl. lia.
Defined.

(** One request is planned, and the endpoint returns two records for it:
    both are counted as generated, and both are inserted. *)
Lemma generated_exceeds_planned :
  let run := Orchestrator.main twoRecords 51 1 1 (initialWorld generous) in
  fst run = Returned tt /\
  map (@List.length _) (batchesSent (trace (snd run))) = [1%nat] /\
  totalRequested (progress (snd run)) = 1%Z /\
  totalGenerated (progress (snd run)) = 2%Z /\
  totalInserted (progress (snd run)) = 2%Z.
Proof. vm_compute. repeat split. Qed.

(* ================================================================== *)
(** * Further properties *)
(* ================================================================== *)

(** ** White space around the fences *)

Section FenceWhiteSpace.
Import JsString Fence.

Lemma trimEnd_allWhite (w : jsstring) : allWhite w -> trimEnd w = [].
Proof.
  unfold allWhite. induction w as [|x w IH]; [reflexivity|]. simpl.
  rewrite andb_true_iff. intros [Hx Hw]. now rewrite (IH Hw), Hx.
Qed.

Lemma trimEnd_white (u w : jsstring) :
  allWhite w -> trimEnd (u ++ w) = trimEnd u.
Proof.
  intros Hw. induction u as [|c u IH]; simpl.
  - now apply trimEnd_allWhite.
  - now rewrite IH.
Qed.

Lemma trimStart_fixed_app (u x : jsstring) :
  trimStart u = u -> u <> [] -> trimStart (u ++ x) = u ++ x.
Proof.
  destruct u as [|c u]; [congruence|]. intros Hs _. simpl in *.
  destruct (isWhiteSpace c) eqn:Hc; [|reflexivity].
  exfalso. destruct (trimStart_split u) as [w [_ Hr]].
  apply (f_equal (@List.length N)) in Hs. rewrite Hr in Hs at 2.
  simpl in Hs. rewrite length_app in Hs. lia.
Qed.

Lemma trim_white_around (w1 w2 u : jsstring) :
  allWhite w1 -> allWhite w2 -> trim u = u -> u <> [] ->
  trim (w1 ++ u ++ w2) = u.
Proof.
  intros H1 H2 Hu Hne. unfold trim. rewrite (trimStart_white w1 _ H1).
  assert (Hs : trimStart u = u) by (rewrite <- Hu; apply trim_trimStart).
  assert (He : trimEnd u = u) by (rewrite <- Hu; apply trim_trimEnd).
  rewrite (trimStart_fixed_app u w2 Hs Hne), (trimEnd_white u w2 H2).
  exact He.
Qed.

(** What is left between the fences, with any white space before the
    closing fence. *)
Lemma replaceClosing_between (t w2 : jsstring) :
  allWhite w2 ->
  replaceClosing (trimStart (t ++ w2 ++ fence)) = trim t.
Proof.
  intros Hw2.
  destruct (trimStart_split t) as [w1 [Hw1 E1]].
  destruct (trimEnd_split (trimStart t)) as [w3 [Hw3 E3]].
  fold (trim t) in E3.
  assert (Hs := trim_trimStart t). assert (He := trim_trimEnd t).
  assert (Hw : allWhite (w3 ++ w2)).
  { unfold allWhite in *. now rewrite forallb_app, Hw3, Hw2. }
  assert (E : trimStart (t ++ w2 ++ fence)
              = trimStart (trim t ++ (w3 ++ w2) ++ fence)).
  { rewrite E1 at 1. rewrite <- app_assoc, (trimStart_white w1 _ Hw1).
    rewrite E3 at 1. now rewrite <- !app_assoc. }
  rewrite E. clear E E1 E3. destruct (trim t) as [|c r] eqn:Et.
  - simpl app. rewrite (trimStart_white _ _ Hw). reflexivity.
  - rewrite trimStart_fixed_app by (assumption || discriminate).
    now apply replaceClosing_app.
Qed.

Lemma skipn_prefix {A : Type} (p x : list A) :
  skipn (List.length p) (p ++ x) = x.
Proof. induction p; simpl; auto. Qed.

Lemma startsWith_after (p q x : jsstring) :
  startsWith (p ++ x) (p ++ q) = startsWith x q.
Proof.
  induction p as [|c p IH]; simpl; [reflexivity|].
  now rewrite N.eqb_refl.
Qed.

Lemma fenced_trimmed (opening body : jsstring) :
  trimStart opening = opening -> opening <> [] ->
  trim (opening ++ body ++ fence) = opening ++ body ++ fence.
Proof.
  intros Hs Hne. unfold trim.
  rewrite (trimStart_fixed_app opening _ Hs Hne).
  rewrite !app_assoc. apply trimEnd_app_fence.
Qed.

(** X1. Whatever white space stands before the opening fence, between
    the opening fence and the text, between the text and the closing fence
    and after the closing fence (none, a line feed, a carriage return and a
    line feed, blanks), what is left of a reply in a [```json] block is the
    text without the white space at its two ends.  The same holds for a
    plain block, unless what follows the opening fence begins with
    [json]. *)
Theorem fenced_reply_with_white_space (w0 w1 w2 w3 t : jsstring) :
  allWhite w0 -> allWhite w1 -> allWhite w2 -> allWhite w3 ->
  stripFences (w0 ++ (fenceJson ++ w1 ++ t ++ w2 ++ fence) ++ w3) = trim t /\
  (startsWith (w1 ++ t ++ w2 ++ fence) (lit "json") = false ->
   stripFences (w0 ++ (fence ++ w1 ++ t ++ w2 ++ fence) ++ w3) = trim t).
Proof.
  intros H0 H1 H2 H3. split.
  - unfold stripFences.
    assert (Ht : trim (fenceJson ++ (w1 ++ t ++ w2) ++ fence)
                 = fenceJson ++ (w1 ++ t ++ w2) ++ fence)
      by (apply fenced_trimmed; [reflexivity | discriminate]).
    rewrite <- !app_assoc in Ht.
    rewrite (trim_white_around w0 w3 _ H0 H3 Ht) by discriminate.
    cbv zeta. rewrite startsWith_app.
    unfold replaceOpening.
    rewrite startsWith_app, skipn_prefix, (trimStart_white w1 _ H1).
    now apply replaceClosing_between.
  - intros Hj. unfold stripFences.
    assert (Ht : trim (fence ++ (w1 ++ t ++ w2) ++ fence)
                 = fence ++ (w1 ++ t ++ w2) ++ fence)
      by (apply fenced_trimmed; [reflexivity | discriminate]).
    rewrite <- !app_assoc in Ht.
    rewrite (trim_white_around w0 w3 _ H0 H3 Ht) by discriminate.
    cbv zeta.
    replace (startsWith (fence ++ w1 ++ t ++ w2 ++ fence) fenceJson)
      with false
      by (symmetry; rewrite <- Hj;
          apply (startsWith_after fence (lit "json"))).
    rewrite startsWith_app.
    unfold replaceOpening.
    rewrite startsWith_app, skipn_prefix, (trimStart_white w1 _ H1).
    now apply replaceClosing_between.
Qed.

End FenceWhiteSpace.

Lemma fenced_reply_with_white_space_witness :
  Fence.stripFences
    (JsString.lit " " ++ (Fence.fenceJson ++ [13; 10]%N ++ JsString.lit "{}"
                          ++ JsString.lit "  " ++ Fence.fence) ++ [10%N])
  = JsString.lit "{}".
Proof.
  destruct (fenced_reply_with_white_space (JsString.lit " ") [13; 10]%N
              (JsString.lit "  ") [10%N] (JsString.lit "{}")
              eq_refl eq_refl eq_refl eq_refl) as [E _].
  rewrite E. reflexivity.
Defined.

(** ** The store after an insertion *)

Section StoreFacts.
Import JsNumber Inserter.

Lemma createPhotos_frame (pid : Z) (z : string) (ps : list Photo) :
  forall (i : nat) (d : Db),
    listings (createPhotos pid z i ps d) = listings d /\
    propertyFeatures (createPhotos pid z i ps d) = propertyFeatures d /\
    nextId (createPhotos pid z i ps d) = nextId d.
Proof.
  induction ps as [|photo rest IH]; intros i d; simpl; [auto|].
  destruct (IH (S i)
              {| properties := properties d;
                 listings := listings d;
                 propertyFeatures := propertyFeatures d;
                 propertyPhotos :=
                   propertyPhotos d ++ [photoRow pid z i photo];
                 nextId := nextId d |}) as (E1 & E2 & E3).
  now rewrite E1, E2, E3.
Qed.

Lemma photoRowsFrom_propertyId (pid : Z) (z : string) (ps : list Photo) :
  forall (i : nat) (row : Prisma.PropertyPhoto),
    In row (photoRowsFrom pid z i ps) -> Prisma.propertyId row = pid.
Proof.
  induction ps as [|photo rest IH]; intros i row; simpl; [tauto|].
  intros [<- | H]; [reflexivity | eapply IH; eassumption].
Qed.

Lemma listing_step (pid : Z) (pr : option Q) (ol : option Listing)
    (d1 : Db) :
  let d2 := match ol with
            | Some l => createListing pid pr l d1
            | None => d1
            end in
  properties d2 = properties d1 /\
  propertyFeatures d2 = propertyFeatures d1 /\
  propertyPhotos d2 = propertyPhotos d1 /\
  nextId d2 = nextId d1 /\
  exists lrows,
    listings d2 = listings d1 ++ lrows /\
    List.length lrows = match ol with Some _ => 1 | None => 0 end%nat /\
    forall l, In l lrows -> Prisma.listing_propertyId l = pid.
Proof.
  destruct ol as [l|]; simpl; repeat split.
  - eexists. split; [reflexivity|]. split; [reflexivity|].
    intros x [<- | []]. reflexivity.
  - exists []. split; [now rewrite app_nil_r|]. split; [reflexivity|].
    intros x [].
Qed.

Lemma features_step (pid : Z) (ofeat : option Features) (d2 : Db) :
  let d3 := match ofeat with
            | Some f => createFeatures pid f d2
            | None => d2
            end in
  properties d3 = properties d2 /\
  listings d3 = listings d2 /\
  propertyPhotos d3 = propertyPhotos d2 /\
  nextId d3 = nextId d2 /\
  exists frows,
    propertyFeatures d3 = propertyFeatures d2 ++ frows /\
    List.length frows = match ofeat with Some _ => 1 | None => 0 end%nat /\
    forall f, In f frows -> Prisma.features_propertyId f = pid.
Proof.
  destruct ofeat as [f|]; simpl; repeat split.
  - eexists. split; [reflexivity|]. split; [reflexivity|].
    intros x [<- | []]. reflexivity.
  - exists []. split; [now rewrite app_nil_r|]. split; [reflexivity|].
    intros x [].
Qed.

Lemma photos_step (pid : Z) (z : string) (ops : option (list Photo))
    (d3 : Db) :
  let d4 := match ops with
            | Some (photo :: rest) => createPhotos pid z 0 (photo :: rest) d3
            | _ => d3
            end in
  properties d4 = properties d3 /\
  listings d4 = listings d3 /\
  propertyFeatures d4 = propertyFeatures d3 /\
  nextId d4 = nextId d3 /\
  propertyPhotos d4
  = propertyPhotos d3
    ++ photoRowsFrom pid z 0 (match ops with Some ps => ps | None => [] end).
Proof.
  destruct ops as [[|photo rest]|]; cbv zeta.
  - simpl. now rewrite app_nil_r.
  - destruct (createPhotos_tables pid z (photo :: rest) 0 d3) as [T1 T2].
    destruct (createPhotos_frame pid z (photo :: rest) 0 d3) as (F1 & F2 & F3).
    auto.
  - simpl. now rewrite app_nil_r.
Qed.

Lemma createProperty_written (p : GeneratedProperty) (d d1 : Db)
    (row : Prisma.Property) :
  createProperty p d = Some (row, d1) ->
  Prisma.id row = nextId d /\
  properties d1 = properties d ++ [row] /\ listings d1 = listings d /\
  propertyFeatures d1 = propertyFeatures d /\
  propertyPhotos d1 = propertyPhotos d /\ nextId d1 = (nextId d + 1)%Z.
Proof.
  unfold createProperty.
  destruct (zpid p); [|discriminate].
  destruct (address p); [|discriminate].
  destruct (zipCode p); [|discriminate].
  destruct (latitude p); [|discriminate].
  destruct (longitude p); [|discriminate].
  destruct (bedrooms p); [|discriminate].
  destruct (bathrooms p); [|discriminate].
  destruct (sqft p); [|discriminate].
  destruct (yearBuilt p); [|discriminate].
  destruct (propertyType p); [|discriminate].
  destruct (price p); [|discriminate].
  destruct (lookupZpid _ d); [discriminate|].
  intros H. injection H as <- <-. repeat split.
Qed.

(** All that a transaction that commits has written. *)
Lemma createAll_written (p : GeneratedProperty) (d d' : Db) :
  createAll p d = Some d' ->
  exists row : Prisma.Property,
    (exists d1, createProperty p d = Some (row, d1)) /\
    Prisma.id row = nextId d /\
    properties d' = properties d ++ [row] /\
    nextId d' = (nextId d + 1)%Z /\
    (exists lrows,
       listings d' = listings d ++ lrows /\
       List.length lrows
       = match listing p with Some _ => 1 | None => 0 end%nat /\
       forall l, In l lrows -> Prisma.listing_propertyId l = Prisma.id row) /\
    (exists frows,
       propertyFeatures d' = propertyFeatures d ++ frows /\
       List.length frows
       = match features p with Some _ => 1 | None => 0 end%nat /\
       forall f, In f frows -> Prisma.features_propertyId f = Prisma.id row) /\
    (exists prows,
       propertyPhotos d' = propertyPhotos d ++ prows /\
       List.length prows
       = List.length (match photos p with Some ps => ps | None => [] end) /\
       forall ph, In ph prows -> Prisma.propertyId ph = Prisma.id row).
Proof.
  unfold createAll.
  destruct (createProperty p d) as [[row d1]|] eqn:E; [|discriminate].
  apply createProperty_written in E.
  destruct E as (Hid & P1 & L1 & F1 & Ph1 & N1).
  pose proof (listing_step (Prisma.id row) (price p) (listing p) d1) as S2.
  cbv zeta in S2.
  set (d2 := match listing p with
             | Some l => createListing (Prisma.id row) (price p) l d1
             | None => d1
             end) in *.
  destruct S2 as (P2 & F2 & Ph2 & N2 & lrows & L2 & Ll & Lp).
  pose proof (features_step (Prisma.id row) (features p) d2) as S3.
  cbv zeta in S3.
  set (d3 := match features p with
             | Some f => createFeatures (Prisma.id row) f d2
             | None => d2
             end) in *.
  destruct S3 as (P3 & L3 & Ph3 & N3 & frows & F3 & Fl & Fp).
  pose proof (photos_step (Prisma.id row) (Prisma.zpid row) (photos p) d3) as S4.
  cbv zeta in S4.
  set (d4 := match photos p with
             | Some (photo :: rest) =>
                 createPhotos (Prisma.id row) (Prisma.zpid row) 0 (photo :: rest) d3
             | _ => d3
             end) in *.
  destruct S4 as (P4 & L4 & F4 & N4 & Ph4).
  clearbody d4 d3 d2. intros H. injection H as <-.
  exists row. split; [now exists d1|]. split; [assumption|].
  split; [congruence|]. split; [congruence|].
  split; [exists lrows; split; [congruence | auto]|].
  split; [exists frows; split; [congruence | auto]|].
  exists (photoRowsFrom (Prisma.id row) (Prisma.zpid row) 0
            (match photos p with Some ps => ps | None => [] end)).
  split; [congruence|]. split; [apply photoRowsFrom_length|].
  intros ph Hph. eapply photoRowsFrom_propertyId; eassumption.
Qed.

(** *** What an insertion leaves in the store *)

Lemma find_snoc {A : Type} (f : A -> bool) (l : list A) (x : A) :
  find f (l ++ [x])
  = match find f l with
    | Some y => Some y
    | None => if f x then Some x else None
    end.
Proof.
  induction l as [|a l IH]; simpl; [reflexivity|].
  destruct (f a); [reflexivity | exact IH].
Qed.

Lemma createProperty_row (p : GeneratedProperty) (d d1 : Db)
    (row : Prisma.Property) :
  createProperty p d = Some (row, d1) ->
  zpid p = Some (Prisma.zpid row) /\ address p = Some (Prisma.address row) /\
  zipCode p = Some (Prisma.zipCode row) /\
  latitude p = Some (Prisma.latitude row) /\
  longitude p = Some (Prisma.longitude row) /\
  bedrooms p = Some (Prisma.bedrooms row) /\
  bathrooms p = Some (Prisma.bathrooms row) /\ sqft p = Some (Prisma.sqft row) /\
  yearBuilt p = Some (Prisma.yearBuilt row) /\
  propertyType p = Some (Prisma.propertyType row) /\
  price p = Some (Prisma.price row) /\
  Prisma.city row = "Oakland"%string /\ Prisma.state row = "CA"%string /\
  Prisma.status row = orString (status p) "For Sale" /\
  Prisma.listingType row = orString (listingType p) "Resale".
Proof.
  unfold createProperty.
  destruct (zpid p); [|discriminate].
  destruct (address p); [|discriminate].
  destruct (zipCode p); [|discriminate].
  destruct (latitude p); [|discriminate].
  destruct (longitude p); [|discriminate].
  destruct (bedrooms p); [|discriminate].
  destruct (bathrooms p); [|discriminate].
  destruct (sqft p); [|discriminate].
  destruct (yearBuilt p); [|discriminate].
  destruct (propertyType p); [|discriminate].
  destruct (price p); [|discriminate].
  destruct (lookupZpid _ d); [discriminate|].
  intros H. injection H as <- <-. simpl. repeat split.
Qed.



(** X2. [insertSingleProperty] always returns, and it writes all of a
    record or nothing: when it returns [false] the store is as it was; when
    it returns [true] the table of the properties has one more row, with
    the identifier of the record, the table of the listings and the table
    of the features have one more row each if the record has a listing or
    a feature set and none otherwise, the table of the photos has one more
    row for each photo, and each of the new rows belongs to the new
    property. *)
Theorem insertion_is_all_or_nothing (p : GeneratedProperty) (w : World) :
  exists (b : bool) (w' : World),
    insertSingleProperty p w = (Returned b, w') /\
    (b = false -> db w' = db w) /\
    (b = true ->
     exists row : Prisma.Property,
       zpid p = Some (Prisma.zpid row) /\
       properties (db w') = properties (db w) ++ [row] /\
       (exists lrows,
          listings (db w') = listings (db w) ++ lrows /\
          List.length lrows
          = match listing p with Some _ => 1 | None => 0 end%nat /\
          forall l, In l lrows -> Prisma.listing_propertyId l = Prisma.id row) /\
       (exists frows,
          propertyFeatures (db w') = propertyFeatures (db w) ++ frows /\
          List.length frows
          = match features p with Some _ => 1 | None => 0 end%nat /\
          forall f, In f frows -> Prisma.features_propertyId f = Prisma.id row) /\
       (exists prows,
          propertyPhotos (db w') = propertyPhotos (db w) ++ prows /\
          List.length prows
          = List.length (match photos p with Some ps => ps | None => [] end) /\
          forall ph, In ph prows -> Prisma.propertyId ph = Prisma.id row)).
Proof.
  destruct (insertSingleProperty_returns p w) as (b & w' & E & _ & Hf & Ht).
  exists b, w'. split; [assumption|]. split; [assumption|].
  intros Hb. destruct (Ht Hb) as (_ & z & _ & _ & Hc).
  destruct (createAll_written p _ _ Hc)
    as (row & (d1 & Hz) & _ & Hp & _ & Hl & Hfe & Hph).
  apply createProperty_row in Hz. exists row. intuition.
Qed.

Lemma createAll_possible (p : GeneratedProperty) (z : string) (d : Db) :
  validatePropertyData p = true -> zpid p = Some z ->
  lookupZpid z d = None ->
  exists d', createAll p d = Some d'.
Proof.
  intros Hv Hz Hl. apply validatePropertyData_true in Hv.
  destruct Hv as [Hreq _]. apply requiredFieldMissing_false in Hreq.
  destruct Hreq as (H1 & H2 & H3 & H4 & H5 & H6 & H7 & H8 & H9 & H10 & H11).
  unfold createAll, createProperty. rewrite Hz.
  destruct (address p); [|congruence].
  destruct (zipCode p); [|congruence].
  destruct (latitude p); [|congruence].
  destruct (longitude p); [|congruence].
  destruct (bedrooms p); [|congruence].
  destruct (bathrooms p); [|congruence].
  destruct (sqft p); [|congruence].
  destruct (yearBuilt p); [|congruence].
  destruct (propertyType p); [|congruence].
  destruct (price p); [|congruence].
  rewrite Hl. eexists. reflexivity.
Qed.



(** *** Looking up what was inserted *)

(** X4. A record that was inserted is found under its identifier, and the
    row found has the eleven required values of the record, the city
    Oakland and the state CA; its status and its listing type are those of
    the record, or [For Sale] and [Resale] where the record has none or an
    empty one. *)
Theorem inserted_record_is_found (p : GeneratedProperty) (w w' : World) :
  insertSingleProperty p w = (Returned true, w') ->
  exists row : Prisma.Property,
    lookupZpid (Prisma.zpid row) (db w') = Some row /\
    zpid p = Some (Prisma.zpid row) /\ address p = Some (Prisma.address row) /\
    zipCode p = Some (Prisma.zipCode row) /\
    latitude p = Some (Prisma.latitude row) /\
    longitude p = Some (Prisma.longitude row) /\
    bedrooms p = Some (Prisma.bedrooms row) /\
    bathrooms p = Some (Prisma.bathrooms row) /\ sqft p = Some (Prisma.sqft row) /\
    yearBuilt p = Some (Prisma.yearBuilt row) /\
    propertyType p = Some (Prisma.propertyType row) /\
    price p = Some (Prisma.price row) /\
    Prisma.city row = "Oakland"%string /\ Prisma.state row = "CA"%string /\
    (forall s, status p = Some s -> s <> ""%string -> Prisma.status row = s) /\
    (status p = None \/ status p = Some ""%string ->
     Prisma.status row = "For Sale"%string) /\
    (forall s, listingType p = Some s -> s <> ""%string ->
               Prisma.listingType row = s) /\
    (listingType p = None \/ listingType p = Some ""%string ->
     Prisma.listingType row = "Resale"%string).
Proof.
  intros E.
  destruct (insertSingleProperty_returns p w) as (b & w1 & E1 & _ & _ & Ht).
  rewrite E in E1. injection E1 as <- <-.
  destruct (Ht eq_refl) as (_ & z & Hz & Hl & Hc).
  destruct (createAll_written p _ _ Hc) as (row & (d1 & Hr) & _ & Hp & _).
  apply createProperty_row in Hr.
  destruct Hr as (R1 & R2 & R3 & R4 & R5 & R6 & R7 & R8 & R9 & R10 & R11
                  & R12 & R13 & R14 & R15).
  rewrite Hz in R1. injection R1 as R1. subst z.
  exists row. split.
  { unfold lookupZpid in *. rewrite Hp, find_snoc, Hl, String.eqb_refl.
    reflexivity. }
  rewrite Hz. repeat (split; [assumption || reflexivity|]).
  rewrite R14, R15. unfold orString.
  repeat split.
  - intros s -> Hs. destruct s; congruence.
  - intros [-> | ->]; reflexivity.
  - intros s -> Hs. destruct s; congruence.
  - intros [-> | ->]; reflexivity.
Qed.

(** *** The store stays consistent *)

Lemma NoDup_snoc {A : Type} (l : list A) (x : A) :
  NoDup l -> ~ In x l -> NoDup (l ++ [x]).
Proof.
  induction l as [|a l IH]; intros Hnd Hx; simpl.
  - constructor; [tauto | constructor].
  - inversion Hnd as [|? ? Ha Hl]; subst. constructor.
    + rewrite in_app_iff. simpl. intros [H | [H | []]]; [tauto|].
      subst. apply Hx. now left.
    + apply IH; [assumption|]. intros H. apply Hx. now right.
Qed.

Lemma NoDup_app_short {A : Type} (l rows : list A) :
  NoDup l -> (List.length rows <= 1)%nat ->
  (forall x, In x rows -> ~ In x l) -> NoDup (l ++ rows).
Proof.
  intros Hl Hlen Hx. destruct rows as [|x [|y rows]]; simpl in Hlen; [| |lia].
  - now rewrite app_nil_r.
  - apply NoDup_snoc; [assumption|]. apply Hx. now left.
Qed.

Lemma lookupZpid_None_notin (z : string) (d : Db) :
  lookupZpid z d = None -> ~ In z (map Prisma.zpid (properties d)).
Proof.
  unfold lookupZpid. intros H Hin. apply in_map_iff in Hin.
  destruct Hin as (r & Hr & Hin).
  apply (find_none _ _ H) in Hin. rewrite Hr, String.eqb_refl in Hin.
  discriminate.
Qed.

Lemma createAll_consistent (p : GeneratedProperty) (z : string) (d d' : Db) :
  storeConsistent d -> zpid p = Some z -> lookupZpid z d = None ->
  createAll p d = Some d' -> storeConsistent d'.
Proof.
  intros (Cz & Ci & Cn & Cl & Cf & Rl & Rf & Rp) Hz Hl Hc.
  destruct (createAll_written p d d' Hc)
    as (row & (d1 & Hr) & Hid & Hp & Hn
        & (lrows & EL & LL & PL) & (frows & EF & LF & PF)
        & (prows & EP & _ & PP)).
  apply createProperty_row in Hr. destruct Hr as (Hrz & _).
  rewrite Hz in Hrz. injection Hrz as Hrz.
  assert (Hfresh : ~ In (Prisma.id row) (map Prisma.id (properties d))).
  { intros Hin. apply in_map_iff in Hin. destruct Hin as (r & Hr & Hin).
    apply Cn in Hin. lia. }
  assert (Hsub : forall i, In i (map Prisma.id (properties d)) ->
                           In i (map Prisma.id (properties d'))).
  { intros i Hi. rewrite Hp, map_app, in_app_iff. now left. }
  assert (Hnew : In (Prisma.id row) (map Prisma.id (properties d'))).
  { rewrite Hp, map_app, in_app_iff. right. now left. }
  unfold storeConsistent. rewrite Hp, Hn, EL, EF, EP, !map_app.
  rewrite <- !map_app, <- Hp. rewrite Hp at 1 2. rewrite !map_app. simpl map.
  repeat split.
  - apply NoDup_snoc; [assumption|]. rewrite <- Hrz.
    now apply lookupZpid_None_notin.
  - now apply NoDup_snoc.
  - intros r Hin. rewrite Hp in Hin. apply in_app_iff in Hin.
    destruct Hin as [Hin | [<- | []]]; [apply Cn in Hin|]; lia.
  - apply NoDup_app_short; [assumption | rewrite length_map, LL;
                            destruct (listing p); lia |].
    intros i Hi Hin. apply in_map_iff in Hi. destruct Hi as (l & <- & Hi).
    apply PL in Hi. rewrite Hi in Hin. apply in_map_iff in Hin.
    destruct Hin as (l' & E' & Hin'). apply Rl in Hin'. rewrite E' in Hin'.
    contradiction.
  - apply NoDup_app_short; [assumption | rewrite length_map, LF;
                            destruct (features p); lia |].
    intros i Hi Hin. apply in_map_iff in Hi. destruct Hi as (f & <- & Hi).
    apply PF in Hi. rewrite Hi in Hin. apply in_map_iff in Hin.
    destruct Hin as (f' & E' & Hin'). apply Rf in Hin'. rewrite E' in Hin'.
    contradiction.
  - intros l Hin. apply in_app_iff in Hin. destruct Hin as [Hin | Hin].
    + apply Hsub, Rl, Hin.
    + now rewrite (PL l Hin).
  - intros f Hin. apply in_app_iff in Hin. destruct Hin as [Hin | Hin].
    + apply Hsub, Rf, Hin.
    + now rewrite (PF f Hin).
  - intros ph Hin. apply in_app_iff in Hin. destruct Hin as [Hin | Hin].
    + apply Hsub, Rp, Hin.
    + now rewrite (PP ph Hin).
Qed.

Lemma insertSingleProperty_consistent (p : GeneratedProperty) (w : World) :
  storeConsistent (db w) ->
  storeConsistent (db (snd (insertSingleProperty p w))).
Proof.
  intros H.
  destruct (insertSingleProperty_returns p w) as (b & w' & E & _ & Hf & Ht).
  rewrite E. simpl. destruct b.
  - destruct (Ht eq_refl) as (_ & z & Hz & Hl & Hc).
    eapply createAll_consistent; eassumption.
  - now rewrite Hf.
Qed.

Lemma attempts_consistent (ps : list GeneratedProperty) :
  forall w, storeConsistent (db w) ->
            storeConsistent (db (snd (attempts ps w))).
Proof.
  induction ps as [|p ps IH]; intros w H; simpl; [assumption|].
  pose proof (insertSingleProperty_consistent p w H) as H1.
  destruct (insertSingleProperty p w) as [r w1]. specialize (IH w1 H1).
  destruct (attempts ps w1). exact IH.
Qed.

(** X5. [insertProperties] keeps the tables consistent, whatever the
    records are and whenever the store fails: no identifier and no key is
    there twice, no property has two listings or two feature sets, and each
    listing, feature set and photo belongs to a property that is there. *)
Theorem insertProperties_keeps_store_consistent
    (ps : list GeneratedProperty) (w : World) :
  storeConsistent (db w) ->
  storeConsistent (db (snd (insertProperties ps w))).
Proof.
  intros H. unfold insertProperties. rewrite insertLoop_attempts. simpl.
  now apply attempts_consistent.
Qed.

(** *** Batches of records *)

Lemma storeReliable_storeOnly (w w' : World) :
  storeOnly w w' -> storeReliable w -> storeReliable w'.
Proof. intros (E & _) H k. rewrite E. apply H. Qed.

(** What is stored stays stored. *)
Lemma insertSingleProperty_keeps (p : GeneratedProperty) (z : string)
    (w : World) :
  lookupZpid z (db w) <> None ->
  lookupZpid z (db (snd (insertSingleProperty p w))) <> None.
Proof.
  intros H.
  destruct (insertSingleProperty_returns p w) as (b & w' & E & _ & Hf & Ht).
  rewrite E. simpl. destruct b; [|now rewrite Hf].
  destruct (Ht eq_refl) as (_ & z' & _ & _ & Hc).
  destruct (createAll_written p _ _ Hc) as (row & _ & _ & Hp & _).
  unfold lookupZpid in *. rewrite Hp, find_snoc.
  destruct (find _ (properties (db w))); [discriminate | contradiction].
Qed.

Lemma attempts_keeps (ps : list GeneratedProperty) (z : string) :
  forall w, lookupZpid z (db w) <> None ->
            lookupZpid z (db (snd (attempts ps w))) <> None.
Proof.
  induction ps as [|p ps IH]; intros w H; simpl; [assumption|].
  pose proof (insertSingleProperty_keeps p z w H) as H1.
  destruct (insertSingleProperty p w) as [r w1]. specialize (IH w1 H1).
  destruct (attempts ps w1). exact IH.
Qed.

(** With a store that answers, a valid record is stored after the attempt,
    whether it was inserted now or stored before. *)
Lemma insertSingleProperty_stores (p : GeneratedProperty) (z : string)
    (w : World) :
  storeReliable w -> validatePropertyData p = true -> zpid p = Some z ->
  lookupZpid z (db (snd (insertSingleProperty p w))) <> None.
Proof.
  intros Hrel Hv Hz.
  destruct (lookupZpid z (db w)) eqn:Hl.
  - apply insertSingleProperty_keeps. congruence.
  - destruct (createAll_possible p z (db w) Hv Hz Hl) as [d' Hc].
    destruct (createAll_written p _ _ Hc) as (row & (d1 & Hr) & _ & Hp & _).
    apply createProperty_row in Hr. destruct Hr as (Hrz & _).
    rewrite Hz in Hrz. injection Hrz as ->.
    unfold insertSingleProperty, tryCatch, bind. rewrite Hv, Hz. simpl.
    unfold transaction, storeCall, ret. rewrite !Hrel, Hl. simpl.
    rewrite Hrel, Hc. simpl.
    unfold lookupZpid in *. rewrite Hp, find_snoc, Hl, String.eqb_refl.
    discriminate.
Qed.

Lemma attempts_stores (ps : list GeneratedProperty) :
  forall w, storeReliable w ->
    forall p z, In p ps -> validatePropertyData p = true ->
                zpid p = Some z ->
                lookupZpid z (db (snd (attempts ps w))) <> None.
Proof.
  induction ps as [|q ps IH]; intros w Hrel p z Hin Hv Hz; [destruct Hin|].
  simpl.
  destruct (insertSingleProperty_returns q w) as (b & w1 & E & Hso & _).
  pose proof (insertSingleProperty_stores q z w Hrel) as Hq.
  rewrite E in *. simpl in Hq.
  pose proof (storeReliable_storeOnly w w1 Hso Hrel) as Hrel1.
  specialize (IH w1 Hrel1 p z).
  pose proof (attempts_keeps ps z w1) as Hk.
  destruct (attempts ps w1) as [l w2]. simpl in *.
  destruct Hin as [-> | Hin]; [apply Hk, Hq; assumption | now apply IH].
Qed.

(** Records that are not valid or whose identifier is stored go through the
    loop without a trace in the count or in the tables. *)
Lemma insertLoop_nothing_new (ps : list GeneratedProperty) :
  forall (n : Z) (w : World),
    (forall p z, In p ps -> validatePropertyData p = true ->
                 zpid p = Some z -> lookupZpid z (db w) <> None) ->
    exists w', insertLoop ps n w = (Returned n, w') /\ db w' = db w.
Proof.
  induction ps as [|p ps IH]; intros n w H; simpl.
  - exists w. split; reflexivity.
  - assert (Hp : exists w1, insertSingleProperty p w = (Returned false, w1)
                            /\ db w1 = db w).
    { destruct (validatePropertyData p) eqn:Hv.
      - destruct (validatePropertyData_true p Hv) as [Hreq _].
        apply requiredFieldMissing_false in Hreq. destruct Hreq as [Hz _].
        destruct (zpid p) as [z|] eqn:Ez; [|congruence].
        destruct (insertSingleProperty_stored p z w Ez) as (w1 & E1 & _ & D1).
        { apply (H p z); auto. now left. }
        exists w1. auto.
      - exists w. split; [now apply insertSingleProperty_invalid | reflexivity]. }
    destruct Hp as (w1 & E1 & D1).
    unfold bind, tryCatch. rewrite E1.
    destruct (IH n w1) as (w' & E' & D').
    { intros q z Hin Hv Hz. rewrite D1. apply (H q z); auto. now right. }
    exists w'. split; [exact E' | congruence].
Qed.

(** X6. With a store that does not fail, [insertProperties] over a list
    of records that has been inserted before inserts nothing: it returns 0
    and leaves the store as it is. *)
Theorem second_run_inserts_nothing
    (ps : list GeneratedProperty) (w : World) :
  storeReliable w ->
  exists (n : Z) (w1 w2 : World),
    insertProperties ps w = (Returned n, w1) /\
    insertProperties ps w1 = (Returned 0%Z, w2) /\ db w2 = db w1.
Proof.
  intros Hrel. unfold insertProperties at 1. rewrite insertLoop_attempts.
  eexists _, _. 
  destruct (insertLoop_nothing_new ps 0%Z (snd (attempts ps w)))
    as (w2 & E2 & D2).
  { intros p z Hin Hv Hz. now apply (attempts_stores ps w Hrel p z). }
  exists w2. split; [reflexivity|]. split; assumption.
Qed.




Lemma attempts_app (ps1 ps2 : list GeneratedProperty) :
  forall w,
    attempts (ps1 ++ ps2) w
    = (fst (attempts ps1 w) ++ fst (attempts ps2 (snd (attempts ps1 w))),
       snd (attempts ps2 (snd (attempts ps1 w)))).
Proof.
  induction ps1 as [|p ps1 IH]; intros w; simpl.
  - now destruct (attempts ps2 w).
  - destruct (insertSingleProperty p w) as [r w1]. rewrite IH.
    destruct (attempts ps1 w1) as [l1 w2]. reflexivity.
Qed.

(** X8. [insertProperties] over a list made of two parts does what it
    does over the first part and then over the second: the worlds are the
    same and the count is the sum of the two counts. *)
Theorem insertProperties_in_parts
    (ps1 ps2 : list GeneratedProperty) (w : World) :
  exists (n1 n2 : Z) (w1 w2 : World),
    insertProperties ps1 w = (Returned n1, w1) /\
    insertProperties ps2 w1 = (Returned n2, w2) /\
    insertProperties (ps1 ++ ps2) w = (Returned (n1 + n2)%Z, w2).
Proof.
  unfold insertProperties. rewrite !insertLoop_attempts, attempts_app.
  eexists _, _, _, _. split; [reflexivity|].
  rewrite insertLoop_attempts. split; [reflexivity|].
  cbn [fst snd]. rewrite count_occ_app. f_equal. f_equal. lia.
Qed.

(** *** Defaults in the place of zero *)

Lemma orNumber_orDefault (given : option Q) (d : Q) :
  orDefault given d (orNumber given d).
Proof.
  unfold orDefault, orNumber. split.
  - intros g -> Hg. destruct (Qeq_bool g 0) eqn:E; [|reflexivity].
    apply Qeq_bool_iff in E. contradiction.
  - intros [-> | (g & -> & Hg)]; [reflexivity|].
    apply Qeq_bool_iff in Hg. now rewrite Hg.
Qed.

Lemma orNumber_nonzero (given : option Q) (d : Q) :
  ~ d == 0 -> ~ orNumber given d == 0.
Proof.
  intros Hd. unfold orNumber. destruct given as [g|]; [|assumption].
  destruct (Qeq_bool g 0) eqn:E; [assumption|].
  now apply Qeq_bool_neq in E.
Qed.

Lemma createAll_features (p : GeneratedProperty) (f : Features) (d d' : Db) :
  features p = Some f -> createAll p d = Some d' ->
  exists (pid : Z) (d2 : Db),
    propertyFeatures d' = propertyFeatures (createFeatures pid f d2) /\
    propertyFeatures d2 = propertyFeatures d.
Proof.
  intros Hf. unfold createAll.
  destruct (createProperty p d) as [[row d1]|] eqn:E; [|discriminate].
  apply createProperty_written in E.
  destruct E as (_ & _ & _ & F1 & _).
  pose proof (listing_step (Prisma.id row) (price p) (listing p) d1) as S2.
  cbv zeta in S2.
  set (d2 := match listing p with
             | Some l => createListing (Prisma.id row) (price p) l d1
             | None => d1
             end) in *.
  destruct S2 as (_ & F2 & _). rewrite Hf.
  pose proof (photos_step (Prisma.id row) (Prisma.zpid row) (photos p)
                (createFeatures (Prisma.id row) f d2)) as S4.
  cbv zeta in S4.
  set (d4 := match photos p with
             | Some (photo :: rest) =>
                 createPhotos (Prisma.id row) (Prisma.zpid row) 0 (photo :: rest)
                   (createFeatures (Prisma.id row) f d2)
             | _ => createFeatures (Prisma.id row) f d2
             end) in *.
  destruct S4 as (_ & _ & F4 & _). clearbody d4.
  intros H. injection H as <-.
  exists (Prisma.id row), d2. split; [exact F4 | congruence].
Qed.

Lemma createAll_listing (p : GeneratedProperty) (l : Listing) (d d' : Db) :
  listing p = Some l -> createAll p d = Some d' ->
  exists (pid : Z) (d1 : Db),
    listings d' = listings (createListing pid (price p) l d1) /\
    listings d1 = listings d.
Proof.
  intros Hl. unfold createAll.
  destruct (createProperty p d) as [[row d1]|] eqn:E; [|discriminate].
  apply createProperty_written in E.
  destruct E as (_ & _ & L1 & _). rewrite Hl.
  pose proof (features_step (Prisma.id row) (features p)
                (createListing (Prisma.id row) (price p) l d1)) as S3.
  cbv zeta in S3.
  set (d3 := match features p with
             | Some f =>
                 createFeatures (Prisma.id row) f
                   (createListing (Prisma.id row) (price p) l d1)
             | None => createListing (Prisma.id row) (price p) l d1
             end) in *.
  destruct S3 as (_ & L3 & _).
  pose proof (photos_step (Prisma.id row) (Prisma.zpid row) (photos p) d3) as S4.
  cbv zeta in S4.
  set (d4 := match photos p with
             | Some (photo :: rest) =>
                 createPhotos (Prisma.id row) (Prisma.zpid row) 0 (photo :: rest) d3
             | _ => d3
             end) in *.
  destruct S4 as (_ & L4 & _). clearbody d4 d3.
  intros H. injection H as <-.
  exists (Prisma.id row), d1. split; [congruence | exact L1].
Qed.

(** X9. The scores and the original price are filled in with [||]: after
    an insertion the stored walkability, transit and bike scores are those
    of the record, or 80, 85 and 70 where the record has none or has 0, and
    the stored original price is that of the record, or the price where the
    record has none or has 0.  None of the four is ever stored as 0. *)
Theorem zero_gives_way_to_default (p : GeneratedProperty) (w w' : World) :
  insertSingleProperty p w = (Returned true, w') ->
  (forall f, features p = Some f ->
     exists (row : Prisma.PropertyFeatures) (walk transit bike : Q),
       propertyFeatures (db w') = propertyFeatures (db w) ++ [row] /\
       walkabilityScore (Prisma.features_columns row) = Some walk /\
       transitScore (Prisma.features_columns row) = Some transit /\
       bikeScore (Prisma.features_columns row) = Some bike /\
       orDefault (walkabilityScore f) 80 walk /\ ~ walk == 0 /\
       orDefault (transitScore f) 85 transit /\ ~ transit == 0 /\
       orDefault (bikeScore f) 70 bike /\ ~ bike == 0) /\
  (forall l, listing p = Some l ->
     exists (row : Prisma.Listing) (pr original : Q),
       listings (db w') = listings (db w) ++ [row] /\
       price p = Some pr /\
       originalPrice (Prisma.listing_columns row) = Some original /\
       orDefault (originalPrice l) pr original /\ ~ original == 0).
Proof.
  intros E.
  destruct (insertSingleProperty_returns p w) as (b & w1 & E1 & _ & _ & Ht).
  rewrite E in E1. injection E1 as <- <-.
  destruct (Ht eq_refl) as (Hv & z & _ & _ & Hc). split.
  - intros f Hf.
    destruct (createAll_features p f _ _ Hf Hc) as (pid & d2 & E2 & E3).
    rewrite E2. cbn [createFeatures propertyFeatures]. rewrite E3.
    eexists _, _, _, _. split; [reflexivity|]. cbn.
    repeat (split; [reflexivity|]).
    repeat split; try apply orNumber_orDefault;
      apply orNumber_nonzero; intros H; discriminate H.
  - intros l Hl.
    destruct (createAll_listing p l _ _ Hl Hc) as (pid & d1 & E2 & E3).
    rewrite E2. cbn [createListing listings]. rewrite E3.
    apply validatePropertyData_true in Hv.
    destruct Hv as (_ & bd & ba & sq & pr & yb & lat & lon & _ & _ & _
                    & Hpr & _ & _ & _ & R).
    apply rangesValid_iff in R. destruct R as (_ & _ & _ & [Hpos _] & _).
    exists {| Prisma.listing_propertyId := pid;
              Prisma.listing_columns :=
                {| listDate := listDate l;
                   daysOnMarket := Some (orNumber (daysOnMarket l) 0);
                   description := description l;
                   keyFeatures := Some (nullish (keyFeatures l) []);
                   agentName := agentName l;
                   agentPhone := agentPhone l;
                   agentEmail := agentEmail l;
                   brokerage := brokerage l;
                   openHouseDates := Some (nullish (openHouseDates l) []);
                   tourAvailable := Some (nullish (tourAvailable l) true);
                   virtualTourUrl := virtualTourUrl l;
                   originalPrice := Some (orNumber (originalPrice l) pr);
                   priceChanges := Some (nullish (priceChanges l) []) |} |},
      pr, (orNumber (originalPrice l) pr).
    split.
    { rewrite Hpr. do 3 f_equal. unfold orNumber.
      destruct (originalPrice l) as [q|]; [|reflexivity].
      destruct (Qeq_bool q 0); reflexivity. }
    split; [assumption|]. split; [reflexivity|].
    split; [apply orNumber_orDefault|].
    apply orNumber_nonzero. intros H. rewrite H in Hpos.
    now apply Qlt_irrefl in Hpos.
Qed.

End StoreFacts.


Lemma inserted_record_is_found_witness :
  exists row : Prisma.Property,
    Inserter.lookupZpid (Prisma.zpid row)
      (db (snd (Inserter.insertSingleProperty sampleProperty
                  (initialWorld quiet)))) = Some row /\
    Prisma.zpid row = "10000001"%string /\ Prisma.city row = "Oakland"%string /\
    Prisma.status row = "For Sale"%string /\
    Prisma.listingType row = "Resale"%string.
Proof.
  destruct (inserted_record_is_found sampleProperty (initialWorld quiet)
              (snd (Inserter.insertSingleProperty sampleProperty
                      (initialWorld quiet))) eq_refl)
    as (row & Hfound & Hz & _ & _ & _ & _ & _ & _ & _ & _ & _ & _ & Hcity
        & _ & Hs & _ & _ & Hl).
  exists row. split; [exact Hfound|]. split; [|split; [exact Hcity|split]].
  - simpl in Hz. now injection Hz as <-.
  - apply (Hs "For Sale"%string); [reflexivity | discriminate].
  - apply Hl. now left.
Defined.

Lemma zero_gives_way_to_default_witness :
  exists (row : Prisma.PropertyFeatures) (walk transit : Q),
    propertyFeatures
      (db (snd (Inserter.insertSingleProperty zeroScores
                  (initialWorld quiet)))) = [row] /\
    walkabilityScore (Prisma.features_columns row) = Some walk /\
    transitScore (Prisma.features_columns row) = Some transit /\
    walk = 80 /\ transit = 92.
Proof.
  destruct (zero_gives_way_to_default zeroScores (initialWorld quiet)
              (snd (Inserter.insertSingleProperty zeroScores
                      (initialWorld quiet))) eq_refl)
    as [Hf _].
  destruct (Hf _ eq_refl)
    as (row & walk & transit & bike & Hrows & Hw & Ht & _ & [_ Hwd] & _
        & [Htd _] & _).
  exists row, walk, transit. split; [exact Hrows|].
  split; [exact Hw|]. split; [exact Ht|]. split.
  - apply Hwd. right. exists 0. split; reflexivity.
  - apply (Htd 92); [reflexivity | discriminate].
Defined.

Lemma insertProperties_keeps_store_consistent_witness :
  storeConsistent
    (db (snd (Inserter.insertProperties [sampleProperty; zeroScores]
                (initialWorld quiet)))).
Proof.
  apply (insertProperties_keeps_store_consistent
           [sampleProperty; zeroScores] (initialWorld quiet)).
  unfold storeConsistent. simpl.
  repeat split; try constructor; intros ? [].
Defined.

Lemma second_run_inserts_nothing_witness :
  exists (n : Z) (w1 w2 : World),
    Inserter.insertProperties [sampleProperty; zeroScores]
      (initialWorld quiet) = (Returned n, w1) /\
    Inserter.insertProperties [sampleProperty; zeroScores] w1
    = (Returned 0%Z, w2) /\
    db w2 = db w1.
Proof.
  apply (second_run_inserts_nothing [sampleProperty; zeroScores]
           (initialWorld quiet)).
  intros k. reflexivity.
Defined.


(** ** The plan and the random numbers *)

Section PlanFacts.
Import JsNumber Generator.

Lemma fold_left_sum {T : Type} (weight : T -> Q) (items : list T) :
  forall a : Q,
    fold_left (fun sum item => sum + weight item) items a
    == a + sumWeights weight items.
Proof.
  unfold sumWeights. induction items as [|x items IH]; intros a; simpl.
  - ring.
  - rewrite IH, (IH (0 + weight x)). ring.
Qed.

Lemma sumWeights_cons {T : Type} (weight : T -> Q) (x : T) (items : list T) :
  sumWeights weight (x :: items) == weight x + sumWeights weight items.
Proof.
  unfold sumWeights at 1. simpl. rewrite fold_left_sum. ring.
Qed.

Lemma sumWeights_app {T : Type} (weight : T -> Q) (l1 l2 : list T) :
  sumWeights weight (l1 ++ l2)
  == sumWeights weight l1 + sumWeights weight l2.
Proof.
  induction l1 as [|x l1 IH]; simpl.
  - unfold sumWeights at 2. simpl. ring.
  - rewrite !sumWeights_cons, IH. ring.
Qed.




(** *** The requests of a plan *)

Lemma leb_ext (a b c d : Q) : (a <= b <-> c <= d) -> leb a b = leb c d.
Proof.
  intros H. destruct (leb a b) eqn:E1, (leb c d) eqn:E2; try reflexivity.
  - apply leb_iff in E1. apply H in E1. apply leb_iff in E1. congruence.
  - apply leb_iff in E2. apply H in E2. apply leb_iff in E2. congruence.
Qed.

Lemma draw_type (w : World) :
  weightedRandom type_weight propertyTypes w
  = (Returned
       (Some {| type := typeDrawn (random (env w) (randomCalls w));
                type_weight :=
                  match typeDrawn (random (env w) (randomCalls w)) with
                  | single_family => 0.7
                  | condo => 0.2
                  | townhouse => 0.1
                  end |}),
     set_randomCalls (S (randomCalls w)) w).
Proof.
  unfold weightedRandom, bind, mathRandom, ret, typeDrawn.
  set (r := random (env w) (randomCalls w)).
  cbn [propertyTypes fold_left pick type_weight map last].
  set (t := 0 + 0.7 + 0.2 + 0.1).
  assert (Ht : t == 1) by reflexivity.
  rewrite (leb_ext (r * t - 0.7) 0 r 0.7) by (rewrite Ht; split; lra).
  destruct (leb r 0.7); [reflexivity|].
  rewrite (leb_ext (r * t - 0.7 - 0.2) 0 r 0.9) by (rewrite Ht; split; lra).
  destruct (leb r 0.9); [reflexivity|].
  destruct (leb (r * t - 0.7 - 0.2 - 0.1) 0); reflexivity.
Qed.

Lemma draw_bedrooms (w : World) :
  exists weight : Q,
    weightedRandom bedrooms_weight bedroomDist w
    = (Returned
         (Some {| dist_bedrooms :=
                    bedroomsDrawn (random (env w) (randomCalls w));
                  bedrooms_weight := weight |}),
       set_randomCalls (S (randomCalls w)) w).
Proof.
  unfold weightedRandom, bind, mathRandom, ret, bedroomsDrawn.
  set (r := random (env w) (randomCalls w)).
  cbn [bedroomDist fold_left pick bedrooms_weight map last].
  set (t := 0 + 0.2 + 0.4 + 0.3 + 0.1).
  assert (Ht : t == 1) by reflexivity.
  rewrite (leb_ext (r * t - 0.2) 0 r 0.2) by (rewrite Ht; split; lra).
  destruct (leb r 0.2); [eexists; reflexivity|].
  rewrite (leb_ext (r * t - 0.2 - 0.4) 0 r 0.6) by (rewrite Ht; split; lra).
  destruct (leb r 0.6); [eexists; reflexivity|].
  rewrite (leb_ext (r * t - 0.2 - 0.4 - 0.3) 0 r 0.9)
    by (rewrite Ht; split; lra).
  destruct (leb r 0.9); [eexists; reflexivity|].
  destruct (leb (r * t - 0.2 - 0.4 - 0.3 - 0.1) 0); eexists; reflexivity.
Qed.

(** One request, from the three random numbers it uses. *)
Lemma createPropertyRequest_drawn (w : World) :
  createPropertyRequest w
  = (Returned
       {| req_propertyType := typeDrawn (random (env w) (randomCalls w));
          priceRange :=
            fst (rangesOf (typeDrawn (random (env w) (randomCalls w))));
          req_bedrooms :=
            bedroomsDrawn (random (env w) (S (randomCalls w)));
          req_bathrooms :=
            deriveBathrooms
              (bedroomsDrawn (random (env w) (S (randomCalls w))))
              (random (env w) (S (S (randomCalls w))));
          sqftRange :=
            snd (rangesOf (typeDrawn (random (env w) (randomCalls w))));
          yearBuiltRange := (1920, 2020) |},
     set_randomCalls (3 + randomCalls w) w).
Proof.
  unfold createPropertyRequest, bind. rewrite draw_type.
  destruct (draw_bedrooms (set_randomCalls (S (randomCalls w)) w))
    as [weight ->].
  unfold mathRandom, ret. cbn.
  destruct (typeDrawn (random (env w) (randomCalls w))); reflexivity.
Qed.

Lemma createRequestsLoop_drawn (count : nat) :
  forall (requests : list PropertyGenerationRequest) (w : World),
    createRequestsLoop count requests w
    = (Returned
         (requests
          ++ map (requestDrawn (env w) (randomCalls w)) (seq 0 count)),
       set_randomCalls (3 * count + randomCalls w) w).
Proof.
  induction count as [|count IH]; intros requests w.
  - simpl. unfold ret. rewrite app_nil_r. f_equal. now destruct w.
  - cbn [createRequestsLoop]. unfold bind.
    rewrite createPropertyRequest_drawn, IH.
    f_equal.
    + rewrite <- app_assoc. do 2 f_equal. cbn [seq map app].
      rewrite <- seq_shift, map_map.
      assert (H0 : forall a b : PropertyGenerationRequest,
                 a = b -> forall l1 l2, l1 = l2 -> a :: l1 = b :: l2)
        by (intros; subst; reflexivity).
      apply H0.
      * unfold requestDrawn. cbn [env set_randomCalls randomCalls].
        replace (randomCalls w + 3 * 0)%nat with (randomCalls w) by lia.
        replace (randomCalls w + 1)%nat with (S (randomCalls w)) by lia.
        replace (randomCalls w + 2)%nat with (S (S (randomCalls w))) by lia.
        reflexivity.
      * apply map_ext. intros i.
        unfold requestDrawn. cbn [env set_randomCalls randomCalls].
        replace (3 + randomCalls w + 3 * i)%nat
          with (randomCalls w + 3 * S i)%nat by lia.
        reflexivity.
    + unfold set_randomCalls. cbn. f_equal. lia.
Qed.




End PlanFacts.



(** ** The records of the batches *)

Section BatchFacts.
Import JsNumber Generator.

Variable decode : JsString.jsstring -> option (list GeneratedProperty).

(** X13. With a positive batch size [generatePropertyBatch] never throws,
    and it returns the records of its calls one after the other, in the
    order of the calls: a call whose reply is read gives the records read
    from it, and a call that is rejected, or whose reply has no content or
    cannot be read, gives none and costs nothing but its own batch.  The
    store, the random source and the counters of the run are left alone. *)
Theorem batch_results_in_order
    (requests : list PropertyGenerationRequest) (b : Z) (fuel : nat)
    (w : World) :
  (0 < b)%Z -> (List.length requests < fuel)%nat ->
  exists w',
    generatePropertyBatch decode fuel requests b w
    = (Returned
         (flat_map
            (fun j => roundRecords decode (apiReply (env w) (apiCalls w + j)))
            (seq 0 (Z.to_nat (ceilDiv (Z.of_nat (List.length requests)) b)))),
       w') /\
    env w' = env w /\ db w' = db w /\ dbCalls w' = dbCalls w /\
    randomCalls w' = randomCalls w /\ progress w' = progress w.
Proof.
  intros Hb Hfuel.
  pose proof (rounds_le (Z.of_nat (List.length requests)) b Hb ltac:(lia))
    as Hle.
  rewrite Nat2Z.id in Hle.
  eexists. split.
  { rewrite <- rounds_ceilDiv.
    apply generatePropertyBatch_run; [assumption | lia]. }
  repeat split.
Qed.

(** With a batch size of 0 or less every round of the loop calls the
    endpoint, and the index does not get past the requests. *)
Lemma batchLoop_stuck_calls (requests : list PropertyGenerationRequest)
    (b : Z) (fuel : nat) :
  (b <= 0)%Z ->
  forall (i : Z) (results : list GeneratedProperty) (w : World),
    (i < Z.of_nat (List.length requests))%Z ->
    fst (batchLoop decode fuel requests b i results w) = OutOfFuel /\
    apiCalls (snd (batchLoop decode fuel requests b i results w))
    = (apiCalls w + fuel)%nat.
Proof.
  intros Hb. induction fuel as [|fuel IH]; intros i results w Hi.
  - split; [reflexivity | simpl; lia].
  - rewrite batchLoop_step by assumption.
    destruct (IH (i + b)%Z
                (results ++ roundRecords decode (apiReply (env w) (apiCalls w)))
                (afterCalls w 1
                   (roundEvents (slice requests i (i + b))
                      (apiReply (env w) (apiCalls w))))
                ltac:(lia)) as [H1 H2].
    split; [assumption|]. rewrite H2. simpl. lia.
Qed.

(** X14. With a batch size of 0 or less and at least one request the loop
    of [generatePropertyBatch] does not come to an end: however many rounds
    it is given, it is still running after them, and it has called the
    endpoint once in each. *)
Theorem nonpositive_batch_size_never_returns
    (requests : list PropertyGenerationRequest) (b : Z) (fuel : nat)
    (w : World) :
  (b <= 0)%Z -> requests <> [] ->
  fst (generatePropertyBatch decode fuel requests b w) = OutOfFuel /\
  apiCalls (snd (generatePropertyBatch decode fuel requests b w))
  = (apiCalls w + fuel)%nat.
Proof.
  intros Hb Hne. apply batchLoop_stuck_calls; [assumption|].
  destruct requests; [congruence | simpl; lia].
Qed.

End BatchFacts.

Lemma batch_results_in_order_witness :
  exists w',
    Generator.generatePropertyBatch twoRecords 4 threeRequests 2
      (initialWorld generous)
    = (Returned [sampleProperty; builtIn 1990; sampleProperty; builtIn 1990],
       w') /\
    db w' = emptyDb.
Proof.
  destruct (batch_results_in_order twoRecords threeRequests 2 4
              (initialWorld generous) eq_refl)
    as (w' & E & _ & Hdb & _); [simpl; lia|].
  exists w'. split; [exact E | exact Hdb].
Defined.

Lemma nonpositive_batch_size_never_returns_witness :
  fst (Generator.generatePropertyBatch twoRecords 7 threeRequests 0
         (initialWorld generous)) = OutOfFuel /\
  apiCalls (snd (Generator.generatePropertyBatch twoRecords 7 threeRequests 0
                   (initialWorld generous))) = 7%nat.
Proof.
  apply (nonpositive_batch_size_never_returns twoRecords threeRequests 0 7
           (initialWorld generous)); [lia | discriminate].
Defined.

(** ** The limiter *)

Section LimiterFacts.
Import JsNumber RateLimiter.


(** X15. [enforceRateLimit] spaces the calls: with a clock that does not
    go back and timers that do not fire before their time, it returns no
    sooner than a [maxRequestsPerMinute]-th of a minute after the call
    before it has returned, and each wait it asks for is longer than 0. *)
Theorem limiter_spaces_the_calls (config : RateLimitConfig) (this : Limiter)
    (clock : Readings) :
  0 < maxRequestsPerMinute config ->
  timersOnTime clock (enforceRateLimit config this clock) ->
  let after := fields (enforceRateLimit config this clock) in
  lastRequestTime this + 60000 / maxRequestsPerMinute config
  <= lastRequestTime after /\
  (forall ms, waitForReset (enforceRateLimit config this clock) = Some ms ->
              0 < ms) /\
  (forall ms, waitForSpacing (enforceRateLimit config this clock) = Some ms ->
              0 < ms).
Proof.
  intros Hmax. unfold timersOnTime, enforceRateLimit.
  cbn [fields waitForReset waitForSpacing lastRequestTime].
  set (now := atStart clock).
  set (minDelay := 60000 / maxRequestsPerMinute config).
  assert (Hd : 0 < minDelay).
  { unfold minDelay. apply Qlt_shift_div_l; lra. }
  destruct (leb (resetTime this) now) eqn:Ereset;
    cbn [lastRequestTime requestCount resetTime].
  - (* the minute is over: the counter starts again *)
    replace (leb (maxRequestsPerMinute config) (inject_Z 0)) with false
      by (symmetry; apply leb_false_iff; change (inject_Z 0) with 0; lra).
    cbn [lastRequestTime].
    destruct (ltb (now - lastRequestTime this) minDelay) eqn:Eearly.
    + apply ltb_iff in Eearly. intros [_ H]. cbn zeta.
      split; [lra|]. split; [discriminate|].
      intros ms E. injection E as <-. lra.
    + apply ltb_false_iff in Eearly. intros [_ H]. cbn zeta.
      split; [lra|]. split; discriminate.
  - apply leb_false_iff in Ereset.
    destruct (leb (maxRequestsPerMinute config)
                (inject_Z (requestCount this)))
      eqn:Elimited; cbn [lastRequestTime].
    + destruct (ltb (now - lastRequestTime this) minDelay) eqn:Eearly.
      * apply ltb_iff in Eearly. intros [H1 H2]. cbn zeta.
        split; [lra|]. split.
        -- intros ms E. injection E as <-. lra.
        -- intros ms E. injection E as <-. lra.
      * apply ltb_false_iff in Eearly. intros [H1 H2]. cbn zeta.
        split; [lra|]. split; [|discriminate].
        intros ms E. injection E as <-. lra.
    + destruct (ltb (now - lastRequestTime this) minDelay) eqn:Eearly.
      * apply ltb_iff in Eearly. intros [_ H]. cbn zeta.
        split; [lra|]. split; [discriminate|].
        intros ms E. injection E as <-. lra.
      * apply ltb_false_iff in Eearly. intros [_ H]. cbn zeta.
        split; [lra|]. split; discriminate.
Qed.

(** X16. With a whole limit of at least 1, a counter that is within the
    limit stays within it, and a call is always counted: after
    [enforceRateLimit] the counter is at least 1 and at most the limit; it
    is 1 after a new start and one more than before otherwise; and the
    minute that is counted ends after the start of the call. *)
Theorem limiter_counts_within_the_limit (config : RateLimitConfig)
    (this : Limiter) (clock : Readings) (limit : Z) :
  maxRequestsPerMinute config == inject_Z limit -> (1 <= limit)%Z ->
  (0 <= requestCount this <= limit)%Z ->
  timersOnTime clock (enforceRateLimit config this clock) ->
  let after := fields (enforceRateLimit config this clock) in
  (1 <= requestCount after <= limit)%Z /\
  (requestCount after = 1%Z \/
   requestCount after = (requestCount this + 1)%Z) /\
  atStart clock < resetTime after.
Proof.
  intros Hmax Hlimit [H0 Hle]. unfold timersOnTime, enforceRateLimit.
  cbn [fields waitForReset waitForSpacing requestCount resetTime].
  set (now := atStart clock).
  destruct (leb (resetTime this) now) eqn:Ereset;
    cbn [lastRequestTime requestCount resetTime].
  - replace (leb (maxRequestsPerMinute config) (inject_Z 0)) with false.
    2: { symmetry. apply leb_false_iff. rewrite Hmax, <- Zlt_Qlt. lia. }
    cbn [requestCount resetTime]. intros _. cbn zeta.
    split; [lia|]. split; [now left | lra].
  - apply leb_false_iff in Ereset.
    destruct (leb (maxRequestsPerMinute config)
                (inject_Z (requestCount this)))
      eqn:Elimited; cbn [requestCount resetTime].
    + intros [H1 _]. cbn zeta. split; [lia|]. split; [now left | lra].
    + apply leb_false_iff in Elimited. rewrite Hmax, <- Zlt_Qlt in Elimited.
      intros _. cbn zeta. split; [lia|]. split; [now right | lra].
Qed.

End LimiterFacts.

Lemma limiter_spaces_the_calls_witness :
  RateLimiter.lastRequestTime (RateLimiter.initial 0)
  + 60000 / RateLimiter.maxRequestsPerMinute RateLimiter.defaultConfig
  <= RateLimiter.lastRequestTime
       (RateLimiter.fields
          (RateLimiter.enforceRateLimit RateLimiter.defaultConfig
             (RateLimiter.initial 0) earlyCall)).
Proof.
  destruct (limiter_spaces_the_calls RateLimiter.defaultConfig
              (RateLimiter.initial 0) earlyCall) as [H _].
  - reflexivity.
  - split; [exact I | vm_compute; discriminate].
  - exact H.
Defined.

Lemma limiter_counts_within_the_limit_witness :
  (1 <= RateLimiter.requestCount
          (RateLimiter.fields
             (RateLimiter.enforceRateLimit RateLimiter.defaultConfig
                (RateLimiter.initial 0) earlyCall)) <= 50)%Z.
Proof.
  destruct (limiter_counts_within_the_limit RateLimiter.defaultConfig
              (RateLimiter.initial 0) earlyCall 50) as [H _].
  - reflexivity.
  - lia.
  - simpl. lia.
  - split; [exact I | vm_compute; discriminate].
  - exact H.
Defined.

(** ** The files of the raw data *)

Section RawDataFacts.

Lemma string_length_append (s t : string) :
  String.length (s ++ t) = (String.length s + String.length t)%nat.
Proof. induction s as [|c s IH]; simpl; [reflexivity | now rewrite IH]. Qed.

Lemma append_inj_l (s a b : string) : (s ++ a = s ++ b)%string -> a = b.
Proof.
  induction s as [|c s IH]; simpl; [auto|]. intros H. injection H. auto.
Qed.

Lemma append_inj_r (a b t : string) : (a ++ t = b ++ t)%string -> a = b.
Proof.
  revert b. induction a as [|c a IH]; intros b H.
  - destruct b as [|d b]; [reflexivity|]. exfalso.
    apply (f_equal String.length) in H. simpl in H.
    rewrite string_length_append in H. lia.
  - destruct b as [|d b].
    + exfalso. apply (f_equal String.length) in H. simpl in H.
      rewrite string_length_append in H. lia.
    + simpl in H. injection H as -> H. f_equal. now apply IH.
Qed.

(** The number that a string of digits stands for. *)
Lemma digits_value_fill (n : nat) (s : string) :
  option_map Nat.of_uint (NilEmpty.uint_of_string (fillString "0" n ++ s))
  = option_map Nat.of_uint (NilEmpty.uint_of_string s).
Proof.
  induction n as [|n IH]; [reflexivity|].
  cbn [fillString String.append NilEmpty.uint_of_string].
  destruct (NilEmpty.uint_of_string (fillString "0" n ++ s)) as [d|];
    destruct (NilEmpty.uint_of_string s) as [d'|]; simpl in *;
    try discriminate; auto.
Qed.

Lemma to_uint_not_Nil (n : nat) : Nat.to_uint n <> Decimal.Nil.
Proof.
  intros H. pose proof (DecimalNat.Unsigned.to_of (Nat.to_uint n)) as E.
  rewrite DecimalNat.Unsigned.of_to in E. rewrite H in E at 2.
  simpl in E. rewrite H in E. discriminate.
Qed.

Lemma digits_value_indexText (n : nat) :
  option_map Nat.of_uint (NilEmpty.uint_of_string (JsNumber.indexText n))
  = Some n.
Proof.
  unfold JsNumber.indexText, NilZero.string_of_uint.
  pose proof (to_uint_not_Nil n) as H.
  destruct (Nat.to_uint n) eqn:E; try congruence;
    rewrite <- E, NilEmpty.usu; simpl; now rewrite DecimalNat.Unsigned.of_to.
Qed.

Lemma padStart_inj (i j : nat) :
  padStart (JsNumber.indexText i) 3 "0" = padStart (JsNumber.indexText j) 3 "0"
  -> i = j.
Proof.
  unfold padStart. intros H.
  apply (f_equal (fun s => option_map Nat.of_uint
                             (NilEmpty.uint_of_string s))) in H.
  rewrite !digits_value_fill, !digits_value_indexText in H. congruence.
Qed.

Lemma padStart_length (s : string) (n : nat) (c : ascii) :
  String.length (padStart s n c) = Nat.max n (String.length s).
Proof.
  unfold padStart. rewrite string_length_append.
  assert (H : forall k, String.length (fillString c k) = k)
    by (induction k; simpl; congruence).
  rewrite H. lia.
Qed.

Lemma rawDataPath_inj (i j : Z) :
  (0 <= i)%Z -> (0 <= j)%Z -> rawDataPath i = rawDataPath j -> i = j.
Proof.
  intros Hi Hj. unfold rawDataPath. intros H.
  apply append_inj_l, append_inj_r, padStart_inj in H. lia.
Qed.

(** X17. The files that [saveRawData] writes for two chunks differ when
    the chunks do; the name of the file has at least three digits, and
    exactly three for the first thousand chunks. *)
Theorem raw_data_files_are_distinct (i j : Z) :
  (0 <= i)%Z -> (0 <= j)%Z ->
  (rawDataPath i = rawDataPath j -> i = j) /\
  (33 <= String.length (rawDataPath i))%nat /\
  ((i < 1000)%Z -> String.length (rawDataPath i) = 33%nat).
Proof.
  intros Hi Hj.
  assert (Hlen : String.length (rawDataPath i)
                 = (30 + Nat.max 3 (String.length
                                      (JsNumber.indexText (Z.to_nat i))))%nat).
  { unfold rawDataPath. rewrite !string_length_append, padStart_length.
    change (String.length "data/raw_generated/chunk_") with 25%nat.
    change (String.length ".json") with 5%nat. lia. }
  split; [|split].
  - now apply rawDataPath_inj.
  - rewrite Hlen. lia.
  - intros Hlt. rewrite Hlen.
    assert (H : forallb
                  (fun n => (String.length (JsNumber.indexText n) <=? 3)%nat)
                  (seq 0 1000) = true) by (vm_compute; reflexivity).
    rewrite forallb_forall in H.
    specialize (H (Z.to_nat i) ltac:(apply in_seq; lia)).
    apply Nat.leb_le in H. lia.
Qed.

End RawDataFacts.

Lemma raw_data_files_are_distinct_witness :
  (rawDataPath 7 = rawDataPath 12 -> 7 = 12)%Z /\
  (33 <= String.length (rawDataPath 7))%nat /\
  ((7 < 1000)%Z -> String.length (rawDataPath 7) = 33%nat).
Proof.
  apply (raw_data_files_are_distinct 7 12); lia.
Defined.

(** ** The run as a whole *)

Section RunFacts.
Import JsNumber Generator Inserter Orchestrator.

Variable decode : JsString.jsstring -> option (list GeneratedProperty).

(** X18. Without the credential (unset or empty), when the count of the
    stored properties fails, and when the store is not empty and the
    operator does not answer [y] at the prompt, a run changes nothing: the
    store is as it was, no random number is drawn and the endpoint is not
    called; all it leaves behind is the note that the operator has stopped
    it, in the last case. *)
Theorem run_stops_before_planning
    (fuel : nat) (total batch : Z) (w : World) :
  (apiKey (env w) = None \/ apiKey (env w) = Some ""%string) \/
  dbFault (env w) (dbCalls w) = true \/
  (properties (db w) <> [] /\ confirmed (promptAnswer (env w)) = false) ->
  let run := main decode fuel total batch w in
  db (snd run) = db w /\ apiCalls (snd run) = apiCalls w /\
  randomCalls (snd run) = randomCalls w /\
  (trace (snd run) = trace w \/ trace (snd run) = trace w ++ [AbortedByUser]).
Proof.
  intros H run.
  assert (E : exists r w',
             run = (r, w') /\ db w' = db w /\ apiCalls w' = apiCalls w /\
             randomCalls w' = randomCalls w /\
             (trace w' = trace w \/ trace w' = trace w ++ [AbortedByUser])).
  2: { destruct E as (r & w' & -> & E). exact E. }
  unfold run, main, bind at 1, construct.
  destruct (apiKey (env w)) as [[|c key]|] eqn:Hkey;
    try (eexists _, _; split; [reflexivity|]; repeat split; now left).
  destruct H as [[H|H] | H]; try discriminate.
  unfold generateAllData, bind at 1, getPropertyCount, storeCall.
  cbn [env set_progress dbCalls].
  destruct (dbFault (env w) (dbCalls w)) eqn:Hfault.
  { eexists _, _; split; [reflexivity|]; repeat split; now left. }
  destruct H as [H | [Hne Hno]]; [discriminate|].
  unfold bind at 1. cbn [db set_progress set_db set_dbCalls].
  destruct (properties (db w)) as [|row rows] eqn:Hrows; [congruence|].
  replace (0 <? Z.of_nat (List.length (row :: rows)))%Z with true
    by (symmetry; apply Z.ltb_lt; simpl; lia).
  cbn [env set_db set_dbCalls set_progress]. rewrite Hno.
  eexists _, _; split; [reflexivity|]. cbn.
  repeat split. now right.
Qed.

(** *** The chunks of a run *)

Lemma slice_min_length {A : Type} (l : list A) (start stop : Z) :
  (0 <= stop)%Z ->
  slice l start (Z.min stop (Z.of_nat (List.length l))) = slice l start stop.
Proof.
  intros H. unfold slice.
  assert (H1 : (Z.min stop (Z.of_nat (List.length l)) <? 0)%Z = false)
    by (apply Z.ltb_ge; lia).
  assert (H2 : (stop <? 0)%Z = false) by (apply Z.ltb_ge; lia).
  rewrite H1, H2. now rewrite <- Z.min_assoc, Z.min_id.
Qed.

Lemma chunkOf_firstn_skipn (requests : list PropertyGenerationRequest)
    (k : nat) :
  chunkOf requests (Z.of_nat k) = firstn 50 (skipn (k * 50) requests).
Proof.
  unfold chunkOf, chunkSize. rewrite slice_min_length by lia.
  apply (batchOf_firstn_skipn requests 50 k). lia.
Qed.

Lemma chunkOf_length (requests : list PropertyGenerationRequest) (k : nat) :
  (List.length (chunkOf requests (Z.of_nat k)) <= 50)%nat.
Proof. rewrite chunkOf_firstn_skipn, length_firstn. lia. Qed.

(** The batches of a chunk: they are the chunk, and each of them is within
    the bounds. *)
Lemma chunk_batches (chunk : list PropertyGenerationRequest) (b : Z) :
  (0 < b)%Z -> (List.length chunk <= 50)%nat ->
  let sent :=
    map (batchOf chunk b)
      (seq 0 (rounds (Z.of_nat (List.length chunk)) b 0)) in
  List.concat sent = chunk /\ Forall (batchInBounds b) sent.
Proof.
  intros Hb Hlen sent.
  pose proof (rounds_bounds_nat chunk b Hb) as Hbounds.
  cbv zeta in Hbounds. split.
  - unfold sent. rewrite batches_concat by assumption.
    apply firstn_all2. lia.
  - unfold sent. apply Forall_forall. intros batch Hin.
    apply in_map_iff in Hin. destruct Hin as (j & <- & Hj).
    apply in_seq in Hj. unfold batchInBounds.
    rewrite batchOf_length by assumption. nia.
Qed.

(** The rows that [insertProperties] adds are as many as it counts. *)
Lemma attempts_rows (ps : list GeneratedProperty) :
  forall w,
    List.length (properties (db (snd (attempts ps w))))
    = (List.length (properties (db w))
       + count_occ bool_dec (fst (attempts ps w)) true)%nat.
Proof.
  induction ps as [|p ps IH]; intros w; simpl; [lia|].
  destruct (insertSingleProperty_returns p w) as (b & w1 & E & _ & Hf & Ht).
  rewrite E. specialize (IH w1). destruct (attempts ps w1) as [l w2].
  simpl in *. rewrite IH. destruct b.
  - destruct (Ht eq_refl) as (_ & z & _ & _ & Hc).
    destruct (createAll_written p _ _ Hc) as (row & _ & _ & Hp & _).
    rewrite Hp, length_app. destruct (bool_dec true true); [|congruence].
    simpl. lia.
  - rewrite (Hf eq_refl). destruct (bool_dec false true); [discriminate|].
    lia.
Qed.

Lemma insertProperties_rows (ps : list GeneratedProperty) (w : World) :
  exists (n : Z) (w' : World),
    insertProperties ps w = (Returned n, w') /\ storeOnly w w' /\
    Z.of_nat (List.length (properties (db w')))
    = (Z.of_nat (List.length (properties (db w))) + n)%Z.
Proof.
  unfold insertProperties. rewrite insertLoop_attempts.
  eexists _, _. split; [reflexivity|]. split; [apply attempts_storeOnly|].
  rewrite attempts_rows. lia.
Qed.

Lemma savedChunks_app (t1 t2 : list Event) :
  savedChunks (t1 ++ t2) = savedChunks t1 ++ savedChunks t2.
Proof.
  induction t1 as [|e t1 IH]; simpl; [reflexivity|].
  destruct e; simpl; now rewrite IH.
Qed.

Lemma savedChunks_rounds (batch : nat -> list PropertyGenerationRequest)
    (reply : nat -> ApiReply) (l : list nat) :
  savedChunks (flat_map (fun j => roundEvents (batch j) (reply j)) l) = [].
Proof.
  induction l as [|j l IH]; simpl; [reflexivity|].
  rewrite savedChunks_app, IH. now destruct (reply j).
Qed.

(** One chunk, with a positive batch size: it comes to its end without
    having been marked as failed. *)
Lemma processChunk_effect (fuel : nat) (this : Orchestrator)
    (requests : list PropertyGenerationRequest) (k : nat) (w : World) :
  (0 < batchSize this)%Z -> (50 < fuel)%nat ->
  exists w',
    processChunk decode fuel this requests (Z.of_nat k) w
    = (Returned tt, w') /\
    batchesSent (trace w')
    = batchesSent (trace w)
      ++ map (batchOf (chunkOf requests (Z.of_nat k)) (batchSize this))
           (seq 0 (rounds (Z.of_nat
                             (List.length (chunkOf requests (Z.of_nat k))))
                     (batchSize this) 0)) /\
    env w' = env w /\ randomCalls w' = randomCalls w /\
    failedBatches (progress w') = failedBatches (progress w) /\
    currentChunk (progress w') = (Z.of_nat k + 1)%Z /\
    totalChunks (progress w') = totalChunks (progress w) /\
    totalRequested (progress w') = totalRequested (progress w) /\
    (Z.of_nat (List.length (properties (db w'))) - totalInserted (progress w')
     = Z.of_nat (List.length (properties (db w))) - totalInserted (progress w))%Z /\
    (savedChunks (trace w') = savedChunks (trace w) \/
     savedChunks (trace w') = savedChunks (trace w) ++ [Z.of_nat k]).
Proof.
  intros Hb Hfuel. unfold processChunk, bind at 1, update at 1.
  fold (chunkOf requests (Z.of_nat k)).
  pose proof (chunkOf_length requests k) as Hlen.
  set (chunk := chunkOf requests (Z.of_nat k)) in *.
  set (w0 := set_progress (set_currentChunk (Z.of_nat k + 1) (progress w)) w).
  pose proof (rounds_le (Z.of_nat (List.length chunk)) (batchSize this) Hb
                ltac:(lia)) as Hr.
  rewrite Nat2Z.id in Hr.
  unfold tryCatch, bind at 1.
  rewrite (generatePropertyBatch_run decode chunk (batchSize this) fuel w0 Hb)
    by lia.
  set (c := rounds (Z.of_nat (List.length chunk)) (batchSize this) 0).
  set (events :=
         flat_map
           (fun j => roundEvents (batchOf chunk (batchSize this) j)
                       (apiReply (env w0) (apiCalls w0 + j)))
           (seq 0 c)).
  assert (Hsent : batchesSent events = map (batchOf chunk (batchSize this))
                                         (seq 0 c))
    by apply batchesSent_rounds.
  assert (Hsaved : savedChunks events = [])
    by apply savedChunks_rounds.
  clearbody events.
  destruct (flat_map _ _) as [|p ps].
  - eexists. split; [reflexivity|].
    cbn [afterCalls trace env randomCalls progress db w0 set_progress
         set_currentChunk failedBatches currentChunk totalChunks
         totalRequested totalInserted].
    rewrite batchesSent_app, Hsent, savedChunks_app, Hsaved, app_nil_r.
    repeat split. now left.
  - unfold bind, update, saveRawData, emit, sleep, emit.
    match goal with
    | |- context [insertProperties ?l ?w2] =>
        destruct (insertProperties_rows l w2)
          as (n & w3 & E & (He & _ & Hrc & Hg & Ht) & Hrows);
        rewrite E
    end.
    eexists. split; [reflexivity|].
    cbn [afterCalls trace env randomCalls progress db w0 set_progress
         set_trace set_currentChunk set_totalInserted set_totalGenerated
         failedBatches currentChunk totalChunks totalRequested totalInserted]
      in *.
    rewrite Ht, Hg, He, Hrc, Hrows.
    cbn [set_currentChunk set_totalInserted set_totalGenerated
         failedBatches currentChunk totalChunks totalRequested totalInserted].
    rewrite !batchesSent_app, Hsent, !savedChunks_app, Hsaved.
    cbn [batchesSent savedChunks].
    rewrite !app_nil_r. repeat split; [lia | now right].
Qed.

(** The loop over the chunks, with a positive batch size. *)
Lemma chunkLoop_effect (fuel : nat) (this : Orchestrator)
    (requests : list PropertyGenerationRequest) (count : nat) :
  (0 < batchSize this)%Z -> (50 < fuel)%nat ->
  forall (k : nat) (w : World),
  exists w' sent,
    chunkLoop decode fuel this requests count (Z.of_nat k) w
    = (Returned tt, w') /\
    batchesSent (trace w') = batchesSent (trace w) ++ sent /\
    List.concat sent = firstn (count * 50) (skipn (k * 50) requests) /\
    Forall (batchInBounds (batchSize this)) sent /\
    env w' = env w /\ randomCalls w' = randomCalls w /\
    failedBatches (progress w') = failedBatches (progress w) /\
    currentChunk (progress w')
    = match count with
      | O => currentChunk (progress w)
      | S _ => Z.of_nat (k + count)
      end /\
    totalChunks (progress w') = totalChunks (progress w) /\
    totalRequested (progress w') = totalRequested (progress w) /\
    (Z.of_nat (List.length (properties (db w'))) - totalInserted (progress w')
     = Z.of_nat (List.length (properties (db w))) - totalInserted (progress w))%Z /\
    exists saved,
      savedChunks (trace w') = savedChunks (trace w) ++ saved /\
      NoDup saved /\ Forall (fun i => Z.of_nat k <= i)%Z saved.
Proof.
  intros Hb Hfuel. induction count as [|count IH]; intros k w.
  - exists w, []. simpl. rewrite app_nil_r. repeat split; try constructor.
    exists []. rewrite app_nil_r. repeat split; constructor.
  - cbn [chunkLoop]. unfold bind.
    destruct (processChunk_effect fuel this requests k w Hb Hfuel)
      as (w1 & -> & Ht1 & He1 & Hr1 & Hf1 & Hc1 & Htc1 & Htr1 & Hrows1
          & Hs1).
    replace (Z.of_nat k + 1)%Z with (Z.of_nat (S k)) by lia.
    destruct (IH (S k) w1)
      as (w2 & sent & -> & Ht2 & Hcat & Hall & He2 & Hr2 & Hf2 & Hc2 & Htc2
          & Htr2 & Hrows2 & saved & Hs2 & Hnd & Hge).
    destruct (chunk_batches (chunkOf requests (Z.of_nat k)) (batchSize this)
                Hb (chunkOf_length requests k)) as [Hcat1 Hall1].
    eexists w2, (_ ++ sent). split; [reflexivity|].
    split; [rewrite Ht2, Ht1, <- app_assoc; reflexivity|].
    split.
    { rewrite concat_app, Hcat1, Hcat, chunkOf_firstn_skipn.
      change (S count * 50)%nat with (50 + count * 50)%nat.
      rewrite firstn_add_skipn, skipn_skipn. reflexivity. }
    split; [apply Forall_app; split; assumption|].
    split; [congruence|]. split; [congruence|]. split; [congruence|].
    split.
    { rewrite Hc2. destruct count; [rewrite Hc1|]; lia. }
    split; [congruence|]. split; [congruence|]. split; [lia|].
    assert (Hge' : Forall (fun i => Z.of_nat k <= i)%Z saved).
    { eapply Forall_impl; [|exact Hge]. simpl. intros i Hi. lia. }
    destruct Hs1 as [Hs1 | Hs1].
    + exists saved. rewrite Hs2, Hs1. auto.
    + exists (Z.of_nat k :: saved). rewrite Hs2, Hs1, <- app_assoc.
      split; [reflexivity|]. split.
      * constructor; [|assumption]. intros Hin.
        rewrite Forall_forall in Hge. specialize (Hge _ Hin). lia.
      * constructor; [lia | assumption].
Qed.

(** A run that goes on after the look at the store: the plan, and the
    world in which the loop over the chunks starts. *)
Lemma main_unfold (fuel : nat) (total batch : Z) (w : World) :
  hasCredential w -> dbFault (env w) (dbCalls w) = false -> mayProceed w ->
  let requests :=
    map (requestDrawn (env w) (randomCalls w)) (seq 0 (Z.to_nat total)) in
  let chunks := ceilDiv (Z.of_nat (List.length requests)) chunkSize in
  exists w3,
    main decode fuel total batch w
    = (chunkLoop decode fuel
         {| totalProperties := total; batchSize := batch |} requests
         (Z.to_nat chunks) 0 ;;;
       fun w => emit (Summary (progress w)) w) w3 /\
    env w3 = env w /\ db w3 = db w /\ apiCalls w3 = apiCalls w /\
    randomCalls w3 = (3 * Z.to_nat total + randomCalls w)%nat /\
    trace w3 = trace w /\
    progress w3
    = {| totalRequested := total; totalGenerated := 0; totalInserted := 0;
         currentChunk := 0; totalChunks := chunks; failedBatches := [] |}.
Proof.
  intros (key & Hkey & Hne) Hfault Hgo requests chunks.
  unfold main, bind at 1, construct. rewrite Hkey.
  destruct key as [|c key]; [congruence|].
  set (this := {| totalProperties := total; batchSize := batch |}).
  set (w0 := set_progress _ w).
  unfold generateAllData, bind at 1, getPropertyCount, storeCall.
  change (dbFault (env w0) (dbCalls w0)) with (dbFault (env w) (dbCalls w)).
  rewrite Hfault.
  set (w1 := set_db _ _).
  assert (Hproceed :
            (if (0 <? Z.of_nat (List.length (properties (db w0))))%Z
             then fun w2 =>
                    if confirmed (promptAnswer (env w2)) then ret true w2
                    else (emit AbortedByUser ;;; ret false) w2
             else ret true) w1 = (Returned true, w1)).
  { destruct Hgo as [Hempty | Hyes].
    - change (db w0) with (db w). rewrite Hempty. reflexivity.
    - destruct (0 <? _)%Z; [|reflexivity].
      change (promptAnswer (env w1)) with (promptAnswer (env w)).
      now rewrite Hyes. }
  rewrite (bind_returned _ _ _ _ _ Hproceed). cbn [negb].
  unfold createPropertyRequests, bind at 1.
  rewrite createRequestsLoop_drawn. cbn [app totalProperties this].
  unfold bind at 1, update at 1. unfold bind at 1. unfold ret at 1.
  eexists. split; [reflexivity|].
  cbn. destruct w as [e d dc ac rc g t]. cbn. repeat split.
Qed.

(** X19. A run that has its credential, whose count of the stored
    properties succeeds, that may go on and whose batch size is positive
    sends each planned request to the endpoint once, in the order of the
    plan: the batches it sends, one after the other, are the plan, which
    has [totalProperties] requests; no batch is empty, and none has more
    requests than the batch size or than the 50 of a chunk. *)
Theorem every_planned_request_sent_once
    (fuel : nat) (total batch : Z) (w : World) :
  hasCredential w -> dbFault (env w) (dbCalls w) = false -> mayProceed w ->
  (0 < batch)%Z -> (50 < fuel)%nat ->
  exists w' sent,
    main decode fuel total batch w = (Returned tt, w') /\
    batchesSent (trace w') = batchesSent (trace w) ++ sent /\
    List.concat sent
    = map (requestDrawn (env w) (randomCalls w)) (seq 0 (Z.to_nat total)) /\
    Forall (batchInBounds batch) sent.
Proof.
  intros Hkey Hfault Hgo Hb Hfuel.
  destruct (main_unfold fuel total batch w Hkey Hfault Hgo)
    as (w3 & -> & _ & _ & _ & _ & Ht3 & _).
  set (requests := map _ (seq 0 (Z.to_nat total))).
  set (this := {| totalProperties := total; batchSize := batch |}).
  destruct (chunkLoop_effect fuel this requests
              (Z.to_nat (ceilDiv (Z.of_nat (List.length requests)) chunkSize))
              Hb Hfuel 0 w3)
    as (w4 & sent & E & Ht4 & Hcat & Hall & _).
  change (Z.of_nat 0) with 0%Z in E.
  rewrite (bind_returned _ _ _ _ _ E). unfold emit.
  eexists _, sent. split; [reflexivity|].
  cbn [trace set_trace]. rewrite batchesSent_app, Ht4, Ht3.
  cbn [batchesSent]. rewrite app_nil_r.
  split; [reflexivity|]. split; [|exact Hall].
  rewrite Hcat. cbn [skipn Nat.mul]. apply firstn_all2.
  pose proof (rounds_bounds (Z.of_nat (List.length requests)) 50
                ltac:(lia) ltac:(lia)) as Hbounds.
  rewrite rounds_ceilDiv in Hbounds. unfold chunkSize. lia.
Qed.

(** X20. Such a run ends with no chunk marked as failed (what the endpoint
    and the store do is caught further inside), with the chunk counter at
    the number of the chunks, which is the number of the requests divided
    by 50 and rounded up, and with three random numbers used for each
    request; and the properties table has grown by what the counter of the
    inserted records says. *)
Theorem run_ends_with_all_chunks_done
    (fuel : nat) (total batch : Z) (w : World) :
  hasCredential w -> dbFault (env w) (dbCalls w) = false -> mayProceed w ->
  (0 < batch)%Z -> (50 < fuel)%nat ->
  exists w',
    main decode fuel total batch w = (Returned tt, w') /\
    failedBatches (progress w') = [] /\
    totalRequested (progress w') = total /\
    totalChunks (progress w') = ceilDiv (Z.max total 0) 50 /\
    currentChunk (progress w') = totalChunks (progress w') /\
    randomCalls w' = (randomCalls w + 3 * Z.to_nat total)%nat /\
    Z.of_nat (List.length (properties (db w')))
    = (Z.of_nat (List.length (properties (db w)))
       + totalInserted (progress w'))%Z.
Proof.
  intros Hkey Hfault Hgo Hb Hfuel.
  destruct (main_unfold fuel total batch w Hkey Hfault Hgo)
    as (w3 & -> & _ & Hd3 & _ & Hr3 & _ & Hg3).
  set (requests := map _ (seq 0 (Z.to_nat total))) in *.
  set (this := {| totalProperties := total; batchSize := batch |}).
  assert (Hlen : Z.of_nat (List.length requests) = Z.max total 0).
  { unfold requests. rewrite length_map, length_seq. lia. }
  rewrite Hlen in *.
  destruct (chunkLoop_effect fuel this requests
              (Z.to_nat (ceilDiv (Z.max total 0) chunkSize))
              Hb Hfuel 0 w3)
    as (w4 & sent & E & _ & _ & _ & _ & Hr4 & Hf4 & Hc4 & Htc4 & Htr4
        & Hrows4 & _).
  change (Z.of_nat 0) with 0%Z in E.
  rewrite (bind_returned _ _ _ _ _ E). unfold emit.
  eexists. split; [reflexivity|].
  cbn [progress randomCalls db set_trace].
  rewrite Hg3 in *. cbn [failedBatches currentChunk totalChunks totalRequested
                          totalInserted] in *.
  rewrite Hd3 in Hrows4.
  split; [assumption|]. split; [assumption|]. split; [assumption|].
  split.
  { rewrite Hc4, Htc4.
    assert (0 <= ceilDiv (Z.max total 0) chunkSize)%Z
      by (unfold ceilDiv, chunkSize; apply Z.div_pos; lia).
    destruct (Z.to_nat (ceilDiv (Z.max total 0) chunkSize)) eqn:Ek; lia. }
  split; lia.
Qed.

(** X21. Such a run writes the raw data of a chunk at most once, and no
    two chunks of it write to the same file. *)
Theorem run_writes_each_file_once
    (fuel : nat) (total batch : Z) (w : World) :
  hasCredential w -> dbFault (env w) (dbCalls w) = false -> mayProceed w ->
  (0 < batch)%Z -> (50 < fuel)%nat ->
  exists w' saved,
    main decode fuel total batch w = (Returned tt, w') /\
    savedChunks (trace w') = savedChunks (trace w) ++ saved /\
    NoDup (map rawDataPath saved).
Proof.
  intros Hkey Hfault Hgo Hb Hfuel.
  destruct (main_unfold fuel total batch w Hkey Hfault Hgo)
    as (w3 & -> & _ & _ & _ & _ & Ht3 & _).
  set (requests := map _ (seq 0 (Z.to_nat total))).
  set (this := {| totalProperties := total; batchSize := batch |}).
  destruct (chunkLoop_effect fuel this requests
              (Z.to_nat (ceilDiv (Z.of_nat (List.length requests)) chunkSize))
              Hb Hfuel 0 w3)
    as (w4 & sent & E & _ & _ & _ & _ & _ & _ & _ & _ & _ & _
        & saved & Hs & Hnd & Hge).
  change (Z.of_nat 0) with 0%Z in E.
  rewrite (bind_returned _ _ _ _ _ E). unfold emit.
  eexists _, saved. split; [reflexivity|].
  cbn [trace set_trace]. rewrite savedChunks_app, Hs, Ht3.
  cbn [savedChunks]. rewrite app_nil_r. split; [reflexivity|].
  clear Hs. induction saved as [|i saved IH]; [constructor|].
  inversion Hnd as [|? ? Hni Hnd']. inversion Hge as [|? ? Hi Hge'].
  subst. cbn [map]. constructor; [|now apply IH].
  intros Hin. apply in_map_iff in Hin. destruct Hin as (j & Hj & Hin).
  rewrite Forall_forall in Hge'. specialize (Hge' _ Hin).
  apply rawDataPath_inj in Hj; [congruence | lia | lia].
Qed.

End RunFacts.

Lemma run_stops_before_planning_witness :
  db (snd (Orchestrator.main twoRecords 51 10 5 (stockedWorld declining)))
  = db (stockedWorld declining) /\
  apiCalls (snd (Orchestrator.main twoRecords 51 10 5
                   (stockedWorld declining))) = 0%nat /\
  randomCalls (snd (Orchestrator.main twoRecords 51 10 5
                      (stockedWorld declining))) = 0%nat.
Proof.
  destruct (run_stops_before_planning twoRecords 51 10 5
              (stockedWorld declining))
    as (Hdb & Hapi & Hrandom & _).
  - right. right. split; [discriminate | reflexivity].
  - split; [exact Hdb|]. split; [exact Hapi | exact Hrandom].
Defined.

Lemma every_planned_request_sent_once_witness :
  exists w' sent,
    Orchestrator.main twoRecords 51 3 2 (initialWorld generous)
    = (Returned tt, w') /\
    batchesSent (trace w') = sent /\
    List.concat sent
    = map (requestDrawn generous 0) (seq 0 3) /\
    Forall (batchInBounds 2) sent.
Proof.
  apply (every_planned_request_sent_once twoRecords 51 3 2
           (initialWorld generous)).
  - exists "sk-sample"%string. split; [reflexivity | discriminate].
  - reflexivity.
  - left. reflexivity.
  - lia.
  - lia.
Defined.

Lemma run_ends_with_all_chunks_done_witness :
  exists w',
    Orchestrator.main twoRecords 51 3 2 (initialWorld generous)
    = (Returned tt, w') /\
    failedBatches (progress w') = [] /\
    totalRequested (progress w') = 3%Z /\
    totalChunks (progress w') = 1%Z /\
    currentChunk (progress w') = totalChunks (progress w') /\
    randomCalls w' = 9%nat /\
    Z.of_nat (List.length (properties (db w')))
    = (0 + totalInserted (progress w'))%Z.
Proof.
  apply (run_ends_with_all_chunks_done twoRecords 51 3 2
           (initialWorld generous)).
  - exists "sk-sample"%string. split; [reflexivity | discriminate].
  - reflexivity.
  - left. reflexivity.
  - lia.
  - lia.
Defined.

Lemma run_writes_each_file_once_witness :
  exists w' saved,
    Orchestrator.main twoRecords 51 3 2 (initialWorld generous)
    = (Returned tt, w') /\
    savedChunks (trace w') = saved /\
    NoDup (map rawDataPath saved).
Proof.
  apply (run_writes_each_file_once twoRecords 51 3 2
           (initialWorld generous)).
  - exists "sk-sample"%string. split; [reflexivity | discriminate].
  - reflexivity.
  - left. reflexivity.
  - lia.
  - lia.
Defined.

(** ** The report on the store *)

Section ValidationFacts.
Import JsNumber Validation.

Lemma mathMin_least (xs : list Q) :
  xs <> [] ->
  exists lo, mathMin xs = Some lo /\ In lo xs /\ forall x, In x xs -> lo <= x.
Proof.
  induction xs as [|x rest IH]; [congruence|]. intros _. simpl.
  destruct rest as [|y rest].
  - exists x. simpl. split; [reflexivity|]. split; [now left|].
    intros z [<- | []]. lra.
  - destruct IH as (m & -> & Hin & Hle); [discriminate|].
    destruct (ltb m x) eqn:E.
    + apply ltb_iff in E. exists m. split; [reflexivity|].
      split; [now right|]. intros z [<- | Hz]; [lra | now apply Hle].
    + apply ltb_false_iff in E. exists x. split; [reflexivity|].
      split; [now left|]. intros z [<- | Hz]; [lra|].
      specialize (Hle z Hz). lra.
Qed.

Lemma mathMax_greatest (xs : list Q) :
  xs <> [] ->
  exists hi, mathMax xs = Some hi /\ In hi xs /\ forall x, In x xs -> x <= hi.
Proof.
  induction xs as [|x rest IH]; [congruence|]. intros _. simpl.
  destruct rest as [|y rest].
  - exists x. simpl. split; [reflexivity|]. split; [now left|].
    intros z [<- | []]. lra.
  - destruct IH as (m & -> & Hin & Hle); [discriminate|].
    destruct (ltb x m) eqn:E.
    + apply ltb_iff in E. exists m. split; [reflexivity|].
      split; [now right|]. intros z [<- | Hz]; [lra | now apply Hle].
    + apply ltb_false_iff in E. exists x. split; [reflexivity|].
      split; [now left|]. intros z [<- | Hz]; [lra|].
      specialize (Hle z Hz). lra.
Qed.

Lemma range_spans (xs : list Q) :
  xs <> [] ->
  exists lo hi, mathMin xs = Some lo /\ mathMax xs = Some hi /\ spans lo hi xs.
Proof.
  intros H. destruct (mathMin_least xs H) as (lo & E1 & I1 & L1).
  destruct (mathMax_greatest xs H) as (hi & E2 & I2 & L2).
  exists lo, hi. unfold spans. repeat split; auto.
Qed.

Lemma existsb_eqb_In (x : string) (l : list string) :
  existsb (String.eqb x) l = true <-> In x l.
Proof.
  rewrite existsb_exists. split.
  - intros (y & Hy & E). apply String.eqb_eq in E. now subst.
  - intros H. exists x. split; [assumption | apply String.eqb_refl].
Qed.

Lemma unique_spec (xs : list string) :
  forall seen,
    NoDup (unique seen xs) /\
    forall t, In t (unique seen xs) <-> In t xs /\ ~ In t seen.
Proof.
  induction xs as [|x rest IH]; intros seen; simpl.
  - split; [constructor | tauto].
  - destruct (existsb (String.eqb x) seen) eqn:E.
    + apply existsb_eqb_In in E. destruct (IH seen) as [Hnd Hin].
      split; [assumption|]. intros t. rewrite Hin. split.
      * tauto.
      * intros [[<- | H] Hs]; tauto.
    + assert (Hx : ~ In x seen).
      { intros H. apply existsb_eqb_In in H. congruence. }
      destruct (IH (seen ++ [x])) as [Hnd Hin]. split.
      * constructor; [|assumption]. rewrite Hin, in_app_iff. simpl. tauto.
      * intros t. simpl. rewrite Hin, in_app_iff. simpl.
        destruct (string_dec x t) as [<- | Hne]; [tauto|]. tauto.
Qed.

(** X22. When the store answers its two calls, [validateGeneration]
    returns a report and leaves the store alone.  The report counts the
    stored properties, and it calls the store valid exactly when there is a
    property in it: no row is looked at for that.  For an empty store it
    has an error and an empty sample.  Otherwise it has no error, its
    sample has the first 20 properties or all of them if they are fewer,
    the two ranges are the least and the greatest price and the least and
    the greatest bedroom count of the sample, and the property types are
    those of the sample, each of them once. *)
Theorem validation_reports_the_sample (w : World) :
  dbFault (env w) (dbCalls w) = false ->
  dbFault (env w) (S (dbCalls w)) = false ->
  exists (v : ValidationResults) (w' : World),
    validateGeneration w = (Returned v, w') /\ db w' = db w /\
    totalProperties v = Z.of_nat (List.length (properties (db w))) /\
    (isValid v = true <-> properties (db w) <> []) /\
    (isValid v = false ->
     errors v <> [] /\ sampleSize v = 0%Z /\ propertyTypes v = []) /\
    (isValid v = true ->
     let sample := firstn 20 (properties (db w)) in
     errors v = [] /\
     sampleSize v = Z.min 20 (totalProperties v) /\
     (exists lo hi, priceRange v = (Some lo, Some hi) /\
                    spans lo hi (map Prisma.price sample)) /\
     (exists lo hi, bedroomRange v = (Some lo, Some hi) /\
                    spans lo hi (map Prisma.bedrooms sample)) /\
     NoDup (propertyTypes v) /\
     forall t, In t (propertyTypes v) <->
               In t (map Prisma.propertyType sample)).
Proof.
  intros F1 F2.
  unfold validateGeneration, bind, Inserter.getPropertyCount, storeCall.
  rewrite F1.
  destruct (properties (db w)) as [|row rows] eqn:Hrows.
  - simpl. eexists _, _. split; [reflexivity|]. simpl.
    split; [now destruct w as [e [] ? ? ? ? ?]|].
    split; [reflexivity|]. split; [split; [discriminate | congruence]|].
    split; [intros _; repeat split; discriminate | discriminate].
  - replace (Z.of_nat (List.length (row :: rows)) =? 0)%Z with false
      by (symmetry; apply Z.eqb_neq; simpl; lia).
    unfold getSampleProperties, storeCall.
    cbn [env dbCalls set_db set_dbCalls db]. rewrite F2, Hrows.
    eexists _, _. split; [reflexivity|].
    cbn [db set_db set_dbCalls totalProperties isValid errors sampleSize
         priceRange bedroomRange propertyTypes].
    split; [reflexivity|]. split; [reflexivity|].
    split; [split; [discriminate | reflexivity]|].
    split; [discriminate|]. intros _.
    set (sample := firstn 20 (row :: rows)).
    assert (Hne : sample <> []) by (unfold sample; simpl; discriminate).
    split; [reflexivity|]. split.
    { rewrite length_map. unfold sample. rewrite length_firstn. lia. }
    rewrite !map_map.
    change (fun x => price (select x)) with Prisma.price.
    change (fun x => bedrooms (select x)) with Prisma.bedrooms.
    change (fun x => propertyType (select x)) with Prisma.propertyType.
    split.
    { destruct (range_spans (map Prisma.price sample)) as (lo & hi & -> & -> & H);
        [destruct sample; [congruence | discriminate]|].
      now exists lo, hi. }
    split.
    { destruct (range_spans (map Prisma.bedrooms sample))
        as (lo & hi & -> & -> & H);
        [destruct sample; [congruence | discriminate]|].
      now exists lo, hi. }
    destruct (unique_spec (map Prisma.propertyType sample) []) as [Hnd Hin].
    split; [assumption|]. intros t. rewrite Hin. simpl. tauto.
Qed.

End ValidationFacts.

Lemma validation_reports_the_sample_witness :
  exists (v : Validation.ValidationResults) (w' : World),
    Validation.validateGeneration (stockedWorld quiet) = (Returned v, w') /\
    Validation.isValid v = true /\ Validation.sampleSize v = 1%Z /\
    Validation.propertyTypes v = ["single_family"%string].
Proof.
  destruct (validation_reports_the_sample (stockedWorld quiet)
              eq_refl eq_refl)
    as (v & w' & E & _ & _ & _ & _ & _).
  exists v, w'. split; [exact E|].
  vm_compute in E. injection E as <- _. repeat split.
Defined.
